(** * librats: network utilities, command-line client and wire-level models

    A shallow embedding of [src/network_utils.cpp] and [src/main.cpp],
    together with models of the bencode codec, the XOR metric on node
    identifiers and the automatic discovery timer, which the repository keeps
    in translation units that are not part of this development. *)

From Stdlib Require Import String Ascii List ZArith NArith Lia Bool Arith.
Import ListNotations.

Set Warnings "-register-all".

Local Open Scope string_scope.
Local Open Scope list_scope.

(** ** [std::string] helpers

    A [std::string] is a finite sequence of bytes; Rocq's [string] (a list of
    [ascii]) is the same data.  The helpers below follow the member functions
    the sources call. *)
Module Str.

(** [s.empty()] *)
Definition empty (s : string) : bool :=
  match s with
  | EmptyString => true
  | String _ _ => false
  end.

(** [s.front()]; only called on non-empty strings, NUL stands for the
    out-of-contract case. *)
Definition front (s : string) : ascii :=
  match s with
  | EmptyString => zero
  | String c _ => c
  end.

(** [s.back()]; same contract as [front]. *)
Fixpoint back (s : string) : ascii :=
  match s with
  | EmptyString => zero
  | String c EmptyString => c
  | String _ t => back t
  end.

(** [s.find(pat)]: position of the first occurrence, [None] for [npos]. *)
Fixpoint find (pat s : string) : option nat :=
  if prefix pat s then Some 0%nat
  else match s with
       | EmptyString => None
       | String _ t => option_map S (find pat t)
       end.

(** [s.c_str()] as seen by a C function: the bytes before the first NUL. *)
Fixpoint c_str (s : string) : string :=
  match s with
  | EmptyString => EmptyString
  | String c t => if Ascii.eqb c zero then EmptyString else String c (c_str t)
  end.

(** [s.substr(1)] on a non-empty string. *)
Definition substr1 (s : string) : string :=
  match s with
  | EmptyString => EmptyString
  | String _ t => t
  end.

(** [v.push_back(x)] on a [std::vector]. *)
Definition push_back {A} (v : list A) (x : A) : list A := v ++ [x].

End Str.

(** ** [network_utils.cpp] *)
Module NetworkUtils.

Import Str.

(** Address families that [getaddrinfo] and [getifaddrs] report. *)
Inductive family : Type :=
| AF_INET
| AF_INET6
| AF_UNSPEC
| AF_OTHER (n : nat).

Definition family_eqb (a b : family) : bool :=
  match a, b with
  | AF_INET, AF_INET => true
  | AF_INET6, AF_INET6 => true
  | AF_UNSPEC, AF_UNSPEC => true
  | AF_OTHER n, AF_OTHER m => Nat.eqb n m
  | _, _ => false
  end.

(** The address bytes a [sockaddr] carries ([sin_addr] or [sin6_addr]). *)
Definition sockaddr := list N.

(** One node of the linked list [getaddrinfo] returns. *)
Record addrinfo : Type := mk_addrinfo {
  ai_family : family;
  ai_addr : sockaddr
}.

(** Result of [getaddrinfo]: a non-zero status, or status [0] with a
    non-empty linked list (as POSIX guarantees on success). *)
Inductive gai_result : Type :=
| gai_error (status : Z)
| gai_ok (first : addrinfo) (rest : list addrinfo).

Definition gai_list (r : gai_result) : list addrinfo :=
  match r with
  | gai_error _ => []
  | gai_ok a l => a :: l
  end.

(** One node of the list [getifaddrs] returns; [ifa_addr] may be null. *)
Record ifaddrs : Type := mk_ifaddrs {
  ifa_name : string;
  ifa_addr : option (family * sockaddr)
}.

(** The operating-system services the module calls.  They are not code of
    the repository; every function below takes them as an argument. *)
Record Platform : Type := mk_Platform {
  (** [inet_pton(af, text, dst)]: [1] on success *)
  inet_pton : family -> string -> Z;
  (** [inet_ntop(af, addr, buf, len)]: the text written to [buf] *)
  inet_ntop : family -> sockaddr -> string;
  (** [getaddrinfo(name, nullptr, hints, result)], by [hints.ai_family] *)
  getaddrinfo : string -> family -> gai_result;
  (** [getifaddrs(&ifaddr)]: [None] when it returns [-1] *)
  getifaddrs : option (list ifaddrs)
}.

Section WithPlatform.

Variable os : Platform.

Definition is_valid_ipv4 (ip_str : string) : bool :=
  Z.eqb (inet_pton os AF_INET (c_str ip_str)) 1.

Definition is_valid_ipv6 (ip_str : string) : bool :=
  Z.eqb (inet_pton os AF_INET6 (c_str ip_str)) 1.

Definition resolve_hostname (hostname : string) : string :=
  if empty hostname then ""
  else if is_valid_ipv4 hostname then hostname
  else match getaddrinfo os (c_str hostname) AF_INET with
       | gai_error _ => ""
       | gai_ok result _ => inet_ntop os AF_INET (ai_addr result)
       end.

Definition resolve_hostname_v6 (hostname : string) : string :=
  if empty hostname then ""
  else if is_valid_ipv6 hostname then hostname
  else match getaddrinfo os (c_str hostname) AF_INET6 with
       | gai_error _ => ""
       | gai_ok result _ => inet_ntop os AF_INET6 (ai_addr result)
       end.

(** The characters the last loop of [is_hostname] rejects. *)
Definition invalid_hostname_char (c : ascii) : bool :=
  (Ascii.eqb c " " || Ascii.eqb c "@" || Ascii.eqb c "#" || Ascii.eqb c "$"
   || Ascii.eqb c "%" || Ascii.eqb c "^" || Ascii.eqb c "&" || Ascii.eqb c "*"
   || Ascii.eqb c "(" || Ascii.eqb c ")" || Ascii.eqb c "+" || Ascii.eqb c "="
   || Ascii.eqb c "[" || Ascii.eqb c "]" || Ascii.eqb c "{" || Ascii.eqb c "}"
   || Ascii.eqb c "|" || Ascii.eqb c "\" || Ascii.eqb c "/" || Ascii.eqb c "?"
   || Ascii.eqb c "<" || Ascii.eqb c ">" || Ascii.eqb c "," || Ascii.eqb c ";"
   || Ascii.eqb c ":" || Ascii.eqb c "034" || Ascii.eqb c "'" || Ascii.eqb c "`"
   || Ascii.eqb c "~" || Ascii.eqb c "!")%char.

(** [for (char c : str) if (invalid) return false; ... return true] *)
Fixpoint hostname_chars_ok (str : string) : bool :=
  match str with
  | EmptyString => true
  | String c t => if invalid_hostname_char c then false else hostname_chars_ok t
  end.

Definition is_hostname (str : string) : bool :=
  if is_valid_ipv4 str || is_valid_ipv6 str then false
  else if empty str || (253 <? String.length str)%nat then false
  else if Ascii.eqb (front str) "." || Ascii.eqb (back str) "." then false
  else if Ascii.eqb (front str) "-" || Ascii.eqb (back str) "-" then false
  else if match find ".." str with Some _ => true | None => false end then false
  else if String.eqb str "." then false
  else hostname_chars_ok str.

Definition to_ip_address (host : string) : string :=
  resolve_hostname host.

(** The body of the [for (rp = result; rp != nullptr; rp = rp->ai_next)]
    loops: [addresses] after the loop has walked [l]. *)
Definition collect_addresses (af : family) (l : list addrinfo)
    (addresses : list string) : list string :=
  fold_left (fun acc rp => push_back acc (inet_ntop os af (ai_addr rp))) l addresses.

Definition resolve_all_addresses (hostname : string) : list string :=
  let addresses := [] in
  if is_valid_ipv4 hostname then push_back addresses hostname
  else match getaddrinfo os (c_str hostname) AF_INET with
       | gai_error _ => addresses
       | gai_ok first rest => collect_addresses AF_INET (first :: rest) addresses
       end.

Definition resolve_all_addresses_v6 (hostname : string) : list string :=
  let addresses := [] in
  if is_valid_ipv6 hostname then push_back addresses hostname
  else match getaddrinfo os (c_str hostname) AF_INET6 with
       | gai_error _ => addresses
       | gai_ok first rest => collect_addresses AF_INET6 (first :: rest) addresses
       end.

(** One iteration of the dual-stack loop: entries of another family are
    skipped. *)
Definition dual_step (addresses : list string) (rp : addrinfo) : list string :=
  match ai_family rp with
  | AF_INET => push_back addresses (inet_ntop os AF_INET (ai_addr rp))
  | AF_INET6 => push_back addresses (inet_ntop os AF_INET6 (ai_addr rp))
  | _ => addresses
  end.

(** The families the dual-stack loop keeps, and the text it stores for an
    entry of such a family. *)
Definition is_inet (f : family) : bool :=
  match f with
  | AF_INET | AF_INET6 => true
  | _ => false
  end.

Definition address_text (rp : addrinfo) : string :=
  inet_ntop os (ai_family rp) (ai_addr rp).

Definition resolve_all_addresses_dual (hostname : string) : list string :=
  let addresses := [] in
  if is_valid_ipv4 hostname then push_back addresses hostname
  else if is_valid_ipv6 hostname then push_back addresses hostname
  else match getaddrinfo os (c_str hostname) AF_UNSPEC with
       | gai_error _ => addresses
       | gai_ok first rest => fold_left dual_step (first :: rest) addresses
       end.

(** The [getifaddrs] branch (the non-Windows one) of
    [get_local_interface_addresses_v4] and [_v6]. *)
Definition ifaddr_step (af : family) (addresses : list string) (ifa : ifaddrs)
    : list string :=
  match ifa_addr ifa with
  | None => addresses
  | Some (fam, addr) =>
      if family_eqb fam af then push_back addresses (inet_ntop os af addr)
      else addresses
  end.

Definition get_local_interface_addresses_v4 : list string :=
  match getifaddrs os with
  | None => []
  | Some ifaddr => fold_left (ifaddr_step AF_INET) ifaddr []
  end.

Definition get_local_interface_addresses_v6 : list string :=
  match getifaddrs os with
  | None => []
  | Some ifaddr => fold_left (ifaddr_step AF_INET6) ifaddr []
  end.

Definition get_local_interface_addresses : list string :=
  let addresses := [] in
  let ipv4_addresses := get_local_interface_addresses_v4 in
  let addresses := addresses ++ ipv4_addresses in
  let ipv6_addresses := get_local_interface_addresses_v6 in
  addresses ++ ipv6_addresses.

(** [for (local_addr : local_addresses) if (local_addr == ip) return true;] *)
Fixpoint in_local_addresses (local_addresses : list string) (ip_address : string)
    : bool :=
  match local_addresses with
  | [] => false
  | local_addr :: rest =>
      if String.eqb local_addr ip_address then true
      else in_local_addresses rest ip_address
  end.

Definition is_local_interface_address (ip_address : string) : bool :=
  let local_addresses := get_local_interface_addresses in
  if in_local_addresses local_addresses ip_address then true
  else if String.eqb ip_address "127.0.0.1" || String.eqb ip_address "::1"
          || String.eqb ip_address "localhost" then true
  else false.

End WithPlatform.

End NetworkUtils.

(** ** The parts of [<istream>] and [<string>] that [main.cpp] uses *)
Module IOStream.

Import Str.

(** [std::isspace] in the "C" locale. *)
Definition isspace (c : ascii) : bool :=
  let n := nat_of_ascii c in
  Nat.eqb n 32 || (Nat.leb 9 n && Nat.leb n 13).

Definition isdigit (c : ascii) : bool :=
  let n := nat_of_ascii c in
  Nat.leb 48 n && Nat.leb n 57.

Definition digit_value (c : ascii) : Z := Z.of_nat (nat_of_ascii c) - 48.

Fixpoint skipws (s : string) : string :=
  match s with
  | EmptyString => EmptyString
  | String c t => if isspace c then skipws t else s
  end.

(** The longest prefix without white space, and what follows it. *)
Fixpoint span_word (s : string) : string * string :=
  match s with
  | EmptyString => (EmptyString, EmptyString)
  | String c t =>
      if isspace c then (EmptyString, s)
      else let (w, r) := span_word t in (String c w, r)
  end.

(** The value of the longest prefix of decimal digits ([None] when there is
    no digit), continuing from [acc], and what follows it. *)
Fixpoint scan_digits (s : string) (acc : option Z) : option Z * string :=
  match s with
  | EmptyString => (acc, EmptyString)
  | String c t =>
      if isdigit c
      then scan_digits t (Some (10 * match acc with Some a => a | None => 0 end
                                + digit_value c)%Z)
      else (acc, s)
  end.

Definition INT_MAX : Z := 2147483647.
Definition INT_MIN : Z := -2147483648.

(** [std::stoi(s)]: [strtol] in base 10 on the C string; [None] stands for
    the exception ([std::invalid_argument] when there is no digit,
    [std::out_of_range] when the value does not fit an [int]). *)
Definition stoi (s : string) : option Z :=
  let s := skipws (c_str s) in
  let '(neg, s) :=
    match s with
    | String "-" t => (true, t)
    | String "+" t => (false, t)
    | _ => (false, s)
    end in
  match fst (scan_digits s None) with
  | None => None
  | Some v =>
      let v := if neg then (- v)%Z else v in
      if (v <? INT_MIN)%Z || (INT_MAX <? v)%Z then None else Some v
  end.

(** An input stream: the characters not yet read and two of its state
    bits. *)
Record istream : Type := mk_istream {
  buf : string;
  eofbit : bool;
  failbit : bool
}.

Definition good (strm : istream) : bool := negb (eofbit strm) && negb (failbit strm).

(** [std::istringstream iss(input)] *)
Definition istringstream (input : string) : istream := mk_istream input false false.

(** The sentry of a formatted input function: it fails on a stream that is
    not good, and otherwise skips white space, failing at the end. *)
Definition sentry (strm : istream) : istream * bool :=
  if good strm then
    match skipws (buf strm) with
    | EmptyString => (mk_istream EmptyString true true, false)
    | rest => (mk_istream rest false false, true)
    end
  else (mk_istream (buf strm) (eofbit strm) true, false).

(** [is >> str] for a [std::string]: [str] keeps its value when the sentry
    fails. *)
Definition extract_string (strm : istream) (str : string) : istream * string :=
  let (strm1, ok) := sentry strm in
  if ok then
    let (w, rest) := span_word (buf strm1) in
    (mk_istream rest (empty rest) false, w)
  else (strm1, str).

(** [is >> val] for an [int]: [val] keeps its value when the sentry fails,
    becomes [0] when no digit can be read, and is clamped (with [failbit])
    when the digits do not fit. *)
Definition extract_int (strm : istream) (val : Z) : istream * Z :=
  let (strm1, ok) := sentry strm in
  if ok then
    let '(neg, s) :=
      match buf strm1 with
      | String "-" t => (true, t)
      | String "+" t => (false, t)
      | s => (false, s)
      end in
    match scan_digits s None with
    | (None, rest) => (mk_istream rest (empty rest) true, 0%Z)
    | (Some v, rest) =>
        let v := if neg then (- v)%Z else v in
        if (INT_MAX <? v)%Z then (mk_istream rest (empty rest) true, INT_MAX)
        else if (v <? INT_MIN)%Z then (mk_istream rest (empty rest) true, INT_MIN)
        else (mk_istream rest (empty rest) false, v)
    end
  else (strm1, val).

(** The characters before the first newline, and what follows the newline
    ([None] when the end is reached first). *)
Fixpoint read_line (s : string) : string * option string :=
  match s with
  | EmptyString => (EmptyString, None)
  | String c t =>
      if Ascii.eqb c "010" then (EmptyString, Some t)
      else let (l, r) := read_line t in (String c l, r)
  end.

(** [std::getline(is, str)]: an unformatted input function (no white space
    is skipped).  On a stream that is not good it sets [failbit] and leaves
    [str] alone; otherwise it erases [str] and reads up to the delimiter,
    setting [eofbit] at the end and [failbit] when nothing was read. *)
Definition getline (strm : istream) (str : string) : istream * string :=
  if good strm then
    match read_line (buf strm) with
    | (line, Some rest) => (mk_istream rest false false, line)
    | (line, None) => (mk_istream EmptyString true (empty line), line)
    end
  else (mk_istream (buf strm) (eofbit strm) true, str).

End IOStream.

(** ** [main.cpp]: the interactive client *)
Module Cli.

Import Str IOStream.

(** Operands of a chain of [<<]. *)
Inductive Part : Type :=
| Txt (s : string)
| Num (z : Z)
| Endl.

Inductive Level : Type := DEBUG | INFO | WARN | ERROR.

(** Arguments and results of calls into the library. *)
Inductive Arg : Type :=
| AUnit
| ABool (b : bool)
| AInt (z : Z)
| AStr (s : string).

(** What a run of the program does, in order. *)
Inductive Event : Type :=
| Log (level : Level) (msg : list Part)
| Cout (msg : list Part)
| Call (api : string) (args : list Arg) (ret : Arg)
| Sleep (ms : Z).

Inductive FileTransferStatus : Type :=
| PENDING | STARTING | IN_PROGRESS | PAUSED
| COMPLETED | FAILED | CANCELLED | RESUMING.

(** The [switch] on the status in [transfer_list]. *)
Definition status_text (s : FileTransferStatus) : string :=
  match s with
  | PENDING => "PENDING"
  | STARTING => "STARTING"
  | IN_PROGRESS => "IN_PROGRESS"
  | PAUSED => "PAUSED"
  | COMPLETED => "COMPLETED"
  | FAILED => "FAILED"
  | CANCELLED => "CANCELLED"
  | RESUMING => "RESUMING"
  end.

(** A [FileTransferProgress] as [transfer_list] and [transfer_status] print
    it; the texts are what [<<] writes for the [double] values. *)
Record FileTransferProgress : Type := mk_FileTransferProgress {
  transfer_id : string;
  peer_id : string;
  transfer_filename : string;
  sending : bool;
  status : FileTransferStatus;
  bytes_transferred : Z;
  total_bytes : Z;
  chunks_completed : Z;
  total_chunks : Z;
  completion_percentage_text : string;
  rate_kb_text : string;
  average_rate_kb_text : string;
  elapsed_ms : Z;
  estimated_time_remaining_ms : Z;
  error_message : string
}.

(** Everything the program observes from outside: the results of the calls
    into the library (indexed by the iteration of the command loop, [0] for
    the code before the loop, and by the name of the function), the list the
    connection callbacks maintain, the transfers the client reports, the
    services [network_utils.cpp] runs on, the test and the constant of
    [socket.h], and the value read from an [int] that was never written. *)
Record World : Type := mk_World {
  ret_bool : nat -> string -> bool;
  ret_int : nat -> string -> Z;
  ret_string : nat -> string -> string;
  connected_peers : nat -> list (Z * string);
  active_file_transfers : nat -> list FileTransferProgress;
  file_transfer_progress : nat -> option FileTransferProgress;
  platform : NetworkUtils.Platform;
  is_valid_socket : Z -> bool;
  INVALID_SOCKET_VALUE : Z;
  indeterminate_int : Z
}.

Definition line (s : string) : Event := Cout [Txt s; Endl].

Definition print_help : list Event :=
  map line
    ["Available commands:";
     "  help              - Show this help message";
     "  version           - Show version information";
     "  peers             - Show number of connected peers";
     "  list              - List all connected peers with their hash IDs";
     "  broadcast <msg>   - Send message to all connected peers";
     "  send <hash> <msg> - Send message to specific peer by hash ID";
     "  connect <host> <port> - Connect to a peer";
     "  connect6 <host> <port> - Connect to a peer using IPv6";
     "  connect_dual <host> <port> - Connect using dual stack (IPv6 first, then IPv4)";
     "  dht_start         - Start DHT peer discovery";
     "  dht_stop          - Stop DHT peer discovery";
     "  dht_status        - Show DHT status";
     "  dht_find <hash>   - Find peers for content hash";
     "  dht_announce <hash> [port] - Announce as peer for content hash";
     "  dht_discovery_status - Show automatic rats peer discovery status";
     "  netutils [hostname] - Test network utilities";
     "  netutils6 [hostname] - Test IPv6 network utilities";
     "  dht_test <ip> <port> - Test DHT protocol with specific peer";
     "  test_ipv6 <host> <port> - Test IPv6 connectivity";
     String "010" "File Transfer Commands:";
     "  file_send <peer_hash> <file_path> [remote_name] - Send file to peer";
     "  dir_send <peer_hash> <dir_path> [remote_name] [recursive] - Send directory to peer";
     "  file_request <peer_hash> <remote_path> <local_path> - Request file from peer";
     "  dir_request <peer_hash> <remote_path> <local_path> [recursive] - Request directory from peer";
     "  transfer_list     - List active file transfers";
     "  transfer_status <transfer_id> - Show transfer progress";
     "  transfer_pause <transfer_id> - Pause a transfer";
     "  transfer_resume <transfer_id> - Resume a transfer";
     "  transfer_cancel <transfer_id> - Cancel a transfer";
     "  transfer_stats    - Show transfer statistics";
     "  quit              - Exit the program"].

(** The arms of the [if]/[else if] chain on [command], in source order. *)
Inductive Branch : Type :=
| BQuit | BHelp | BVersion | BPeers | BList | BBroadcast | BSend
| BConnect | BConnect6 | BConnectDual
| BDhtStart | BDhtStop | BDhtStatus | BDhtFind | BDhtAnnounce
| BDhtDiscoveryStatus | BNetutils | BNetutils6 | BTestIpv6 | BDhtTest
| BFileSend | BDirSend | BFileRequest | BDirRequest
| BTransferList | BTransferStatus | BTransferPause | BTransferResume
| BTransferCancel | BTransferStats | BUnknown.

Definition dispatch (command : string) : Branch :=
  if String.eqb command "quit" || String.eqb command "exit" then BQuit
  else if String.eqb command "help" then BHelp
  else if String.eqb command "version" then BVersion
  else if String.eqb command "peers" then BPeers
  else if String.eqb command "list" then BList
  else if String.eqb command "broadcast" then BBroadcast
  else if String.eqb command "send" then BSend
  else if String.eqb command "connect" then BConnect
  else if String.eqb command "connect6" then BConnect6
  else if String.eqb command "connect_dual" then BConnectDual
  else if String.eqb command "dht_start" then BDhtStart
  else if String.eqb command "dht_stop" then BDhtStop
  else if String.eqb command "dht_status" then BDhtStatus
  else if String.eqb command "dht_find" then BDhtFind
  else if String.eqb command "dht_announce" then BDhtAnnounce
  else if String.eqb command "dht_discovery_status" then BDhtDiscoveryStatus
  else if String.eqb command "netutils" then BNetutils
  else if String.eqb command "netutils6" then BNetutils6
  else if String.eqb command "test_ipv6" then BTestIpv6
  else if String.eqb command "dht_test" then BDhtTest
  else if String.eqb command "file_send" then BFileSend
  else if String.eqb command "dir_send" then BDirSend
  else if String.eqb command "file_request" then BFileRequest
  else if String.eqb command "dir_request" then BDirRequest
  else if String.eqb command "transfer_list" then BTransferList
  else if String.eqb command "transfer_status" then BTransferStatus
  else if String.eqb command "transfer_pause" then BTransferPause
  else if String.eqb command "transfer_resume" then BTransferResume
  else if String.eqb command "transfer_cancel" then BTransferCancel
  else if String.eqb command "transfer_stats" then BTransferStats
  else BUnknown.

(** The words the chain compares [command] with. *)
Definition command_words : list string :=
  ["quit"; "exit"; "help"; "version"; "peers"; "list"; "broadcast"; "send";
   "connect"; "connect6"; "connect_dual"; "dht_start"; "dht_stop";
   "dht_status"; "dht_find"; "dht_announce"; "dht_discovery_status";
   "netutils"; "netutils6"; "test_ipv6"; "dht_test"; "file_send"; "dir_send";
   "file_request"; "dir_request"; "transfer_list"; "transfer_status";
   "transfer_pause"; "transfer_resume"; "transfer_cancel"; "transfer_stats"].

(** *** The bodies of the arms

    Each body reads the rest of the line from [iss] (the stream left after
    [iss >> command]) and the answers of the library from the world at
    iteration [k].  None of them contains a [break], a [continue] or a
    [return]. *)
Section Arms.

Variable w : World.
Variable k : nat.

Definition arm_peers : list Event :=
  let n := ret_int w k "get_peer_count" in
  [Call "get_peer_count" [] (AInt n);
   Log INFO [Txt "Connected peers: "; Num n]].

Definition arm_list : list Event :=
  let peers := connected_peers w k in
  match peers with
  | [] => [line "No peers connected."]
  | _ =>
      line "Connected peers:"
      :: map (fun peer => Cout [Txt "  Socket: "; Num (fst peer);
                                Txt " | Hash ID: "; Txt (snd peer); Endl]) peers
  end.

Definition arm_broadcast (iss : istream) : list Event :=
  let (_, message) := getline iss "" in
  if negb (empty message) then
    let message := substr1 message in
    let sent := ret_int w k "broadcast_string_to_peers" in
    [Call "broadcast_string_to_peers" [AStr message] (AInt sent);
     Log INFO [Txt "Broadcasted message to "; Num sent; Txt " peers"]]
  else [line "Usage: broadcast <message>"].

Definition arm_send (iss : istream) : list Event :=
  let (iss, hash_id) := extract_string iss "" in
  let (_, message) := getline iss "" in
  if negb (empty hash_id) && negb (empty message) then
    let message := substr1 message in
    let ok := ret_bool w k "send_string_to_peer_by_hash" in
    [Call "send_string_to_peer_by_hash" [AStr hash_id; AStr message] (ABool ok);
     if ok then Log INFO [Txt "Sent message to peer "; Txt hash_id]
     else Log ERROR [Txt "Failed to send message to peer "; Txt hash_id]]
  else [line "Usage: send <hash_id> <message>"].

(** [int port; iss >> host >> port;]: [port] is not initialised. *)
Definition read_host_port (iss : istream) : string * Z :=
  let (iss, host) := extract_string iss "" in
  let (_, port) := extract_int iss (indeterminate_int w) in
  (host, port).

Definition arm_connect (iss : istream) : list Event :=
  let (host, port) := read_host_port iss in
  if negb (empty host) && (0 <? port)%Z then
    let ok := ret_bool w k "connect_to_peer" in
    [Log INFO [Txt "Connecting to "; Txt host; Txt ":"; Num port; Txt "..."];
     Call "connect_to_peer" [AStr host; AInt port] (ABool ok);
     if ok then Log INFO [Txt "Successfully connected!"]
     else Log ERROR [Txt "Failed to connect to peer"]]
  else [line "Usage: connect <host> <port>"].

(** The part [connect6] and [connect_dual] share: a probe connection through
    the low-level API, closed at once, then the connection of the client. *)
Definition probe_then_connect (api : string) (host : string) (port : Z)
    (probe_ok probe_failed : string) : list Event :=
  let test_socket := ret_int w k api in
  Call api [AStr host; AInt port; AInt 10000] (AInt test_socket)
  :: if negb (Z.eqb test_socket (INVALID_SOCKET_VALUE w)) then
       let ok := ret_bool w k "connect_to_peer" in
       [Log INFO [Txt probe_ok];
        Call "close_socket" [AInt test_socket] AUnit;
        Call "connect_to_peer" [AStr host; AInt port] (ABool ok);
        if ok then Log INFO [Txt "RatsClient connected successfully!"]
        else Log ERROR [Txt "Failed to connect RatsClient"]]
     else [Log ERROR [Txt probe_failed]].

Definition arm_connect6 (iss : istream) : list Event :=
  let (host, port) := read_host_port iss in
  if negb (empty host) && (0 <? port)%Z then
    Log INFO [Txt "Connecting to "; Txt host; Txt ":"; Num port; Txt " using IPv6..."]
    :: probe_then_connect "create_tcp_client_v6" host port
         "IPv6 connection successful!" "Failed to connect using IPv6"
  else [line "Usage: connect6 <host> <port>"].

Definition arm_connect_dual (iss : istream) : list Event :=
  let (host, port) := read_host_port iss in
  if negb (empty host) && (0 <? port)%Z then
    Log INFO [Txt "Connecting to "; Txt host; Txt ":"; Num port;
              Txt " using dual stack..."]
    :: probe_then_connect "create_tcp_client" host port
         "Dual stack connection successful!" "Failed to connect using dual stack"
  else [line "Usage: connect_dual <host> <port>"].

(** [is_dht_running()] followed by the status line both [dht_status] and
    [dht_discovery_status] log. *)
Definition dht_status_lines : list Event :=
  let running := ret_bool w k "is_dht_running" in
  Call "is_dht_running" [] (ABool running)
  :: if running then
       let size := ret_int w k "get_dht_routing_table_size" in
       [Call "get_dht_routing_table_size" [] (AInt size);
        Log INFO [Txt "DHT Status: RUNNING | Routing table size: "; Num size;
                  Txt " nodes"]]
     else [Log INFO [Txt "DHT Status: STOPPED"]].

Definition arm_dht_start : list Event :=
  let running := ret_bool w k "is_dht_running" in
  Call "is_dht_running" [] (ABool running)
  :: if running then [line "DHT is already running."]
     else
       let ok := ret_bool w k "start_dht_discovery" in
       [Log INFO [Txt "Starting DHT peer discovery..."];
        Call "start_dht_discovery" [] (ABool ok);
        if ok then Log INFO [Txt "DHT peer discovery started successfully"]
        else Log ERROR [Txt "Failed to start DHT peer discovery"]].

Definition arm_dht_stop : list Event :=
  let running := ret_bool w k "is_dht_running" in
  Call "is_dht_running" [] (ABool running)
  :: if negb running then [line "DHT is not running."]
     else [Log INFO [Txt "Stopping DHT peer discovery..."];
           Call "stop_dht_discovery" [] AUnit;
           Log INFO [Txt "DHT peer discovery stopped"]].

Definition arm_dht_find (iss : istream) : list Event :=
  let (_, content_hash) := extract_string iss "" in
  if negb (empty content_hash) then
    let running := ret_bool w k "is_dht_running" in
    Call "is_dht_running" [] (ABool running)
    :: if negb running
       then [line "DHT is not running. Start it first with 'dht_start'"]
       else
         let success := ret_bool w k "find_peers_by_hash" in
         [Log INFO [Txt "Finding peers for content hash: "; Txt content_hash];
          Call "find_peers_by_hash" [AStr content_hash] (ABool success);
          if success then Log INFO [Txt "DHT peer search initiated"]
          else Log ERROR [Txt "Failed to initiate DHT peer search"]]
  else [line "Usage: dht_find <content_hash>"].

Definition arm_dht_announce (listen_port : Z) (iss : istream) : list Event :=
  let (iss, content_hash) := extract_string iss "" in
  let (_, port) := extract_int iss 0%Z in
  if negb (empty content_hash) then
    let running := ret_bool w k "is_dht_running" in
    Call "is_dht_running" [] (ABool running)
    :: if negb running
       then [line "DHT is not running. Start it first with 'dht_start'"]
       else
         let ok := ret_bool w k "announce_for_hash" in
         [Log INFO [Txt "Announcing as peer for content hash: "; Txt content_hash;
                    Txt " (port: "; Num (if (0 <? port)%Z then port else listen_port);
                    Txt ")"];
          Call "announce_for_hash" [AStr content_hash; AInt port] (ABool ok);
          if ok then Log INFO [Txt "DHT peer announcement initiated"]
          else Log ERROR [Txt "Failed to initiate DHT peer announcement"]]
  else [line "Usage: dht_announce <content_hash> [port]"].

Definition arm_dht_discovery_status : list Event :=
  let auto := ret_bool w k "is_automatic_discovery_running" in
  [Log INFO [Txt "=== Automatic Rats Peer Discovery Status ==="];
   Call "is_automatic_discovery_running" [] (ABool auto)]
  ++ (if auto then
        let hash := ret_string w k "get_rats_peer_discovery_hash" in
        [Log INFO [Txt "Automatic discovery: RUNNING"];
         Call "get_rats_peer_discovery_hash" [] (AStr hash);
         Log INFO [Txt "Discovery hash: "; Txt hash];
         Log INFO [Txt "Discovery works by:"];
         Log INFO [Txt "  - Announcing our presence for the rats discovery hash every 10 minutes"];
         Log INFO [Txt "  - Searching for other rats peers every 5 minutes"];
         Log INFO [Txt "  - Automatically connecting to discovered rats peers"]]
      else [Log INFO [Txt "Automatic discovery: STOPPED"]])
  ++ dht_status_lines.

Definition arm_file_send (iss : istream) : list Event :=
  let (iss, peer_hash) := extract_string iss "" in
  let (iss, file_path) := extract_string iss "" in
  let (_, remote_name) := getline iss "" in
  let remote_name :=
    if negb (empty remote_name) then substr1 remote_name else remote_name in
  if negb (empty peer_hash) && negb (empty file_path) then
    let available := ret_bool w k "is_file_transfer_available" in
    Call "is_file_transfer_available" [] (ABool available)
    :: if negb available then [Log ERROR [Txt "File transfer not available"]]
       else
         let id := ret_string w k "send_file" in
         [Log INFO [Txt "Sending file '"; Txt file_path; Txt "' to peer ";
                    Txt peer_hash;
                    Txt (if empty remote_name then ""
                         else " as '" ++ remote_name ++ "'")];
          Call "send_file" [AStr peer_hash; AStr file_path; AStr remote_name] (AStr id);
          if negb (empty id)
          then Log INFO [Txt "File transfer initiated with ID: "; Txt id]
          else Log ERROR [Txt "Failed to initiate file transfer"]]
  else [line "Usage: file_send <peer_hash> <file_path> [remote_name]"].

Definition print_transfer (t : FileTransferProgress) : list Event :=
  [Cout [Txt "  ID: "; Txt (transfer_id t); Endl];
   Cout [Txt "    Peer: "; Txt (peer_id t); Endl];
   Cout [Txt "    File: "; Txt (transfer_filename t); Endl];
   Cout [Txt "    Direction: "; Txt (if sending t then "SENDING" else "RECEIVING"); Endl];
   Cout [Txt "    Status: "];
   Cout [Txt (status_text (status t))];
   Cout [Endl];
   Cout [Txt "    Progress: "; Txt (completion_percentage_text t); Txt "% (";
         Num (bytes_transferred t); Txt "/"; Num (total_bytes t); Txt " bytes)"; Endl];
   Cout [Txt "    Rate: "; Txt (rate_kb_text t); Txt " KB/s"; Endl];
   Cout [Endl]].

Definition arm_transfer_list : list Event :=
  let available := ret_bool w k "is_file_transfer_available" in
  Call "is_file_transfer_available" [] (ABool available)
  :: if negb available then [Log ERROR [Txt "File transfer not available"]]
     else
       let active_transfers := active_file_transfers w k in
       Call "get_active_file_transfers" [] AUnit
       :: match active_transfers with
          | [] => [line "No active file transfers."]
          | _ => line "Active file transfers:"
                 :: flat_map print_transfer active_transfers
          end.

Definition arm_netutils (iss : istream) : list Event :=
  let (_, hostname) := extract_string iss "" in
  if empty hostname then [Call "demo_network_utils" [] AUnit]
  else [Call "demo_network_utils" [AStr hostname] AUnit].

(** [for (size_t i = 0; i < v.size(); ++i) LOG("  [" << i << "] " << v[i])] *)
Fixpoint log_indexed (i : Z) (v : list string) : list Event :=
  match v with
  | [] => []
  | a :: t => Log INFO [Txt "  ["; Num i; Txt "] "; Txt a] :: log_indexed (i + 1) t
  end.

Definition arm_netutils6 (iss : istream) : list Event :=
  let (_, hostname) := extract_string iss "" in
  let hostname := if empty hostname then "google.com" else hostname in
  let test_ipv6 := "2001:db8::1" in
  let resolved_ipv6 := NetworkUtils.resolve_hostname_v6 (platform w) hostname in
  let all_ipv6_addresses :=
    NetworkUtils.resolve_all_addresses_v6 (platform w) hostname in
  let dual_addresses :=
    NetworkUtils.resolve_all_addresses_dual (platform w) hostname in
  [Log INFO [Txt "=== IPv6 Network Utils Test ==="];
   Log INFO [Txt "Testing IPv6 functionality with: "; Txt hostname];
   Log INFO [Txt "'"; Txt test_ipv6; Txt "' is valid IPv6: ";
             Txt (if NetworkUtils.is_valid_ipv6 (platform w) test_ipv6
                  then "yes" else "no")];
   if negb (empty resolved_ipv6)
   then Log INFO [Txt "Resolved '"; Txt hostname; Txt "' to IPv6: "; Txt resolved_ipv6]
   else Log ERROR [Txt "Failed to resolve '"; Txt hostname; Txt "' to IPv6"];
   Log INFO [Txt "Found "; Num (Z.of_nat (List.length all_ipv6_addresses));
             Txt " IPv6 addresses:"]]
  ++ log_indexed 0 all_ipv6_addresses
  ++ [Log INFO [Txt "Found "; Num (Z.of_nat (List.length dual_addresses));
                Txt " addresses (dual stack):"]]
  ++ log_indexed 0 dual_addresses
  ++ [Log INFO [Txt "=== IPv6 Test Complete ==="]].

(** One of the four probes of [test_ipv6]: create, report, close. *)
Definition probe_socket (valid : Z -> bool) (api : string) (args : list Arg)
    (testing ok failed : string) : list Event :=
  let socket := ret_int w k api in
  [Log INFO [Txt testing]; Call api args (AInt socket)]
  ++ (if valid socket
      then [Log INFO [Txt ok]; Call "close_socket" [AInt socket] AUnit]
      else [Log ERROR [Txt failed]]).

Definition arm_test_ipv6 (iss : istream) : list Event :=
  let (host, port) := read_host_port iss in
  let connected := fun socket => negb (Z.eqb socket (INVALID_SOCKET_VALUE w)) in
  if negb (empty host) && (0 <? port)%Z then
    [Log INFO [Txt "=== IPv6 Connectivity Test ==="];
     Log INFO [Txt "Testing IPv6 connectivity to "; Txt host; Txt ":"; Num port]]
    ++ probe_socket connected "create_tcp_client_v6"
         [AStr host; AInt port; AInt 10000]
         "Testing IPv6 TCP client..." "IPv6 TCP connection successful!"
         "IPv6 TCP connection failed"
    ++ probe_socket connected "create_tcp_client"
         [AStr host; AInt port; AInt 10000]
         "Testing dual stack TCP client..." "Dual stack TCP connection successful!"
         "Dual stack TCP connection failed"
    ++ probe_socket (is_valid_socket w) "create_udp_socket_v6" [AInt 0]
         "Testing IPv6 UDP socket..." "IPv6 UDP socket creation successful!"
         "IPv6 UDP socket creation failed"
    ++ probe_socket (is_valid_socket w) "create_udp_socket" [AInt 0]
         "Testing dual stack UDP socket..."
         "Dual stack UDP socket creation successful!"
         "Dual stack UDP socket creation failed"
    ++ [Log INFO [Txt "=== IPv6 Test Complete ==="]]
  else [line "Usage: test_ipv6 <host> <port>"].

Definition arm_dht_test (iss : istream) : list Event :=
  let (target_ip, target_port) := read_host_port iss in
  if negb (empty target_ip) && (0 <? target_port)%Z then
    let started := ret_bool w k "DhtClient::start" in
    [Log INFO [Txt "Testing DHT protocol with "; Txt target_ip; Txt ":";
               Num target_port];
     Call "DhtClient" [AInt 8882] AUnit;
     Call "DhtClient::start" [] (ABool started)]
    ++ (if started then
          let size := ret_int w k "DhtClient::get_routing_table_size" in
          [Log INFO [Txt "Test DHT started on port 8882"];
           Call "DhtClient::bootstrap"
             [AStr target_ip; AInt (target_port mod 65536)] AUnit;
           Sleep 2000;
           Call "DhtClient::get_routing_table_size" [] (AInt size);
           Log INFO [Txt "Test DHT routing table size: "; Num size];
           Call "DhtClient::stop" [] AUnit]
        else [Log ERROR [Txt "Failed to start test DHT"]])
  else [line "Usage: dht_test <ip> <port>"].

(** [recursive_str.empty() || recursive_str == "true" || recursive_str == "1"] *)
Definition is_recursive (recursive_str : string) : bool :=
  empty recursive_str || String.eqb recursive_str "true"
  || String.eqb recursive_str "1".

(** The part the four transfer-starting commands share once their words
    are read: the availability test, the call, the report on the id. *)
Definition start_transfer (api : string) (args : list Arg) (announce : list Part)
    (ok failed : string) : list Event :=
  let available := ret_bool w k "is_file_transfer_available" in
  Call "is_file_transfer_available" [] (ABool available)
  :: if negb available then [Log ERROR [Txt "File transfer not available"]]
     else
       let id := ret_string w k api in
       [Log INFO announce;
        Call api args (AStr id);
        if negb (empty id) then Log INFO [Txt ok; Txt id]
        else Log ERROR [Txt failed]].

Definition arm_dir_send (iss : istream) : list Event :=
  let (iss, peer_hash) := extract_string iss "" in
  let (iss, dir_path) := extract_string iss "" in
  let (iss, remote_name) := extract_string iss "" in
  let (_, recursive_str) := extract_string iss "" in
  if negb (empty peer_hash) && negb (empty dir_path) then
    let recursive := is_recursive recursive_str in
    start_transfer "send_directory"
      [AStr peer_hash; AStr dir_path; AStr remote_name; ABool recursive]
      [Txt "Sending directory '"; Txt dir_path; Txt "' to peer "; Txt peer_hash;
       Txt (if empty remote_name then "" else " as '" ++ remote_name ++ "'");
       Txt " (recursive: "; Txt (if recursive then "yes" else "no"); Txt ")"]
      "Directory transfer initiated with ID: "
      "Failed to initiate directory transfer"
  else [line "Usage: dir_send <peer_hash> <dir_path> [remote_name] [recursive]"].

Definition arm_file_request (iss : istream) : list Event :=
  let (iss, peer_hash) := extract_string iss "" in
  let (iss, remote_path) := extract_string iss "" in
  let (_, local_path) := extract_string iss "" in
  if negb (empty peer_hash) && negb (empty remote_path) && negb (empty local_path)
  then
    start_transfer "request_file"
      [AStr peer_hash; AStr remote_path; AStr local_path]
      [Txt "Requesting file '"; Txt remote_path; Txt "' from peer "; Txt peer_hash;
       Txt " to save as '"; Txt local_path; Txt "'"]
      "File request initiated with ID: " "Failed to initiate file request"
  else [line "Usage: file_request <peer_hash> <remote_path> <local_path>"].

Definition arm_dir_request (iss : istream) : list Event :=
  let (iss, peer_hash) := extract_string iss "" in
  let (iss, remote_path) := extract_string iss "" in
  let (iss, local_path) := extract_string iss "" in
  let (_, recursive_str) := extract_string iss "" in
  if negb (empty peer_hash) && negb (empty remote_path) && negb (empty local_path)
  then
    let recursive := is_recursive recursive_str in
    start_transfer "request_directory"
      [AStr peer_hash; AStr remote_path; AStr local_path; ABool recursive]
      [Txt "Requesting directory '"; Txt remote_path; Txt "' from peer ";
       Txt peer_hash; Txt " to save as '"; Txt local_path; Txt "' (recursive: ";
       Txt (if recursive then "yes" else "no"); Txt ")"]
      "Directory request initiated with ID: "
      "Failed to initiate directory request"
  else [line "Usage: dir_request <peer_hash> <remote_path> <local_path> [recursive]"].

Definition print_progress (id : string) (progress : FileTransferProgress)
    : list Event :=
  [Cout [Txt "Transfer "; Txt id; Txt " status:"; Endl];
   Cout [Txt "  Peer: "; Txt (peer_id progress); Endl];
   Cout [Txt "  File: "; Txt (transfer_filename progress); Endl];
   Cout [Txt "  Direction: ";
         Txt (if sending progress then "SENDING" else "RECEIVING"); Endl];
   Cout [Txt "  Status: "];
   Cout [Txt (status_text (status progress))];
   Cout [Endl];
   Cout [Txt "  Progress: "; Txt (completion_percentage_text progress); Txt "%"; Endl];
   Cout [Txt "  Bytes: "; Num (bytes_transferred progress); Txt "/";
         Num (total_bytes progress); Endl];
   Cout [Txt "  Chunks: "; Num (chunks_completed progress); Txt "/";
         Num (total_chunks progress); Endl];
   Cout [Txt "  Rate: "; Txt (rate_kb_text progress); Txt " KB/s"; Endl];
   Cout [Txt "  Average Rate: "; Txt (average_rate_kb_text progress);
         Txt " KB/s"; Endl];
   Cout [Txt "  Elapsed: "; Num (elapsed_ms progress); Txt " ms"; Endl]]
  ++ (if (0 <? estimated_time_remaining_ms progress)%Z
      then [Cout [Txt "  ETA: "; Num (estimated_time_remaining_ms progress);
                  Txt " ms"; Endl]]
      else [])
  ++ (if negb (empty (error_message progress))
      then [Cout [Txt "  Error: "; Txt (error_message progress); Endl]]
      else []).

Definition arm_transfer_status (iss : istream) : list Event :=
  let (_, id) := extract_string iss "" in
  if negb (empty id) then
    let available := ret_bool w k "is_file_transfer_available" in
    Call "is_file_transfer_available" [] (ABool available)
    :: if negb available then [Log ERROR [Txt "File transfer not available"]]
       else
         Call "get_file_transfer_progress" [AStr id] AUnit
         :: match file_transfer_progress w k with
            | Some progress => print_progress id progress
            | None => [Log ERROR [Txt "Transfer "; Txt id; Txt " not found"]]
            end
  else [line "Usage: transfer_status <transfer_id>"].

(** [transfer_pause], [transfer_resume] and [transfer_cancel]. *)
Definition arm_transfer_control (api done failed usage : string) (iss : istream)
    : list Event :=
  let (_, id) := extract_string iss "" in
  if negb (empty id) then
    let available := ret_bool w k "is_file_transfer_available" in
    Call "is_file_transfer_available" [] (ABool available)
    :: if negb available then [Log ERROR [Txt "File transfer not available"]]
       else
         let ok := ret_bool w k api in
         [Call api [AStr id] (ABool ok);
          if ok then Log INFO [Txt "Transfer "; Txt id; Txt done]
          else Log ERROR [Txt failed; Txt id]]
  else [line usage].

Definition arm_transfer_stats : list Event :=
  let available := ret_bool w k "is_file_transfer_available" in
  Call "is_file_transfer_available" [] (ABool available)
  :: if negb available then [Log ERROR [Txt "File transfer not available"]]
     else
       let stats := ret_string w k "get_file_transfer_statistics" in
       [Call "get_file_transfer_statistics" [] (AStr stats);
        line "File Transfer Statistics:";
        Cout [Txt stats; Endl]].

Definition arm_unknown (command : string) : list Event :=
  [Cout [Txt "Unknown command: "; Txt command; Endl];
   line "Type 'help' for available commands."].

(** The body of the arm [b]. *)
Definition run_arm (listen_port : Z) (b : Branch) (command : string)
    (iss : istream) : list Event :=
  match b with
  | BQuit => [Log INFO [Txt "Shutting down..."]]
  | BHelp => print_help
  | BVersion => [Call "print_version_info" [] AUnit]
  | BPeers => arm_peers
  | BList => arm_list
  | BBroadcast => arm_broadcast iss
  | BSend => arm_send iss
  | BConnect => arm_connect iss
  | BConnect6 => arm_connect6 iss
  | BConnectDual => arm_connect_dual iss
  | BDhtStart => arm_dht_start
  | BDhtStop => arm_dht_stop
  | BDhtStatus => dht_status_lines
  | BDhtFind => arm_dht_find iss
  | BDhtAnnounce => arm_dht_announce listen_port iss
  | BDhtDiscoveryStatus => arm_dht_discovery_status
  | BNetutils => arm_netutils iss
  | BNetutils6 => arm_netutils6 iss
  | BTestIpv6 => arm_test_ipv6 iss
  | BDhtTest => arm_dht_test iss
  | BFileSend => arm_file_send iss
  | BDirSend => arm_dir_send iss
  | BFileRequest => arm_file_request iss
  | BDirRequest => arm_dir_request iss
  | BTransferList => arm_transfer_list
  | BTransferStatus => arm_transfer_status iss
  | BTransferPause =>
      arm_transfer_control "pause_file_transfer" " paused"
        "Failed to pause transfer " "Usage: transfer_pause <transfer_id>" iss
  | BTransferResume =>
      arm_transfer_control "resume_file_transfer" " resumed"
        "Failed to resume transfer " "Usage: transfer_resume <transfer_id>" iss
  | BTransferCancel =>
      arm_transfer_control "cancel_file_transfer" " cancelled"
        "Failed to cancel transfer " "Usage: transfer_cancel <transfer_id>" iss
  | BTransferStats => arm_transfer_stats
  | BUnknown => arm_unknown command
  end.

End Arms.

(** *** The command loop *)

Definition prompt : Event := Cout [Txt "rats> "].

(** How the loop was left: by [break], because [is_running()] was false,
    or not yet (the budget of iterations ran out first). *)
Inductive LoopEnd : Type := Broke | Stopped | StillLooping.

(** [while (client.is_running()) { ... }], from iteration [k] on, with
    [cin] and the variable [input] as the previous iteration left them. *)
Fixpoint command_loop (fuel : nat) (w : World) (listen_port : Z) (k : nat)
    (cin : istream) (input : string) : LoopEnd * list Event :=
  match fuel with
  | O => (StillLooping, [])
  | S fuel' =>
      let running := ret_bool w k "is_running" in
      let head := Call "is_running" [] (ABool running) in
      if negb running then (Stopped, [head])
      else
        let (cin, input) := getline cin input in
        let read := Call "getline" [] (AStr input) in
        if empty input then
          let (e, tr) := command_loop fuel' w listen_port (S k) cin input in
          (e, head :: read :: prompt :: tr)
        else
          let (iss, command) := extract_string (istringstream input) "" in
          match dispatch command with
          | BQuit =>
              (Broke, head :: read :: run_arm w k listen_port BQuit command iss)
          | b =>
              let (e, tr) := command_loop fuel' w listen_port (S k) cin input in
              (e, head :: read :: run_arm w k listen_port b command iss
                  ++ prompt :: tr)
          end
  end.

(** *** The callbacks [main] registers *)

Record FileMetadata : Type := mk_FileMetadata {
  filename : string;
  file_size : Z
}.

(** The lambdas given to [on_file_transfer_request], [on_file_request] and
    [on_directory_request]: what they log and what they return. *)
Definition file_transfer_request_lambda (peer : string) (metadata : FileMetadata)
    (id : string) : list Event * bool :=
  ([Log INFO [Txt "=== Incoming File Transfer Request ==="];
    Log INFO [Txt "From peer: "; Txt peer];
    Log INFO [Txt "File: "; Txt (filename metadata)];
    Log INFO [Txt "Size: "; Num (file_size metadata); Txt " bytes"];
    Log INFO [Txt "Transfer ID: "; Txt id];
    Log INFO [Txt "Auto-accepting file transfer..."]],
   true).

Definition file_request_lambda (peer file_path id : string) : list Event * bool :=
  ([Log INFO [Txt "=== Incoming File Request ==="];
    Log INFO [Txt "From peer: "; Txt peer];
    Log INFO [Txt "Requested file: "; Txt file_path];
    Log INFO [Txt "Transfer ID: "; Txt id];
    Log INFO [Txt "Auto-accepting file request..."]],
   true).

Definition directory_request_lambda (peer directory_path : string)
    (recursive : bool) (id : string) : list Event * bool :=
  ([Log INFO [Txt "=== Incoming Directory Request ==="];
    Log INFO [Txt "From peer: "; Txt peer];
    Log INFO [Txt "Requested directory: "; Txt directory_path];
    Log INFO [Txt "Recursive: "; Txt (if recursive then "yes" else "no")];
    Log INFO [Txt "Transfer ID: "; Txt id];
    Log INFO [Txt "Auto-accepting directory request..."]],
   true).

(** The acceptance callbacks the client holds once [main] has registered
    them. *)
Record FileCallbacks : Type := mk_FileCallbacks {
  on_file_transfer_request : string -> FileMetadata -> string -> list Event * bool;
  on_file_request : string -> string -> string -> list Event * bool;
  on_directory_request : string -> string -> bool -> string -> list Event * bool
}.

(** [if (client.is_file_transfer_available()) { ... } else { ... }] *)
Definition setup_file_callbacks (available : bool)
    : option FileCallbacks * list Event :=
  if available then
    (Some (mk_FileCallbacks file_transfer_request_lambda file_request_lambda
             directory_request_lambda),
     [Call "on_file_transfer_progress" [] AUnit;
      Call "on_file_transfer_completed" [] AUnit;
      Call "on_file_transfer_request" [] AUnit;
      Call "on_directory_transfer_progress" [] AUnit;
      Call "on_file_request" [] AUnit;
      Call "on_directory_request" [] AUnit;
      Log INFO [Txt "File transfer callbacks configured"]])
  else (None, [Log WARN [Txt "File transfer manager not available"]]).

(** The connection and disconnection callbacks, as functions on the vector
    [connected_peers] they share with the loop. *)
Definition connection_callback (peers : list (Z * string)) (socket : Z)
    (peer_hash_id : string) : list (Z * string) :=
  push_back peers (socket, peer_hash_id).

Definition disconnect_callback (peers : list (Z * string)) (socket : Z)
    : list (Z * string) :=
  filter (fun peer => negb (Z.eqb (fst peer) socket)) peers.

(** *** [main] *)

(** How a run ends: [main] returns, an exception leaves it, or the loop is
    still running when the budget of iterations is used up. *)
Inductive Outcome : Type :=
| Exit (code : Z)
| Uncaught
| Unfinished.

Record Run : Type := mk_Run {
  outcome : Outcome;
  trace : list Event;
  file_callbacks : option FileCallbacks
}.

(** The code between [client.start()] and the loop. *)
Definition after_start (w : World) (peer_host : string) (peer_port : Z)
    : list Event :=
  let dht := ret_bool w 0 "start_dht_discovery" in
  let peers := ret_int w 0 "get_peer_count" in
  let running := ret_bool w 0 "is_dht_running" in
  [Log INFO [Txt "Starting DHT peer discovery..."];
   Call "start_dht_discovery" [] (ABool dht);
   if dht then Log INFO [Txt "DHT peer discovery started successfully"]
   else Log WARN [Txt "Failed to start DHT peer discovery, but continuing..."]]
  ++ (if negb (empty peer_host) && (0 <? peer_port)%Z then
        let ok := ret_bool w 0 "connect_to_peer" in
        [Log INFO [Txt "Connecting to peer "; Txt peer_host; Txt ":"; Num peer_port;
                   Txt "..."];
         Sleep 100;
         Call "connect_to_peer" [AStr peer_host; AInt peer_port] (ABool ok);
         if ok then Log INFO [Txt "Successfully connected to peer!"]
         else Log WARN [Txt "Failed to connect to peer, but continuing..."]]
      else [])
  ++ [Call "get_peer_count" [] (AInt peers);
      Log INFO [Txt "RatsClient is running. Current peers: "; Num peers];
      Call "is_dht_running" [] (ABool running)]
  ++ (if running then
        let size := ret_int w 0 "get_dht_routing_table_size" in
        let auto := ret_bool w 0 "is_automatic_discovery_running" in
        [Call "get_dht_routing_table_size" [] (AInt size);
         Log INFO [Txt "DHT peer discovery is active. Routing table size: ";
                   Num size; Txt " nodes"];
         Call "is_automatic_discovery_running" [] (ABool auto)]
        ++ (if auto then
              let hash := ret_string w 0 "get_rats_peer_discovery_hash" in
              [Call "get_rats_peer_discovery_hash" [] (AStr hash);
               Log INFO [Txt "Automatic rats peer discovery is active using hash: ";
                         Txt hash];
               Log INFO [Txt "This will automatically find and connect to other rats peers!"]]
            else [])
      else [Log INFO [Txt "DHT peer discovery is inactive. Use 'dht_start' to enable it."]])
  ++ print_help
  ++ [Cout [Txt (String "010" "rats> ")]].

(** The code after the loop. *)
Definition clean_shutdown : list Event :=
  [Log INFO [Txt "Stopping DHT peer discovery..."];
   Call "stop_dht_discovery" [] AUnit;
   Call "stop" [] AUnit;
   Log INFO [Txt "RatsClient stopped. Goodbye!"]].

(** [listen_port]: [std::stoi(argv[1])] when [argc >= 2], else the
    default; [None] when [std::stoi] throws. *)
Definition listen_port_of (argv : list string) : option Z :=
  if (2 <=? List.length argv)%nat then stoi (nth 1 argv "") else Some 8080%Z.

(** [peer_host] and [peer_port]: [argv[2]] and [std::stoi(argv[3])] when
    [argc >= 4]; [None] when [std::stoi] throws. *)
Definition peer_of (argv : list string) : option (string * Z) :=
  if (4 <=? List.length argv)%nat
  then option_map (pair (nth 2 argv "")) (stoi (nth 3 argv ""))
  else Some ("", 0%Z).

Definition banner : list Event :=
  [Call "print_header" [] AUnit; Call "set_log_level" [AStr "DEBUG"] AUnit].

(** The code up to and including [client.start()]. *)
Definition before_start (w : World) (argv : list string) (listen_port : Z)
    : list Event :=
  let available := ret_bool w 0 "is_file_transfer_available" in
  banner
  ++ (if (2 <=? List.length argv)%nat then []
      else [Log INFO [Txt "No port specified, using default port "; Num listen_port]])
  ++ [Log DEBUG [Txt "Debug logging enabled"];
      Log INFO [Txt "Starting RatsClient on port "; Num listen_port];
      Call "RatsClient" [AInt listen_port] AUnit;
      Call "set_connection_callback" [] AUnit;
      Call "set_string_data_callback" [] AUnit;
      Call "set_disconnect_callback" [] AUnit;
      Call "is_file_transfer_available" [] (ABool available)]
  ++ snd (setup_file_callbacks available)
  ++ [Call "start" [] (ABool (ret_bool w 0 "start"))].

(** The first word of a line: [iss >> command] on a fresh stream. *)
Definition command_of (input : string) : string :=
  snd (extract_string (istringstream input) "").

(** [main(argc, argv)] reading [stdin]; [fuel] bounds the number of
    iterations of the command loop. *)
Definition main (fuel : nat) (w : World) (argv : list string) (stdin : string)
    : Run :=
  match listen_port_of argv with
  | None => mk_Run Uncaught banner None
  | Some listen_port =>
      match peer_of argv with
      | None =>
          mk_Run Uncaught
            (banner
             ++ (if (2 <=? List.length argv)%nat then []
                 else [Log INFO [Txt "No port specified, using default port ";
                                 Num listen_port]]))
            None
      | Some (peer_host, peer_port) =>
          let callbacks :=
            fst (setup_file_callbacks (ret_bool w 0 "is_file_transfer_available")) in
          if negb (ret_bool w 0 "start") then
            mk_Run (Exit 1)
              (before_start w argv listen_port
               ++ [Log ERROR [Txt "Failed to start RatsClient on port "; Num listen_port]])
              callbacks
          else
            let (e, tr) :=
              command_loop fuel w listen_port 1 (istringstream stdin) "" in
            match e with
            | StillLooping =>
                mk_Run Unfinished
                  (before_start w argv listen_port
                   ++ after_start w peer_host peer_port ++ tr)
                  callbacks
            | _ =>
                mk_Run (Exit 0)
                  (before_start w argv listen_port
                   ++ after_start w peer_host peer_port ++ tr ++ clean_shutdown)
                  callbacks
            end
      end
  end.

(** *** Reading a run *)

(** The event is produced by the command loop's own control: the test of
    [is_running()] or the read of a line. *)
Definition is_loop_event (e : Event) : bool :=
  match e with
  | Call api _ _ => String.eqb api "is_running" || String.eqb api "getline"
  | _ => false
  end.

Definition is_quit (b : Branch) : bool :=
  match b with BQuit => true | _ => false end.

Definition is_quit_line (input : string) : bool :=
  negb (empty input) && is_quit (dispatch (command_of input)).

(** The loop, entered at iteration [k] with [cin] and [input], has a reason
    to end [n] iterations later: the client is no longer running there, or
    the line read there is [quit] or [exit]. *)
Fixpoint ends_after (w : World) (k : nat) (cin : istream) (input : string)
    (n : nat) : bool :=
  match n with
  | O =>
      negb (ret_bool w k "is_running")
      || is_quit_line (snd (getline cin input))
  | S n' =>
      let (cin', input') := getline cin input in
      ends_after w (S k) cin' input' n'
  end.

End Cli.

(** ** Decimal notation

    Non-negative numbers as strings of decimal digits, and back. *)
Module Decimal.

Import Str.

Definition digit_char (d : N) : ascii := ascii_of_N (48 + d).

Definition is_digit (c : ascii) : bool :=
  let n := N_of_ascii c in (48 <=? n)%N && (n <=? 57)%N.

Definition digit_val (c : ascii) : N := (N_of_ascii c - 48)%N.

(** The digits of [n] put in front of [acc], least significant digit first
    computed; [fuel] bounds the number of digits. *)
Fixpoint to_digits (fuel : nat) (n : N) (acc : string) : string :=
  match fuel with
  | O => acc
  | S fuel' =>
      let acc' := String (digit_char (n mod 10)) acc in
      if (n <? 10)%N then acc' else to_digits fuel' (n / 10)%N acc'
  end.

(** A number of [b] bits has at most [b] decimal digits, and zero has
    one. *)
Definition print_N (n : N) : string :=
  to_digits (S (N.to_nat (N.size n))) n "".

Definition print_Z (z : Z) : string :=
  if (z <? 0)%Z then String "-" (print_N (Z.abs_N z)) else print_N (Z.abs_N z).

(** The longest prefix of digits, and what follows it. *)
Fixpoint span_digits (s : string) : string * string :=
  match s with
  | EmptyString => (EmptyString, EmptyString)
  | String c t =>
      if is_digit c then let (ds, r) := span_digits t in (String c ds, r)
      else (EmptyString, s)
  end.

(** The number a string of digits denotes, continuing from [acc]. *)
Fixpoint digits_value (ds : string) (acc : N) : N :=
  match ds with
  | EmptyString => acc
  | String c t => digits_value t (10 * acc + digit_val c)%N
  end.

Fixpoint all_digits (s : string) : bool :=
  match s with
  | EmptyString => true
  | String c t => is_digit c && all_digits t
  end.

Definition starts_with_digit (s : string) : bool :=
  match s with
  | EmptyString => false
  | String c _ => is_digit c
  end.

Definition starts_nonzero (s : string) : bool :=
  match s with
  | EmptyString => false
  | String c _ => negb (Ascii.eqb c "0")
  end.

(** No leading zero, except for the number zero itself. *)
Definition no_leading_zero (ds : string) : bool :=
  match ds with
  | EmptyString => false
  | String c t => negb (Ascii.eqb c "0") || empty t
  end.

End Decimal.

(** ** The bencode codec

    Modelled from the spec: [bencode.cpp], the codec of the wire format of
    the DHT (section 4.1 of the design document). *)
Module Bencode.

Import Str Decimal.

(** Modelled from the spec: the value type of [bencode.h], with its four
    kinds.  A dictionary is kept as the list of its entries. *)
Inductive value : Type :=
| BString (s : string)
| BInteger (z : Z)
| BList (items : list value)
| BDict (entries : list (string * value)).

(** *** Encoding *)

(** Modelled from the spec: the byte-string encoder of [bencode.cpp]. *)
Definition encode_string (s : string) : string :=
  print_N (N.of_nat (String.length s)) ++ String ":" s.

(** Modelled from the spec: the ordering of keys in the encoder of
    [bencode.cpp]; insertion of an entry into a list sorted by key. *)
Fixpoint insert_entry {A} (e : string * A) (l : list (string * A))
    : list (string * A) :=
  match l with
  | [] => [e]
  | e' :: t =>
      if String.leb (fst e) (fst e') then e :: l else e' :: insert_entry e t
  end.

(** Modelled from the spec: the ordering of keys in the encoder of
    [bencode.cpp]; the entries in ascending order of their keys, compared
    as byte strings. *)
Fixpoint sort_entries {A} (l : list (string * A)) : list (string * A) :=
  match l with
  | [] => []
  | e :: t => insert_entry e (sort_entries t)
  end.

Definition encode_entry (e : string * string) : string :=
  encode_string (fst e) ++ snd e.

Definition concat_strings (l : list string) : string :=
  fold_right String.append EmptyString l.

(** Modelled from the spec: the encoder of [bencode.cpp]; the entries of
    a dictionary are written in ascending order of their keys. *)
Fixpoint encode (v : value) : string :=
  match v with
  | BString s => encode_string s
  | BInteger z => String "i" (print_Z z ++ "e")
  | BList items =>
      String "l" (concat_strings (map encode items) ++ "e")
  | BDict entries =>
      let encoded :=
        (fix encode_values (l : list (string * value)) : list (string * string) :=
           match l with
           | [] => []
           | (k, x) :: t => (k, encode x) :: encode_values t
           end) entries in
      String "d" (concat_strings (map encode_entry (sort_entries encoded)) ++ "e")
  end.

(** *** Decoding *)

(** Modelled from the spec: the read of [<bytes>] in the decoder of
    [bencode.cpp]; the first [n] characters and the rest, [None] when there
    are fewer. *)
Fixpoint take_bytes (n : nat) (s : string) : option (string * string) :=
  match n with
  | O => Some (EmptyString, s)
  | S n' =>
      match s with
      | EmptyString => None
      | String c t =>
          match take_bytes n' t with
          | Some (a, r) => Some (String c a, r)
          | None => None
          end
      end
  end.

(** Modelled from the spec: the byte-string decoder of [bencode.cpp],
    [<len>:<bytes>]. *)
Definition decode_string (s : string) : option (string * string) :=
  match span_digits s with
  | (EmptyString, _) => None
  | (ds, String c t) =>
      if Ascii.eqb c ":" then take_bytes (N.to_nat (digits_value ds 0)) t
      else None
  | (_, EmptyString) => None
  end.

(** Modelled from the spec: the integer decoder of [bencode.cpp],
    [<decimal>e] after the leading [i]: no leading zeros except for [0], a
    minus sign only before a number that is not zero. *)
Definition decode_integer (s : string) : option (Z * string) :=
  let '(neg, s) :=
    match s with
    | String c t => if Ascii.eqb c "-" then (true, t) else (false, s)
    | EmptyString => (false, s)
    end in
  match span_digits s with
  | (ds, String c rest) =>
      if Ascii.eqb c "e" && no_leading_zero ds then
        let n := digits_value ds 0 in
        if neg then
          if (n =? 0)%N then None else Some ((- Z.of_N n)%Z, rest)
        else Some (Z.of_N n, rest)
      else None
  | (_, EmptyString) => None
  end.

(** Modelled from the spec: the check of the decoder of [bencode.cpp] on
    the order of keys; a key follows the previous one when it is strictly
    greater. *)
Definition key_follows (prev : option string) (k : string) : bool :=
  match prev with
  | None => true
  | Some p => String.ltb p k
  end.

(** Modelled from the spec: the list loop of the decoder of
    [bencode.cpp]; the items up to the closing [e], each read by [dec]; the
    loop runs at most [fuel] times. *)
Fixpoint decode_items (dec : string -> option (value * string)) (fuel : nat)
    (s : string) : option (list value * string) :=
  match s with
  | EmptyString => None
  | String c t =>
      if Ascii.eqb c "e" then Some ([], t)
      else
        match fuel with
        | O => None
        | S fuel' =>
            match dec s with
            | Some (x, s') =>
                match decode_items dec fuel' s' with
                | Some (xs, rest) => Some (x :: xs, rest)
                | None => None
                end
            | None => None
            end
        end
  end.

(** Modelled from the spec: the dictionary loop of the decoder of
    [bencode.cpp]; the entries up to the closing [e]: a key, which must be a
    byte string and follow the previous key, then a value read by [dec]. *)
Fixpoint decode_entries (dec : string -> option (value * string)) (fuel : nat)
    (prev : option string) (s : string)
    : option (list (string * value) * string) :=
  match s with
  | EmptyString => None
  | String c t =>
      if Ascii.eqb c "e" then Some ([], t)
      else
        match fuel with
        | O => None
        | S fuel' =>
            match decode_string s with
            | Some (k, s1) =>
                if key_follows prev k then
                  match dec s1 with
                  | Some (x, s2) =>
                      match decode_entries dec fuel' (Some k) s2 with
                      | Some (es, rest) => Some ((k, x) :: es, rest)
                      | None => None
                      end
                  | None => None
                  end
                else None
            | None => None
            end
        end
  end.

(** Modelled from the spec: the decoder of [bencode.cpp].  It reads one
    value at the front of [s] and returns it with the remainder of [s].
    [depth] is the number of levels of recursion still allowed; the loops
    over items and entries are given the length of the input as their
    budget. *)
Fixpoint decode_value (depth : nat) (s : string) : option (value * string) :=
  match depth with
  | O => None
  | S depth' =>
      match s with
      | EmptyString => None
      | String c t =>
          if Ascii.eqb c "i" then
            match decode_integer t with
            | Some (z, rest) => Some (BInteger z, rest)
            | None => None
            end
          else if Ascii.eqb c "l" then
            match decode_items (decode_value depth') (String.length t) t with
            | Some (xs, rest) => Some (BList xs, rest)
            | None => None
            end
          else if Ascii.eqb c "d" then
            match decode_entries (decode_value depth') (String.length t) None t with
            | Some (es, rest) => Some (BDict es, rest)
            | None => None
            end
          else
            match decode_string s with
            | Some (b, rest) => Some (BString b, rest)
            | None => None
            end
      end
  end.

(** Modelled from the spec: the recursion limit of the decoder of
    [bencode.cpp]. *)
Definition max_depth : nat := 256.

(** Modelled from the spec: the streaming entry point of [bencode.cpp]:
    the first value and the unconsumed remainder. *)
Definition decode_prefix (s : string) : option (value * string) :=
  decode_value max_depth s.

(** Modelled from the spec: the top-level entry point of [bencode.cpp]:
    the whole input must be one value. *)
Definition decode (s : string) : option value :=
  match decode_prefix s with
  | Some (x, EmptyString) => Some x
  | _ => None
  end.

(** *** Valid and canonical values *)

(** The number of levels of a value: [1] for a string or an integer. *)
Fixpoint nesting (v : value) : nat :=
  match v with
  | BString _ | BInteger _ => 1
  | BList items => S (fold_right (fun x m => Nat.max (nesting x) m) 0 items)%nat
  | BDict entries =>
      S ((fix deepest (l : list (string * value)) : nat :=
            match l with
            | [] => 0
            | (_, x) :: t => Nat.max (nesting x) (deepest t)
            end) entries)%nat
  end.

Fixpoint mem_string (k : string) (l : list string) : bool :=
  match l with
  | [] => false
  | k' :: t => String.eqb k k' || mem_string k t
  end.

Fixpoint distinct (l : list string) : bool :=
  match l with
  | [] => true
  | k :: t => negb (mem_string k t) && distinct t
  end.

Fixpoint ascending (prev : option string) (l : list string) : bool :=
  match l with
  | [] => true
  | k :: t => key_follows prev k && ascending (Some k) t
  end.

(** Each key is at least the one before it. *)
Fixpoint nondecreasing (prev : option string) (l : list string) : bool :=
  match l with
  | [] => true
  | k :: t =>
      match prev with
      | None => true
      | Some p => String.leb p k
      end && nondecreasing (Some k) t
  end.

(** [f] applied to the value of every entry. *)
Definition map_values {A B} (f : A -> B) (l : list (string * A))
    : list (string * B) :=
  map (fun e => (fst e, f (snd e))) l.

(** Every dictionary of [v] has pairwise distinct keys: the list of
    entries is a finite map. *)
Fixpoint distinct_keys (v : value) : bool :=
  match v with
  | BString _ | BInteger _ => true
  | BList items => forallb distinct_keys items
  | BDict entries =>
      distinct (map fst entries)
      && (fix all (l : list (string * value)) : bool :=
            match l with
            | [] => true
            | (_, x) :: t => distinct_keys x && all t
            end) entries
  end.

(** Every dictionary of [v] lists its entries in strictly ascending order
    of their keys. *)
Fixpoint ascending_keys (v : value) : bool :=
  match v with
  | BString _ | BInteger _ => true
  | BList items => forallb ascending_keys items
  | BDict entries =>
      ascending None (map fst entries)
      && (fix all (l : list (string * value)) : bool :=
            match l with
            | [] => true
            | (_, x) :: t => ascending_keys x && all t
            end) entries
  end.

(** A valid value: dictionaries are finite maps, and the nesting is within
    the limit of the decoder. *)
Definition valid (v : value) : bool :=
  distinct_keys v && (nesting v <=? max_depth)%nat.

(** The same value with the entries of every dictionary in ascending order
    of their keys. *)
Fixpoint canonical (v : value) : value :=
  match v with
  | BString _ | BInteger _ => v
  | BList items => BList (map canonical items)
  | BDict entries =>
      BDict (sort_entries
               ((fix canonical_values (l : list (string * value)) :=
                   match l with
                   | [] => []
                   | (k, x) :: t => (k, canonical x) :: canonical_values t
                   end) entries))
  end.

(** Two values are the same data when they agree up to the order in which
    dictionaries list their entries. *)
Definition same_data (x y : value) : Prop := canonical x = canonical y.

End Bencode.

(** ** Node identifiers and the XOR metric

    Modelled from the spec: the identifiers of [dht.cpp] and their distance
    (section 3 of the design document). *)
Module Dht.

Definition ID_BITS : Z := 160.

(** Modelled from the spec: the NodeId of [dht.h], a 160-bit identifier,
    here the unsigned integer its bits denote. *)
Definition is_node_id (a : Z) : bool := (0 <=? a)%Z && (a <? 2 ^ ID_BITS)%Z.

(** Modelled from the spec: the XOR distance of [dht.cpp] between two
    ids, a 160-bit unsigned integer. *)
Definition distance (a b : Z) : Z := Z.lxor a b.

(** [x <= y] bit by bit: every bit set in [x] is set in [y]. *)
Definition bitwise_le (x y : Z) : Prop :=
  forall i : Z, Z.testbit x i = true -> Z.testbit y i = true.

End Dht.

(** ** The automatic discovery loop

    Modelled from the spec: the loop of [librats.cpp] that announces and
    searches on the discovery hash (section 4.7).  Time is counted in
    seconds; the loop is stepped once per second. *)
Module Discovery.

(** Modelled from the spec: an endpoint as the DHT of [dht.cpp] returns
    it. *)
Record Endpoint : Type := mk_Endpoint {
  ip : string;
  port : Z
}.

Definition endpoint_eqb (a b : Endpoint) : bool :=
  String.eqb (ip a) (ip b) && Z.eqb (port a) (port b).

(** Modelled from the spec: the periods of the loop of [librats.cpp], in
    seconds: announce every 10 minutes, search every 5 minutes, blacklist
    entries kept 10 minutes. *)
Definition ANNOUNCE_INTERVAL : Z := 600.
Definition SEARCH_INTERVAL : Z := 300.
Definition BLACKLIST_TTL : Z := 600.

(** Modelled from the spec: what the loop of [librats.cpp] asks of the
    DHT and of the mesh engine. *)
Inductive Action : Type :=
| AnnouncePeer (listen_port : Z)
| GetPeers
| EnqueueConnect (e : Endpoint).

(** Modelled from the spec: what the loop of [librats.cpp] observes at a
    given time: the endpoints a search returns, the live peers, and the
    outbound attempts that have just failed. *)
Record Env : Type := mk_Env {
  found : Z -> list Endpoint;
  live : Z -> list Endpoint;
  failed : Z -> list Endpoint
}.

(** Modelled from the spec: the state of the loop of [librats.cpp]: when
    the next announce and the next search are due, and the blacklist with
    the time each entry expires. *)
Record State : Type := mk_State {
  next_announce : Z;
  next_search : Z;
  blacklist : list (Endpoint * Z)
}.

(** Modelled from the spec: the state [librats.cpp] starts the loop with at
    time [t0] (first announce and first search at once). *)
Definition start (t0 : Z) : State := mk_State t0 t0 [].

(** Modelled from the spec: the test of [librats.cpp] for an endpoint
    that is already a live peer. *)
Definition is_live (env : Env) (now : Z) (e : Endpoint) : bool :=
  existsb (endpoint_eqb e) (live env now).

(** Modelled from the spec: the test of [librats.cpp] for an endpoint on
    the connect-blacklist: it has an entry that has not expired. *)
Definition blacklisted (bl : list (Endpoint * Z)) (now : Z) (e : Endpoint) : bool :=
  existsb (fun entry => endpoint_eqb e (fst entry) && (now <? snd entry)%Z) bl.

(** Modelled from the spec: which of the endpoints a search of
    [librats.cpp] returned get an outbound connect. *)
Definition candidates (env : Env) (bl : list (Endpoint * Z)) (now : Z)
    : list Endpoint :=
  filter (fun e => negb (is_live env now e) && negb (blacklisted bl now e))
         (found env now).

(** Modelled from the spec: one pass of the loop of [librats.cpp] at time
    [now]: record the failed attempts, announce when due, search when due. *)
Definition step (env : Env) (listen_port : Z) (now : Z) (st : State)
    : State * list Action :=
  let bl := map (fun e => (e, now + BLACKLIST_TTL)%Z) (failed env now)
            ++ blacklist st in
  let announce_due := (next_announce st <=? now)%Z in
  let search_due := (next_search st <=? now)%Z in
  (mk_State
     (if announce_due then now + ANNOUNCE_INTERVAL else next_announce st)%Z
     (if search_due then now + SEARCH_INTERVAL else next_search st)%Z
     bl,
   (if announce_due then [AnnouncePeer listen_port] else [])
   ++ (if search_due then GetPeers :: map EnqueueConnect (candidates env bl now)
       else [])).

(** Modelled from the spec: the loop of [librats.cpp] running for [n]
    seconds from time [now]: the actions of every second, in order. *)
Fixpoint run (env : Env) (listen_port : Z) (n : nat) (now : Z) (st : State)
    : list (Z * list Action) :=
  match n with
  | O => []
  | S n' =>
      let (st', acts) := step env listen_port now st in
      (now, acts) :: run env listen_port n' (now + 1)%Z st'
  end.

(** Modelled from the spec: the connect-blacklist of [librats.cpp] after
    [n] seconds of the loop started at [t0]: every failed attempt of those
    seconds, with the time its entry expires. *)
Fixpoint history (env : Env) (t0 : Z) (n : nat) : list (Endpoint * Z) :=
  match n with
  | O => []
  | S n' =>
      map (fun e => (e, t0 + Z.of_nat n' + BLACKLIST_TTL)%Z)
          (failed env (t0 + Z.of_nat n')%Z)
      ++ history env t0 n'
  end.

Definition is_announce (a : Action) : bool :=
  match a with AnnouncePeer _ => true | _ => false end.

Definition is_search (a : Action) : bool :=
  match a with GetPeers => true | _ => false end.

Definition enqueued (acts : list Action) : list Endpoint :=
  flat_map (fun a => match a with EnqueueConnect e => [e] | _ => [] end) acts.

End Discovery.

(** ** Reading traces and interface lists

    What the properties below observe of a trace of events and of the
    list [getifaddrs] returns. *)
Module Observations.

Import Str IOStream Cli.

(** The library functions a trace calls, in order. *)
Definition calls (tr : list Event) : list string :=
  flat_map (fun e => match e with Call api _ _ => [api] | _ => [] end) tr.

(** The sockets a trace hands to [close_socket], in order. *)
Definition closed_sockets (tr : list Event) : list Z :=
  flat_map (fun e =>
              match e with
              | Call api [AInt socket] _ =>
                  if String.eqb api "close_socket" then [socket] else []
              | _ => []
              end) tr.

(** The lines of text a trace prints as [std::cout << text << std::endl]. *)
Definition printed_lines (tr : list Event) : list string :=
  flat_map (fun e => match e with Cout [Txt t; Endl] => [t] | _ => [] end) tr.

(** The usage line of the arms that read at least one word after the
    command. *)
Definition usage_of (b : Branch) : option string :=
  match b with
  | BBroadcast => Some "Usage: broadcast <message>"
  | BSend => Some "Usage: send <hash_id> <message>"
  | BConnect => Some "Usage: connect <host> <port>"
  | BConnect6 => Some "Usage: connect6 <host> <port>"
  | BConnectDual => Some "Usage: connect_dual <host> <port>"
  | BDhtFind => Some "Usage: dht_find <content_hash>"
  | BDhtAnnounce => Some "Usage: dht_announce <content_hash> [port]"
  | BTestIpv6 => Some "Usage: test_ipv6 <host> <port>"
  | BDhtTest => Some "Usage: dht_test <ip> <port>"
  | BFileSend => Some "Usage: file_send <peer_hash> <file_path> [remote_name]"
  | BDirSend => Some "Usage: dir_send <peer_hash> <dir_path> [remote_name] [recursive]"
  | BFileRequest => Some "Usage: file_request <peer_hash> <remote_path> <local_path>"
  | BDirRequest =>
      Some "Usage: dir_request <peer_hash> <remote_path> <local_path> [recursive]"
  | BTransferStatus => Some "Usage: transfer_status <transfer_id>"
  | BTransferPause => Some "Usage: transfer_pause <transfer_id>"
  | BTransferResume => Some "Usage: transfer_resume <transfer_id>"
  | BTransferCancel => Some "Usage: transfer_cancel <transfer_id>"
  | _ => None
  end.

(** The text of a standard input: the lines of [ls], each ended by a
    newline, then [last] without one. *)
Fixpoint join_lines (ls : list string) (last : string) : string :=
  match ls with
  | [] => last
  | l :: t => l ++ String "010" (join_lines t last)
  end.

(** What one iteration of the loop does with a non-empty line: it reads the
    command word and runs the arm the chain selects. *)
Definition run_line (w : World) (k : nat) (listen_port : Z) (input : string)
    : list Event :=
  let (iss, command) := extract_string (istringstream input) "" in
  run_arm w k listen_port (dispatch command) command iss.

(** The command words the help text lists: the first word of each of its
    lines that is indented by two blanks. *)
Definition help_commands : list string :=
  flat_map (fun t =>
              match t with
              | String " " (String " " rest) => [fst (span_word rest)]
              | _ => []
              end) (printed_lines print_help).

(** The library functions that start, pause, resume, cancel or inspect a
    transfer. *)
Definition transfer_apis : list string :=
  ["send_file"; "send_directory"; "request_file"; "request_directory";
   "get_active_file_transfers"; "get_file_transfer_progress";
   "pause_file_transfer"; "resume_file_transfer"; "cancel_file_transfer";
   "get_file_transfer_statistics"].


(** The arms that work on file transfers. *)
Definition is_transfer_arm (b : Branch) : bool :=
  match b with
  | BFileSend | BDirSend | BFileRequest | BDirRequest | BTransferList
  | BTransferStatus | BTransferPause | BTransferResume | BTransferCancel
  | BTransferStats => true
  | _ => false
  end.

(** The addresses of the entries of an interface list that have an address
    of the family [af]. *)
Definition interface_addresses (af : NetworkUtils.family)
    (l : list NetworkUtils.ifaddrs) : list NetworkUtils.sockaddr :=
  flat_map (fun ifa =>
              match NetworkUtils.ifa_addr ifa with
              | Some (fam, addr) =>
                  if NetworkUtils.family_eqb fam af then [addr] else []
              | None => []
              end) l.

End Observations.

(** ** Concrete platforms, worlds and values

    Used to evaluate the definitions above on explicit inputs. *)
Module Samples.

Import Str NetworkUtils.

(** The text form [inet_pton(AF_INET, ...)] accepts: four decimal numbers
    up to 255, without leading zeros, separated by dots. *)
Fixpoint dotted_quad_from (s : string) (octets : nat) (cur : option N) : bool :=
  match s with
  | EmptyString =>
      match cur with
      | Some _ => Nat.eqb octets 4
      | None => false
      end
  | String c t =>
      if Decimal.is_digit c then
        match cur with
        | None => (octets <? 4)%nat
                  && dotted_quad_from t (S octets) (Some (Decimal.digit_val c))
        | Some v =>
            let v' := (10 * v + Decimal.digit_val c)%N in
            negb (v =? 0)%N && (v' <=? 255)%N && dotted_quad_from t octets (Some v')
        end
      else if Ascii.eqb c "." then
        match cur with
        | Some _ => (octets <? 4)%nat && dotted_quad_from t octets None
        | None => false
        end
      else false
  end.

Definition dotted_quad (s : string) : bool := dotted_quad_from s 0 None.

Definition addr_192_0_2_7 : sockaddr := [192; 0; 2; 7]%N.
Definition addr_2001_db8__1 : sockaddr :=
  [32; 1; 13; 184; 0; 0; 0; 0; 0; 0; 0; 0; 0; 0; 0; 1]%N.

Fixpoint join_dotted (bytes : list N) : string :=
  match bytes with
  | [] => ""
  | [b] => Decimal.print_N b
  | b :: t => Decimal.print_N b ++ "." ++ join_dotted t
  end.

(** A host on which the resolver lists the IPv4 address of
    [dual.example] before its IPv6 address, with one Ethernet interface. *)
Definition sample_os : Platform :=
  mk_Platform
    (fun af s =>
       match af with
       | AF_INET => if dotted_quad s then 1 else 0
       | AF_INET6 =>
           if String.eqb s "::1" || String.eqb s "2001:db8::1" then 1 else 0
       | _ => (-1)
       end)%Z
    (fun af addr =>
       match af with
       | AF_INET => join_dotted addr
       | _ => if list_eq_dec N.eq_dec addr addr_2001_db8__1
              then "2001:db8::1" else "::"
       end)
    (fun name af =>
       if String.eqb name "dual.example" then
         match af with
         | AF_INET => gai_ok (mk_addrinfo AF_INET addr_192_0_2_7) []
         | AF_INET6 => gai_ok (mk_addrinfo AF_INET6 addr_2001_db8__1) []
         | _ => gai_ok (mk_addrinfo AF_INET addr_192_0_2_7)
                       [mk_addrinfo AF_INET6 addr_2001_db8__1]
         end
       else gai_error (-2))
    (Some [mk_ifaddrs "lo" None;
           mk_ifaddrs "eth0" (Some (AF_INET, [10; 0; 0; 5]%N));
           mk_ifaddrs "eth0" (Some (AF_INET6, addr_2001_db8__1))]).

(** A host without any network interface. *)
Definition bare_os : Platform :=
  mk_Platform (fun _ _ => 0%Z) (fun _ _ => "") (fun _ _ => gai_error (-2)) None.

Import Cli.

(** A world in which [start()] answers [start_ok], [is_running()] is true
    for the first [alive] tests of the loop condition, and every other call
    succeeds. *)
Definition sample_world (start_ok : bool) (alive : nat) : World :=
  mk_World
    (fun k api =>
       if String.eqb api "start" then start_ok
       else if String.eqb api "is_running" then (k <=? alive)%nat
       else true)
    (fun _ api => if String.eqb api "get_peer_count" then 0%Z else 7%Z)
    (fun _ api =>
       if String.eqb api "send_file" then "transfer-1"
       else "0123456789abcdef0123456789abcdef01234567")
    (fun _ => [])
    (fun _ => [])
    (fun _ => None)
    sample_os
    (fun socket => negb (Z.eqb socket (-1)))
    (-1)%Z
    0%Z.

(** A world in which the client never stops by itself and every call
    succeeds. *)
Definition busy_world : World :=
  mk_World (fun _ _ => true) (fun _ _ => 3%Z) (fun _ _ => "transfer-1")
    (fun _ => [(4%Z, "0123456789abcdef0123456789abcdef01234567")])
    (fun _ => []) (fun _ => None) sample_os
    (fun socket => negb (Z.eqb socket (-1))) (-1)%Z 0%Z.

(** A world in which the memory of an [int] that was never written holds a
    positive value. *)
Definition stale_world : World :=
  mk_World (fun _ _ => true) (fun _ _ => 3%Z) (fun _ _ => "transfer-1")
    (fun _ => []) (fun _ => []) (fun _ => None) sample_os
    (fun socket => negb (Z.eqb socket (-1))) (-1)%Z 4242%Z.

(** A world in which the client answers no to every question. *)
Definition idle_world : World :=
  mk_World (fun _ _ => false) (fun _ _ => (-1)%Z) (fun _ _ => "")
    (fun _ => []) (fun _ => []) (fun _ => None) bare_os
    (fun socket => negb (Z.eqb socket (-1))) (-1)%Z 0%Z.

Import Bencode.

Definition sample_dict : value :=
  BDict [("t", BString "aa");
         ("a", BDict [("id", BString "abcdefghij0123456789"); ("port", BInteger 6881)]);
         ("q", BString "announce_peer");
         ("y", BList [BInteger 0; BInteger (-42); BString ""])].

End Samples.

(** * Properties *)

(** ** Facts about the string helpers *)
Module StrFacts.

Import Str.

Lemma empty_true (s : string) : empty s = true <-> s = "".
Proof. destruct s; simpl; split; congruence. Qed.

Lemma back_append_char (t : string) (c : ascii) : back (t ++ String c "") = c.
Proof.
  induction t as [|a t IH]; simpl; [reflexivity|].
  rewrite IH. destruct (t ++ String c "")%string eqn:E; [|reflexivity].
  destruct t; discriminate.
Qed.

Lemma prefix_append (p b : string) : prefix p (p ++ b) = true.
Proof.
  induction p as [|c p IH]; simpl; [destruct b; reflexivity|].
  destruct (ascii_dec c c); [exact IH|congruence].
Qed.

Lemma find_unfold (pat s : string) :
  find pat s =
  if prefix pat s then Some 0%nat
  else match s with
       | EmptyString => None
       | String _ t => option_map S (find pat t)
       end.
Proof. destruct s; reflexivity. Qed.

Lemma find_occurrence (pat a b : string) : find pat (a ++ pat ++ b) <> None.
Proof.
  induction a as [|c a IH]; cbn [append].
  - rewrite find_unfold, prefix_append. discriminate.
  - rewrite find_unfold.
    destruct (prefix pat _); [discriminate|].
    destruct (find pat _) as [n|]; [discriminate|exact IH].
Qed.

Lemma push_back_fold {A B} (f : A -> B) (l : list A) (acc : list B) :
  fold_left (fun v x => push_back v (f x)) l acc = acc ++ map f l.
Proof.
  revert acc; induction l as [|x l IH]; intros acc; simpl.
  - now rewrite app_nil_r.
  - rewrite IH. unfold push_back. now rewrite <- app_assoc.
Qed.

End StrFacts.

(** ** Streams *)
Module IOStreamFacts.

Import Str IOStream.

Example stoi_values :
  stoi "8080" = Some 8080%Z
  /\ stoi "  -17 peers" = Some (-17)%Z
  /\ stoi "+2147483647" = Some 2147483647%Z
  /\ stoi "2147483648" = None
  /\ stoi "port" = None
  /\ stoi "" = None.
Proof. repeat split; reflexivity. Qed.

(** A line, then the end of the stream: the second read fails and leaves
    the variable as it was. *)
Example getline_at_end :
  let (cin, input) := getline (istringstream "peers") "" in
  input = "peers" /\ eofbit cin = true /\ failbit cin = false
  /\ getline cin input = (mk_istream "" true true, "peers").
Proof. repeat split; reflexivity. Qed.

Example extraction_values :
  extract_string (istringstream "  send  abc") "" = (mk_istream "  abc" false false, "send")
  /\ extract_int (mk_istream " 8080" false false) 0 = (mk_istream "" true false, 8080%Z)
  /\ extract_int (mk_istream " x" false false) 7 = (mk_istream "x" false true, 0%Z)
  /\ extract_int (mk_istream "" true false) 7 = (mk_istream "" true true, 7%Z).
Proof. repeat split; reflexivity. Qed.

End IOStreamFacts.

(** ** [network_utils.cpp] *)
Module NetworkUtilsFacts.

Import Str StrFacts NetworkUtils.

Section Resolution.

Variable os : Platform.

Lemma resolve_hostname_literal (s : string) :
  is_valid_ipv4 os s = true -> resolve_hostname os s = s.
Proof.
  intros V. unfold resolve_hostname.
  destruct s as [|c s]; [reflexivity|].
  simpl. now rewrite V.
Qed.

Lemma resolve_all_addresses_literal (s : string) :
  is_valid_ipv4 os s = true -> resolve_all_addresses os s = [s].
Proof. intros V. unfold resolve_all_addresses. now rewrite V. Qed.

(** C8.  An IPv4 literal goes through resolution unchanged:
    [resolve_hostname] returns it and [resolve_all_addresses] returns the
    list holding just it; [resolve_hostname] maps the empty string to the
    empty string; [to_ip_address] is [resolve_hostname]. *)
Theorem ipv4_literal_passthrough :
  (forall s, is_valid_ipv4 os s = true ->
             resolve_hostname os s = s /\ resolve_all_addresses os s = [s])
  /\ resolve_hostname os "" = ""
  /\ (forall h, to_ip_address os h = resolve_hostname os h).
Proof.
  split; [|split].
  - intros s V. split.
    + now apply resolve_hostname_literal.
    + now apply resolve_all_addresses_literal.
  - reflexivity.
  - reflexivity.
Qed.

(** *** [is_hostname] *)

Lemma is_hostname_not_ip (s : string) :
  is_valid_ipv4 os s = true \/ is_valid_ipv6 os s = true ->
  is_hostname os s = false.
Proof.
  intros H. unfold is_hostname.
  destruct H as [H|H]; rewrite H; [reflexivity|].
  now rewrite orb_true_r.
Qed.

(** Where [is_hostname] answers true, none of the early exits was taken. *)
Lemma is_hostname_true (s : string) :
  is_hostname os s = true ->
  is_valid_ipv4 os s = false /\ is_valid_ipv6 os s = false
  /\ empty s = false /\ (String.length s <= 253)%nat
  /\ front s <> "."%char /\ back s <> "."%char
  /\ front s <> "-"%char /\ back s <> "-"%char
  /\ find ".." s = None
  /\ hostname_chars_ok s = true.
Proof.
  unfold is_hostname.
  destruct (is_valid_ipv4 os s); [discriminate|].
  destruct (is_valid_ipv6 os s); [discriminate|]. simpl.
  destruct (empty s); [discriminate|]. simpl.
  destruct (253 <? String.length s)%nat eqn:L; [discriminate|].
  apply Nat.ltb_ge in L.
  destruct (Ascii.eqb (front s) ".") eqn:F1; [discriminate|].
  destruct (Ascii.eqb (back s) ".") eqn:B1; [discriminate|].
  destruct (Ascii.eqb (front s) "-") eqn:F2; [discriminate|].
  destruct (Ascii.eqb (back s) "-") eqn:B2; [discriminate|]. simpl.
  destruct (find ".." s); [discriminate|].
  destruct (String.eqb s "."); [discriminate|].
  intros C. apply Ascii.eqb_neq in F1, B1, F2, B2.
  repeat split; assumption.
Qed.

Lemma not_true_false (b : bool) : (b = true -> False) -> b = false.
Proof. destruct b; intuition congruence. Qed.

(** C9.  [is_hostname] answers false for every IPv4 or IPv6 literal, for
    the empty string, for a string of more than 253 characters, for a
    string that begins or ends with a dot or a hyphen, and for a string
    that contains two dots in a row. *)
Theorem is_hostname_rejects (s : string) :
  (is_valid_ipv4 os s = true \/ is_valid_ipv6 os s = true ->
   is_hostname os s = false)
  /\ is_hostname os "" = false
  /\ ((253 < String.length s)%nat -> is_hostname os s = false)
  /\ (forall t : string,
        (s = "." ++ t \/ s = t ++ "." \/ s = "-" ++ t \/ s = t ++ "-")%string ->
        is_hostname os s = false)
  /\ (forall a b : string, s = (a ++ ".." ++ b)%string -> is_hostname os s = false).
Proof.
  split; [exact (is_hostname_not_ip s)|].
  split.
  { unfold is_hostname.
    destruct (is_valid_ipv4 os "" || is_valid_ipv6 os ""); reflexivity. }
  split.
  { intros L. apply not_true_false. intros T.
    apply is_hostname_true in T. lia. }
  split.
  { intros t H. apply not_true_false. intros T.
    apply is_hostname_true in T.
    destruct T as (_ & _ & _ & _ & F1 & B1 & F2 & B2 & _).
    destruct H as [H|[H|[H|H]]]; subst s.
    - now apply F1.
    - apply B1. apply back_append_char.
    - now apply F2.
    - apply B2. apply back_append_char. }
  intros a b H. apply not_true_false. intros T.
  apply is_hostname_true in T.
  destruct T as (_ & _ & _ & _ & _ & _ & _ & _ & F & _).
  subst s. now apply (find_occurrence ".." a b).
Qed.

(** *** Local interface addresses *)

Lemma is_local_interface_address_spec (ip_address : string) :
  is_local_interface_address os ip_address =
  in_local_addresses (get_local_interface_addresses os) ip_address
  || (String.eqb ip_address "127.0.0.1" || String.eqb ip_address "::1"
      || String.eqb ip_address "localhost").
Proof.
  unfold is_local_interface_address.
  destruct (in_local_addresses _ _); [reflexivity|]. simpl.
  destruct (_ || _); reflexivity.
Qed.

(** C10.  ["127.0.0.1"], ["::1"] and ["localhost"] are local whatever the
    interfaces of the host are; in general an address is local when it is
    in the list of interface addresses or is one of those three names. *)
Theorem localhost_is_local :
  is_local_interface_address os "127.0.0.1" = true
  /\ is_local_interface_address os "::1" = true
  /\ is_local_interface_address os "localhost" = true
  /\ (forall ip_address,
        is_local_interface_address os ip_address =
        in_local_addresses (get_local_interface_addresses os) ip_address
        || (String.eqb ip_address "127.0.0.1" || String.eqb ip_address "::1"
            || String.eqb ip_address "localhost")).
Proof.
  repeat split; try (rewrite is_local_interface_address_spec; apply orb_true_r).
  apply is_local_interface_address_spec.
Qed.

(** *** Resolution through [getaddrinfo] *)

(** A name that is no IPv4 literal resolves to all the addresses of the
    [AF_INET] query, in the order of the system. *)
Lemma resolve_all_addresses_lookup (hostname : string) :
  is_valid_ipv4 os hostname = false ->
  resolve_all_addresses os hostname
  = map (fun rp => inet_ntop os AF_INET (ai_addr rp))
        (gai_list (getaddrinfo os (c_str hostname) AF_INET)).
Proof.
  intros V. unfold resolve_all_addresses, collect_addresses. rewrite V.
  destruct (getaddrinfo os (c_str hostname) AF_INET) as [st|first rest];
    [reflexivity|].
  now rewrite push_back_fold.
Qed.

Lemma dual_step_fold (l : list addrinfo) (acc : list string) :
  fold_left (dual_step os) l acc
  = acc ++ map (address_text os) (filter (fun rp => is_inet (ai_family rp)) l).
Proof.
  revert acc; induction l as [|rp l IH]; intros acc; simpl.
  - now rewrite app_nil_r.
  - rewrite IH. unfold dual_step, push_back.
    destruct rp as [fam addr]; unfold address_text at 2; simpl.
    destruct fam; simpl; rewrite <- ?app_assoc; reflexivity.
Qed.

(** [resolve_all_addresses_dual] keeps the order of [getaddrinfo]: a
    literal is returned alone, and otherwise the result lists the IPv4 and
    IPv6 entries of the one [AF_UNSPEC] query as the system gave them. *)
Lemma resolve_all_addresses_dual_order (hostname : string) :
  resolve_all_addresses_dual os hostname =
  if is_valid_ipv4 os hostname || is_valid_ipv6 os hostname then [hostname]
  else map (address_text os)
           (filter (fun rp => is_inet (ai_family rp))
                   (gai_list (getaddrinfo os (c_str hostname) AF_UNSPEC))).
Proof.
  unfold resolve_all_addresses_dual.
  destruct (is_valid_ipv4 os hostname); [reflexivity|].
  destruct (is_valid_ipv6 os hostname); [reflexivity|]. simpl orb. cbv iota.
  destruct (getaddrinfo os (c_str hostname) AF_UNSPEC) as [st|first rest];
    [reflexivity|].
  now rewrite dual_step_fold.
Qed.

End Resolution.

(** The statements above at a concrete host. *)
Lemma ipv4_literal_passthrough_witness :
  resolve_hostname Samples.sample_os "192.0.2.7" = "192.0.2.7"
  /\ resolve_all_addresses Samples.sample_os "192.0.2.7" = ["192.0.2.7"].
Proof.
  apply (proj1 (ipv4_literal_passthrough Samples.sample_os)).
  reflexivity.
Defined.

Lemma is_hostname_rejects_witness :
  is_hostname Samples.sample_os "192.0.2.7" = false
  /\ is_hostname Samples.sample_os "example.com." = false
  /\ is_hostname Samples.sample_os "a..b" = false.
Proof.
  split; [|split].
  - apply (proj1 (is_hostname_rejects Samples.sample_os "192.0.2.7")).
    left. reflexivity.
  - apply (proj1 (proj2 (proj2 (proj2
             (is_hostname_rejects Samples.sample_os "example.com."))))
             "example.com").
    right; left. reflexivity.
  - apply (proj2 (proj2 (proj2 (proj2
             (is_hostname_rejects Samples.sample_os "a..b")))) "a" "b").
    reflexivity.
Defined.

Example is_hostname_accepts :
  is_hostname Samples.sample_os "example.com" = true
  /\ is_hostname Samples.sample_os "my-host.local" = true.
Proof. split; reflexivity. Qed.

Example local_addresses_of_sample :
  get_local_interface_addresses Samples.sample_os = ["10.0.0.5"; "2001:db8::1"]
  /\ is_local_interface_address Samples.sample_os "10.0.0.5" = true
  /\ is_local_interface_address Samples.sample_os "10.0.0.6" = false
  /\ get_local_interface_addresses Samples.bare_os = []
  /\ is_local_interface_address Samples.bare_os "::1" = true.
Proof. repeat split; reflexivity. Qed.

(** On [Samples.sample_os] the name [dual.example] has an IPv4 and an
    IPv6 address, and the dual-stack resolution lists the IPv4 address
    first. *)
Lemma dual_stack_lists_ipv4_first :
  resolve_all_addresses Samples.sample_os "dual.example" = ["192.0.2.7"]
  /\ resolve_all_addresses_v6 Samples.sample_os "dual.example" = ["2001:db8::1"]
  /\ resolve_all_addresses_dual Samples.sample_os "dual.example"
     = ["192.0.2.7"; "2001:db8::1"]
  /\ is_valid_ipv4 Samples.sample_os "192.0.2.7" = true
  /\ is_valid_ipv6 Samples.sample_os "2001:db8::1" = true.
Proof. repeat split; reflexivity. Qed.

End NetworkUtilsFacts.

(** ** [main.cpp] *)
Module CliFacts.

Import Str IOStream Cli.

(** *** The dispatch chain *)

Ltac test_command H :=
  repeat match goal with
  | |- context [String.eqb ?c ?word] =>
      destruct (String.eqb_spec c word) as [->|?];
        [exfalso; apply H; simpl; tauto|]
  end.

Lemma dispatch_unknown (command : string) :
  ~ In command command_words -> dispatch command = BUnknown.
Proof.
  intros H. unfold dispatch. test_command H. reflexivity.
Qed.

Lemma dispatch_known (command : string) :
  In command command_words -> dispatch command <> BUnknown.
Proof.
  unfold command_words. simpl.
  intros H.
  repeat (destruct H as [<-|H]; [discriminate|]).
  contradiction.
Qed.

Lemma dispatch_quit (command : string) :
  dispatch command = BQuit <-> command = "quit" \/ command = "exit".
Proof.
  split.
  - unfold dispatch.
    destruct (String.eqb_spec command "quit") as [->|?]; [now left|].
    destruct (String.eqb_spec command "exit") as [->|?]; [now right|].
    simpl.
    repeat match goal with
    | |- context [String.eqb command ?word] =>
        destruct (String.eqb command word); [discriminate|]
    end.
    discriminate.
  - intros [->| ->]; reflexivity.
Qed.

(** *** One iteration of the loop *)

(** The loop unfolded once: the test of the condition, the read, and then
    the empty line, the [break], or the arm of the command. *)
Lemma command_loop_S (fuel : nat) (w : World) (listen_port : Z) (k : nat)
    (cin : istream) (input : string) :
  command_loop (S fuel) w listen_port k cin input =
  let head := Call "is_running" [] (ABool (ret_bool w k "is_running")) in
  let cin' := fst (getline cin input) in
  let input' := snd (getline cin input) in
  let read := Call "getline" [] (AStr input') in
  let next := command_loop fuel w listen_port (S k) cin' input' in
  let command := command_of input' in
  let iss := fst (extract_string (istringstream input') "") in
  if negb (ret_bool w k "is_running") then (Stopped, [head])
  else if empty input' then (fst next, head :: read :: prompt :: snd next)
  else if is_quit (dispatch command)
       then (Broke, [head; read; Log INFO [Txt "Shutting down..."]])
       else (fst next,
             head :: read
             :: run_arm w k listen_port (dispatch command) command iss
                ++ prompt :: snd next).
Proof.
  cbn zeta. cbn [command_loop].
  destruct (ret_bool w k "is_running"); [|reflexivity]. cbn [negb].
  destruct (getline cin input) as [cin' input']. cbn [fst snd].
  destruct (command_loop fuel w listen_port (S k) cin' input') as [e tr].
  destruct (empty input'); [reflexivity|].
  unfold command_of.
  destruct (extract_string (istringstream input') "") as [iss command].
  cbn [fst snd].
  destruct (dispatch command); reflexivity.
Qed.

(** The loop is left exactly when, within its budget of iterations, the
    client stops running or a [quit] or [exit] line is read. *)
Lemma command_loop_ends (fuel : nat) :
  forall (w : World) (listen_port : Z) (k : nat) (cin : istream) (input : string),
    fst (command_loop fuel w listen_port k cin input) <> StillLooping
    <-> exists n, (n < fuel)%nat /\ ends_after w k cin input n = true.
Proof.
  induction fuel as [|fuel IH]; intros w listen_port k cin input.
  - simpl. split; [congruence|]. intros (n & L & _). lia.
  - rewrite command_loop_S. cbn zeta.
    destruct (ret_bool w k "is_running") eqn:R; cbn [negb].
    2:{ split; [|discriminate]. intros _. exists 0%nat. split; [lia|].
        simpl. now rewrite R. }
    assert (Step : is_quit_line (snd (getline cin input)) = false ->
              ((exists n, (n < fuel)%nat
                          /\ ends_after w (S k) (fst (getline cin input))
                               (snd (getline cin input)) n = true)
               <-> exists n, (n < S fuel)%nat /\ ends_after w k cin input n = true)).
    { intros Q. split.
      - intros (n & L & E). exists (S n). split; [lia|].
        simpl. destruct (getline cin input). exact E.
      - intros (n & L & E). destruct n as [|n].
        + simpl in E. rewrite R, Q in E. discriminate.
        + exists n. split; [lia|]. simpl in E.
          destruct (getline cin input). exact E. }
    destruct (empty (snd (getline cin input))) eqn:Em.
    + cbn [fst]. rewrite IH. apply Step.
      unfold is_quit_line. now rewrite Em.
    + destruct (is_quit (dispatch (command_of (snd (getline cin input))))) eqn:Q.
      * cbn [fst]. split; [|discriminate]. intros _. exists 0%nat.
        split; [lia|]. simpl. rewrite R. unfold is_quit_line.
        now rewrite Em, Q.
      * cbn [fst]. rewrite IH. apply Step.
        unfold is_quit_line. now rewrite Em, Q.
Qed.

(** *** [main] *)

Lemma before_start_outside_loop (w : World) (argv : list string) (listen_port : Z) :
  existsb is_loop_event (before_start w argv listen_port) = false.
Proof.
  unfold before_start, setup_file_callbacks, banner.
  destruct (2 <=? List.length argv)%nat;
    destruct (ret_bool w 0 "is_file_transfer_available"); reflexivity.
Qed.

(** When [std::stoi] throws on an argument, [main] is left by the exception
    before the client is created. *)
Lemma main_bad_arguments (fuel : nat) (w : World) (argv : list string)
    (stdin : string) :
  listen_port_of argv = None \/ peer_of argv = None ->
  outcome (main fuel w argv stdin) = Uncaught.
Proof.
  unfold main. intros [H|H].
  - now rewrite H.
  - rewrite H. now destruct (listen_port_of argv).
Qed.

Lemma main_startup_failure (fuel : nat) (w : World) (argv : list string)
    (stdin : string) (listen_port : Z) (peer : string * Z) :
  listen_port_of argv = Some listen_port ->
  peer_of argv = Some peer ->
  ret_bool w 0 "start" = false ->
  main fuel w argv stdin =
  mk_Run (Exit 1)
    (before_start w argv listen_port
     ++ [Log ERROR [Txt "Failed to start RatsClient on port "; Num listen_port]])
    (fst (setup_file_callbacks (ret_bool w 0 "is_file_transfer_available"))).
Proof.
  intros L P S. unfold main. rewrite L, P, S. now destruct peer.
Qed.

Lemma main_started (fuel : nat) (w : World) (argv : list string)
    (stdin : string) (listen_port : Z) (peer_host : string) (peer_port : Z) :
  listen_port_of argv = Some listen_port ->
  peer_of argv = Some (peer_host, peer_port) ->
  ret_bool w 0 "start" = true ->
  let loop := command_loop fuel w listen_port 1 (istringstream stdin) "" in
  let events := before_start w argv listen_port
                ++ after_start w peer_host peer_port ++ snd loop in
  let callbacks :=
    fst (setup_file_callbacks (ret_bool w 0 "is_file_transfer_available")) in
  main fuel w argv stdin =
  match fst loop with
  | StillLooping => mk_Run Unfinished events callbacks
  | _ => mk_Run (Exit 0) (events ++ clean_shutdown) callbacks
  end.
Proof.
  intros L P S. cbn zeta. unfold main. rewrite L, P, S. cbn [negb].
  destruct (command_loop fuel w listen_port 1 (istringstream stdin) "") as [e tr].
  cbn [fst snd]. destruct e; rewrite <- ?app_assoc; reflexivity.
Qed.

(** C1.  Once the arguments are read, [main] returns 1 when [start()]
    answers false, and then the command loop is never entered; when
    [start()] answers true, [main] returns 0, after the shutdown sequence,
    exactly when the loop is left, that is when [is_running()] turns false
    or a [quit] or [exit] line is read, and it never returns another
    code. *)
Theorem main_exit_code (w : World) (argv : list string) (stdin : string)
    (listen_port : Z) (peer : string * Z) :
  listen_port_of argv = Some listen_port ->
  peer_of argv = Some peer ->
  (ret_bool w 0 "start" = false ->
   forall fuel,
     outcome (main fuel w argv stdin) = Exit 1
     /\ existsb is_loop_event (trace (main fuel w argv stdin)) = false)
  /\ (ret_bool w 0 "start" = true ->
      forall fuel,
        (outcome (main fuel w argv stdin) = Exit 0
         <-> exists n, (n < fuel)%nat
                       /\ ends_after w 1 (istringstream stdin) "" n = true)
        /\ (outcome (main fuel w argv stdin) = Exit 0 ->
            exists tr, trace (main fuel w argv stdin) = tr ++ clean_shutdown)
        /\ (forall code, outcome (main fuel w argv stdin) = Exit code -> code = 0%Z)).
Proof.
  intros L P. split.
  - intros S fuel. rewrite (main_startup_failure fuel w argv stdin _ _ L P S).
    cbn [outcome trace]. split; [reflexivity|].
    rewrite existsb_app, before_start_outside_loop. reflexivity.
  - intros S fuel. destruct peer as [peer_host peer_port].
    rewrite (main_started fuel w argv stdin _ _ _ L P S). cbn zeta.
    rewrite <- command_loop_ends with (listen_port := listen_port).
    destruct (fst (command_loop fuel w listen_port 1 (istringstream stdin) ""));
      cbn [outcome trace].
    + repeat split; try congruence. intros _. eexists. reflexivity.
    + repeat split; try congruence. intros _. eexists. reflexivity.
    + repeat split; try congruence; try discriminate.
Qed.

(** The statement above on a run that reads [quit], on a run in which the
    client stops by itself, and on a run in which [start()] fails. *)
Lemma main_exit_code_witness :
  outcome (main 5 (Samples.sample_world true 9) ["rats"]
             ("help" ++ String "010" "quit" ++ String "010" "")) = Exit 0
  /\ outcome (main 5 (Samples.sample_world true 2) ["rats"; "8081"] "") = Exit 0
  /\ outcome (main 5 (Samples.sample_world false 9) ["rats"] "quit") = Exit 1.
Proof.
  split; [|split].
  - apply (proj2 (main_exit_code (Samples.sample_world true 9) ["rats"]
                    ("help" ++ String "010" "quit" ++ String "010" "")
                    8080%Z ("", 0%Z) eq_refl eq_refl) eq_refl 5%nat).
    exists 1%nat. split; [lia|reflexivity].
  - apply (proj2 (main_exit_code (Samples.sample_world true 2) ["rats"; "8081"] ""
                    8081%Z ("", 0%Z) eq_refl eq_refl) eq_refl 5%nat).
    exists 2%nat. split; [lia|reflexivity].
  - apply (proj1 (main_exit_code (Samples.sample_world false 9) ["rats"] "quit"
                    8080%Z ("", 0%Z) eq_refl eq_refl) eq_refl 5%nat).
Defined.

Example main_waits_for_input :
  outcome (main 50 (Samples.sample_world true 100) ["rats"] "peers") = Unfinished
  /\ outcome (main 0 (Samples.sample_world true 100) ["rats"; "port"] "") = Uncaught.
Proof. split; reflexivity. Qed.

(** *** The acceptance callbacks *)

Lemma main_callbacks (fuel : nat) (w : World) (argv : list string)
    (stdin : string) (listen_port : Z) (peer : string * Z) :
  listen_port_of argv = Some listen_port ->
  peer_of argv = Some peer ->
  file_callbacks (main fuel w argv stdin)
  = fst (setup_file_callbacks (ret_bool w 0 "is_file_transfer_available")).
Proof.
  intros L P. destruct (ret_bool w 0 "start") eqn:S.
  - destruct peer as [peer_host peer_port].
    rewrite (main_started fuel w argv stdin _ _ _ L P S). cbn zeta.
    now destruct (fst (command_loop fuel w listen_port 1 (istringstream stdin) "")).
  - now rewrite (main_startup_failure fuel w argv stdin _ _ L P S).
Qed.

(** C2.  The callbacks [main] registers for incoming file-transfer requests
    and for incoming file requests return true whatever the peer, the file
    and the size are; they are registered whenever the file transfer manager
    is available and the arguments are read. *)
Theorem file_requests_auto_accepted (fuel : nat) (w : World)
    (argv : list string) (stdin : string) :
  (forall cb, file_callbacks (main fuel w argv stdin) = Some cb ->
     (forall peer metadata id,
        snd (on_file_transfer_request cb peer metadata id) = true)
     /\ (forall peer file_path id, snd (on_file_request cb peer file_path id) = true))
  /\ (ret_bool w 0 "is_file_transfer_available" = true ->
      listen_port_of argv <> None -> peer_of argv <> None ->
      file_callbacks (main fuel w argv stdin) <> None).
Proof.
  destruct (listen_port_of argv) as [listen_port|] eqn:L.
  2:{ split; [|congruence]. intros cb.
      unfold main. rewrite L. discriminate. }
  destruct (peer_of argv) as [peer|] eqn:P.
  2:{ split; [|congruence]. intros cb.
      unfold main. rewrite L, P. discriminate. }
  rewrite (main_callbacks fuel w argv stdin _ _ L P).
  unfold setup_file_callbacks.
  destruct (ret_bool w 0 "is_file_transfer_available"); cbn [fst].
  - split; [|discriminate].
    intros cb [= <-]. split; reflexivity.
  - split; [discriminate|congruence].
Qed.

Lemma file_requests_auto_accepted_witness :
  exists cb,
    file_callbacks (main 3 (Samples.sample_world true 9) ["rats"] "quit") = Some cb
    /\ snd (on_file_transfer_request cb "peer-1" (mk_FileMetadata "big.iso" 4700000000)
              "transfer-1") = true
    /\ snd (on_file_request cb "peer-1" "/etc/passwd" "transfer-2") = true.
Proof.
  eexists. split; [reflexivity|].
  split.
  - apply (proj1 (file_requests_auto_accepted 3 (Samples.sample_world true 9)
                    ["rats"] "quit") _ eq_refl).
  - apply (proj1 (file_requests_auto_accepted 3 (Samples.sample_world true 9)
                    ["rats"] "quit") _ eq_refl).
Defined.

(** *** The commands the loop knows *)

Lemma dispatch_unknown_iff (command : string) :
  dispatch command = BUnknown <-> ~ In command command_words.
Proof.
  split.
  - intros D H. now apply (dispatch_known command H).
  - apply dispatch_unknown.
Qed.

Lemma empty_false (s : string) : s <> "" -> empty s = false.
Proof. destruct s; [congruence|reflexivity]. Qed.

(** C4, amended.  The chain sends [connect], [list], [broadcast], [send],
    [dht_find], [dht_announce], [file_send], [transfer_list] and [quit] to
    their arms; a word is sent to the unknown-command arm exactly when it is
    none of the words of the chain.  In an iteration of the loop that reads
    an empty line only the prompt is printed; on a line that is not empty,
    a first word that is not a command prints the unknown-command message
    and the loop goes on, [quit] and [exit] leave the loop, and any other
    command runs its arm and the loop goes on. *)
Theorem command_loop_dispatch (fuel : nat) (w : World) (listen_port : Z)
    (k : nat) (cin : istream) (input : string) :
  (dispatch "connect" = BConnect /\ dispatch "list" = BList
   /\ dispatch "broadcast" = BBroadcast /\ dispatch "send" = BSend
   /\ dispatch "dht_find" = BDhtFind /\ dispatch "dht_announce" = BDhtAnnounce
   /\ dispatch "file_send" = BFileSend /\ dispatch "transfer_list" = BTransferList
   /\ dispatch "quit" = BQuit)
  /\ (forall command, dispatch command = BUnknown <-> ~ In command command_words)
  /\ (ret_bool w k "is_running" = true ->
      let input' := snd (getline cin input) in
      let command := command_of input' in
      let iss := fst (extract_string (istringstream input') "") in
      let next :=
        command_loop fuel w listen_port (S k) (fst (getline cin input)) input' in
      let head := [Call "is_running" [] (ABool true); Call "getline" [] (AStr input')] in
      let this := command_loop (S fuel) w listen_port k cin input in
      (input' = "" -> this = (fst next, head ++ prompt :: snd next))
      /\ (input' <> "" -> ~ In command command_words ->
          this = (fst next,
                  head ++ [Cout [Txt "Unknown command: "; Txt command; Endl];
                           line "Type 'help' for available commands."; prompt]
                  ++ snd next))
      /\ (input' <> "" -> command = "quit" \/ command = "exit" ->
          this = (Broke, head ++ [Log INFO [Txt "Shutting down..."]]))
      /\ (input' <> "" -> In command command_words ->
          command <> "quit" -> command <> "exit" ->
          dispatch command <> BUnknown
          /\ this = (fst next,
                     head ++ run_arm w k listen_port (dispatch command) command iss
                     ++ prompt :: snd next))).
Proof.
  split; [repeat split|].
  split; [exact dispatch_unknown_iff|].
  intros R. cbn zeta. rewrite command_loop_S. cbn zeta. rewrite R. cbn [negb].
  split; [|split; [|split]].
  - intros ->. reflexivity.
  - intros NE U. rewrite (empty_false _ NE).
    rewrite (dispatch_unknown _ U). reflexivity.
  - intros NE Q. rewrite (empty_false _ NE).
    apply dispatch_quit in Q. rewrite Q. reflexivity.
  - intros NE K Q1 Q2. rewrite (empty_false _ NE).
    split; [now apply dispatch_known|].
    destruct (is_quit _) eqn:Q; [|reflexivity].
    exfalso.
    assert (D : dispatch (command_of (snd (getline cin input))) = BQuit)
      by (destruct (dispatch _); try discriminate; reflexivity).
    apply dispatch_quit in D. tauto.
Qed.

Lemma command_loop_dispatch_witness :
  command_loop 1 (Samples.sample_world true 9) 8080 1
    (istringstream ("frobnicate now" ++ String "010" "")) ""
  = (StillLooping,
     [Call "is_running" [] (ABool true); Call "getline" [] (AStr "frobnicate now");
      Cout [Txt "Unknown command: "; Txt "frobnicate"; Endl];
      line "Type 'help' for available commands."; prompt])
  /\ command_loop 1 (Samples.sample_world true 9) 8080 1 (istringstream "  exit") ""
     = (Broke,
        [Call "is_running" [] (ABool true); Call "getline" [] (AStr "  exit");
         Log INFO [Txt "Shutting down..."]]).
Proof.
  split.
  - destruct (proj2 (proj2 (command_loop_dispatch 0 (Samples.sample_world true 9)
                              8080 1
                              (istringstream ("frobnicate now" ++ String "010" ""))
                              "")) eq_refl) as (_ & Unknown & _).
    apply Unknown.
    + discriminate.
    + vm_compute. intuition discriminate.
  - destruct (proj2 (proj2 (command_loop_dispatch 0 (Samples.sample_world true 9)
                              8080 1 (istringstream "  exit") "")) eq_refl)
      as (_ & _ & Quit & _).
    apply Quit.
    + discriminate.
    + right. reflexivity.
Defined.

(** An empty line is no command of the chain, yet the iteration that reads
    it prints the prompt and no unknown-command message; and [help], which
    is not one of the nine commands listed, has an arm of its own. *)
Lemma empty_line_only_prompts :
  ~ In (command_of "") command_words
  /\ command_loop 1 (Samples.sample_world true 9) 8080 1
       (istringstream (String "010" "quit")) ""
     = (StillLooping,
        [Call "is_running" [] (ABool true); Call "getline" [] (AStr ""); prompt])
  /\ dispatch (command_of "help") = BHelp.
Proof.
  split; [|split; reflexivity].
  simpl. intuition discriminate.
Qed.

(** *** Dual-stack connection *)

Lemma probe_timeout (w : World) (k : nat) (api host : string) (port : Z)
    (probe_ok probe_failed : string) (name : string) (args : list Arg) (ret : Arg) :
  In (Call name args ret) (probe_then_connect w k api host port probe_ok probe_failed) ->
  name = api -> api <> "close_socket" -> api <> "connect_to_peer" ->
  args = [AStr host; AInt port; AInt 10000].
Proof.
  unfold probe_then_connect. intros H E N1 N2. subst name.
  destruct H as [H|H]; [now inversion H|].
  destruct (negb _); simpl in H.
  - destruct H as [H|[H|[H|[H|[]]]]]; try discriminate H.
    + inversion H; congruence.
    + inversion H; congruence.
    + destruct (ret_bool w k "connect_to_peer"); discriminate H.
  - destruct H as [H|[]]; discriminate H.
Qed.

(** C3, amended.  [resolve_all_addresses_dual] returns an IPv4 or IPv6
    literal alone and otherwise the text of the IPv4 and IPv6 entries of
    one [AF_UNSPEC] query of [getaddrinfo], in the order in which the
    system lists them: it prefers no family.  The [connect_dual] command,
    which the help text documents as dual stack, IPv6 first and then IPv4,
    given a host and a positive port first opens a probe connection with
    [create_tcp_client(host, port, 10000)] and hands the host to
    [connect_to_peer] only when the probe succeeds; every call of
    [create_tcp_client] it makes carries the timeout of 10000 ms. *)
Theorem dual_stack_connect (os : NetworkUtils.Platform) (hostname : string)
    (w : World) (k : nat) (iss : istream) :
  NetworkUtils.resolve_all_addresses_dual os hostname
  = (if NetworkUtils.is_valid_ipv4 os hostname
        || NetworkUtils.is_valid_ipv6 os hostname
     then [hostname]
     else map (NetworkUtils.address_text os)
            (filter (fun rp => NetworkUtils.is_inet (NetworkUtils.ai_family rp))
               (NetworkUtils.gai_list
                  (NetworkUtils.getaddrinfo os (c_str hostname)
                     NetworkUtils.AF_UNSPEC))))
  /\ (forall host port,
        read_host_port w iss = (host, port) ->
        host <> "" -> (0 < port)%Z ->
        exists rest,
          arm_connect_dual w k iss
          = Log INFO [Txt "Connecting to "; Txt host; Txt ":"; Num port;
                      Txt " using dual stack..."]
            :: Call "create_tcp_client" [AStr host; AInt port; AInt 10000]
                 (AInt (ret_int w k "create_tcp_client"))
            :: rest
          /\ (ret_int w k "create_tcp_client" = INVALID_SOCKET_VALUE w ->
              rest = [Log ERROR [Txt "Failed to connect using dual stack"]])
          /\ (ret_int w k "create_tcp_client" <> INVALID_SOCKET_VALUE w ->
              In (Call "connect_to_peer" [AStr host; AInt port]
                    (ABool (ret_bool w k "connect_to_peer"))) rest))
  /\ (forall args ret,
        In (Call "create_tcp_client" args ret) (arm_connect_dual w k iss) ->
        nth 2 args AUnit = AInt 10000)
  /\ In (line "  connect_dual <host> <port> - Connect using dual stack (IPv6 first, then IPv4)")
        print_help.
Proof.
  split; [apply NetworkUtilsFacts.resolve_all_addresses_dual_order|].
  split; [|split; [|unfold print_help; simpl; tauto]].
  - intros host port RH NE POS. unfold arm_connect_dual. rewrite RH.
    rewrite (empty_false _ NE). apply Z.ltb_lt in POS. rewrite POS.
    cbn [negb andb]. unfold probe_then_connect.
    eexists. split; [reflexivity|]. split.
    + intros ->. now rewrite Z.eqb_refl.
    + intros D. apply Z.eqb_neq in D. rewrite D. cbn [negb].
      right; right; left. reflexivity.
  - intros args ret H. unfold arm_connect_dual in H.
    destruct (read_host_port w iss) as [host port].
    destruct (negb (empty host) && (0 <? port)%Z).
    + destruct H as [H|H]; [discriminate H|].
      rewrite (probe_timeout _ _ _ _ _ _ _ _ _ _ H eq_refl); [reflexivity| |];
        discriminate.
    + destruct H as [H|[]]. discriminate H.
Qed.

Lemma dual_stack_connect_witness :
  exists rest,
    arm_connect_dual (Samples.sample_world true 9) 1
      (mk_istream " dual.example 8080" false false)
    = Log INFO [Txt "Connecting to "; Txt "dual.example"; Txt ":"; Num 8080;
                Txt " using dual stack..."]
      :: Call "create_tcp_client" [AStr "dual.example"; AInt 8080; AInt 10000]
           (AInt 7)
      :: rest.
Proof.
  destruct (proj1 (proj2 (dual_stack_connect Samples.sample_os "dual.example"
                            (Samples.sample_world true 9) 1
                            (mk_istream " dual.example 8080" false false)))
              "dual.example" 8080%Z eq_refl) as (rest & E & _).
  - discriminate.
  - reflexivity.
  - exists rest. exact E.
Defined.

(** A port that is not given is the [int] that was never written: on the
    line [connect_dual host] the command acts on whatever value it holds. *)
Example connect_dual_without_port :
  read_host_port (Samples.sample_world true 9) (mk_istream " host" false false)
  = ("host", indeterminate_int (Samples.sample_world true 9)).
Proof. reflexivity. Qed.

End CliFacts.

(** ** Decimal notation *)
Module DecimalFacts.

Import Str Decimal.

Local Open Scope string_scope.

(** *** Strings *)

Lemma append_assoc (a b c : string) : (a ++ b) ++ c = a ++ b ++ c.
Proof. induction a as [|x a IH]; simpl; [reflexivity|now rewrite IH]. Qed.

Lemma append_nil_r (a : string) : a ++ "" = a.
Proof. induction a as [|x a IH]; simpl; [reflexivity|now rewrite IH]. Qed.

Lemma length_append (a b : string) :
  String.length (a ++ b) = (String.length a + String.length b)%nat.
Proof. induction a as [|x a IH]; simpl; [reflexivity|now rewrite IH]. Qed.

(** *** Decimal numbers *)

Lemma digit_cases (d : N) :
  (d < 10)%N ->
  (d = 0 \/ d = 1 \/ d = 2 \/ d = 3 \/ d = 4
   \/ d = 5 \/ d = 6 \/ d = 7 \/ d = 8 \/ d = 9)%N.
Proof. lia. Qed.

Lemma digit_char_is_digit (d : N) : (d < 10)%N -> is_digit (digit_char d) = true.
Proof.
  intros H. apply digit_cases in H.
  repeat (destruct H as [->|H]; [reflexivity|]). now subst.
Qed.

Lemma digit_char_val (d : N) : (d < 10)%N -> digit_val (digit_char d) = d.
Proof.
  intros H. apply digit_cases in H.
  repeat (destruct H as [->|H]; [reflexivity|]). now subst.
Qed.

Lemma digit_char_nonzero (d : N) :
  (0 < d < 10)%N -> Ascii.eqb (digit_char d) "0" = false.
Proof.
  intros [P H]. apply digit_cases in H.
  destruct H as [->|H]; [lia|].
  repeat (destruct H as [->|H]; [reflexivity|]). now subst.
Qed.

Lemma to_digits_acc (fuel : nat) :
  forall n acc, to_digits fuel n acc = to_digits fuel n "" ++ acc.
Proof.
  induction fuel as [|fuel IH]; intros n acc; simpl; [reflexivity|].
  destruct (n <? 10)%N; [reflexivity|].
  rewrite (IH _ (String _ acc)), (IH _ (String _ "")).
  now rewrite append_assoc.
Qed.

(** The digits of [n], read from the front: those of [n / 10], then the
    last one. *)
Lemma to_digits_unfold (fuel : nat) (n : N) :
  to_digits (S fuel) n "" =
  if (n <? 10)%N then String (digit_char n) ""
  else to_digits fuel (n / 10) "" ++ String (digit_char (n mod 10)) "".
Proof.
  simpl. destruct (n <? 10)%N eqn:L.
  - apply N.ltb_lt in L. now rewrite N.mod_small.
  - apply to_digits_acc.
Qed.

Lemma all_digits_append (a b : string) :
  all_digits (a ++ b) = all_digits a && all_digits b.
Proof.
  induction a as [|c a IH]; simpl; [reflexivity|].
  now rewrite IH, andb_assoc.
Qed.

Lemma to_digits_all_digits (fuel : nat) :
  forall n, all_digits (to_digits fuel n "") = true.
Proof.
  induction fuel as [|fuel IH]; intros n; [reflexivity|].
  rewrite to_digits_unfold.
  destruct (n <? 10)%N eqn:L.
  - apply N.ltb_lt in L. simpl. now rewrite digit_char_is_digit.
  - rewrite all_digits_append, IH. simpl.
    rewrite digit_char_is_digit; [reflexivity|].
    apply N.mod_lt. discriminate.
Qed.

Lemma digits_value_snoc (s : string) (c : ascii) :
  forall acc,
    digits_value (s ++ String c "") acc
    = (10 * digits_value s acc + digit_val c)%N.
Proof.
  induction s as [|x s IH]; intros acc; simpl; [reflexivity|apply IH].
Qed.

Lemma tenth_fits (fuel : nat) (n : N) :
  (n < 2 ^ N.of_nat (S fuel))%N -> (n / 10 < 2 ^ N.of_nat fuel)%N.
Proof.
  intros H. rewrite Nat2N.inj_succ, N.pow_succ_r' in H.
  apply N.Div0.div_lt_upper_bound. lia.
Qed.

Lemma ten_needs_fuel (n : N) : (n < 2 ^ N.of_nat 0)%N -> (n <? 10)%N = true.
Proof. simpl. intros H. apply N.ltb_lt. lia. Qed.

Lemma to_digits_value (fuel : nat) :
  forall n, (n < 2 ^ N.of_nat fuel)%N ->
            digits_value (to_digits (S fuel) n "") 0 = n.
Proof.
  induction fuel as [|fuel IH]; intros n B; rewrite to_digits_unfold.
  - rewrite (ten_needs_fuel n B). simpl.
    apply digit_char_val. simpl in B. lia.
  - destruct (n <? 10)%N eqn:L.
    + apply N.ltb_lt in L. simpl. now apply digit_char_val.
    + rewrite digits_value_snoc, (IH _ (tenth_fits _ _ B)).
      rewrite digit_char_val by (apply N.mod_lt; discriminate).
      symmetry. apply N.div_mod. discriminate.
Qed.

Lemma starts_nonzero_append (a b : string) :
  starts_nonzero a = true -> starts_nonzero (a ++ b) = true.
Proof. destruct a; simpl; [discriminate|trivial]. Qed.

Lemma to_digits_starts_nonzero (fuel : nat) :
  forall n, (0 < n)%N -> (n < 2 ^ N.of_nat fuel)%N ->
            starts_nonzero (to_digits (S fuel) n "") = true.
Proof.
  induction fuel as [|fuel IH]; intros n P B; rewrite to_digits_unfold.
  - simpl in B. lia.
  - destruct (n <? 10)%N eqn:L.
    + apply N.ltb_lt in L. simpl. now rewrite digit_char_nonzero.
    + apply N.ltb_ge in L. apply starts_nonzero_append, IH.
      * apply N.div_str_pos. lia.
      * now apply tenth_fits.
Qed.

Lemma print_N_fits (n : N) : (n < 2 ^ N.of_nat (N.to_nat (N.size n)))%N.
Proof. rewrite N2Nat.id. apply N.size_gt. Qed.

Lemma print_N_value (n : N) : digits_value (print_N n) 0 = n.
Proof. apply to_digits_value, print_N_fits. Qed.

Lemma print_N_all_digits (n : N) : all_digits (print_N n) = true.
Proof. apply to_digits_all_digits. Qed.

Lemma print_N_no_leading_zero (n : N) : no_leading_zero (print_N n) = true.
Proof.
  destruct (N.eq_dec n 0) as [->|NZ]; [reflexivity|].
  assert (S : starts_nonzero (print_N n) = true).
  { apply to_digits_starts_nonzero; [lia|apply print_N_fits]. }
  destruct (print_N n) as [|c t]; [discriminate|].
  simpl in *. now rewrite S.
Qed.

Lemma print_N_starts_with_digit (n : N) : starts_with_digit (print_N n) = true.
Proof.
  pose proof (print_N_all_digits n) as A.
  assert (NE : print_N n <> "").
  { unfold print_N. rewrite to_digits_unfold.
    destruct (n <? 10)%N; [discriminate|].
    destruct (to_digits _ (n / 10) ""); discriminate. }
  destruct (print_N n) as [|c t]; [congruence|].
  cbn [all_digits starts_with_digit] in *.
  now apply andb_true_iff in A.
Qed.

Lemma span_digits_append (ds rest : string) :
  all_digits ds = true -> starts_with_digit rest = false ->
  span_digits (ds ++ rest) = (ds, rest).
Proof.
  intros A R. induction ds as [|c ds IH];
    cbn [append span_digits all_digits] in *.
  - destruct rest as [|c t]; [reflexivity|].
    cbn [starts_with_digit span_digits] in *. now rewrite R.
  - apply andb_true_iff in A. destruct A as [C A].
    now rewrite C, (IH A).
Qed.

End DecimalFacts.

(** ** The bencode codec *)
Module BencodeFacts.

Import Str Decimal Bencode DecimalFacts.

Local Open Scope string_scope.

(** *** Byte strings and integers *)

Lemma take_bytes_append (s rest : string) :
  take_bytes (String.length s) (s ++ rest) = Some (s, rest).
Proof. induction s as [|c s IH]; simpl; [reflexivity|now rewrite IH]. Qed.

Lemma decode_string_encode (s rest : string) :
  decode_string (encode_string s ++ rest) = Some (s, rest).
Proof.
  unfold decode_string, encode_string. rewrite append_assoc.
  rewrite span_digits_append;
    [|apply print_N_all_digits|reflexivity].
  pose proof (print_N_starts_with_digit (N.of_nat (String.length s))) as D.
  destruct (print_N (N.of_nat (String.length s))) as [|c t] eqn:E;
    [discriminate|].
  rewrite <- E. cbn [append]. rewrite Ascii.eqb_refl.
  rewrite print_N_value, Nat2N.id. apply take_bytes_append.
Qed.

Lemma is_digit_not_minus (c : ascii) : is_digit c = true -> Ascii.eqb c "-" = false.
Proof.
  intros D. destruct (Ascii.eqb_spec c "-") as [->|]; [discriminate|reflexivity].
Qed.

Lemma decode_integer_print (z : Z) (rest : string) :
  decode_integer (print_Z z ++ String "e" rest) = Some (z, rest).
Proof.
  unfold decode_integer, print_Z.
  destruct (z <? 0)%Z eqn:Neg.
  - apply Z.ltb_lt in Neg. cbn [append]. rewrite Ascii.eqb_refl.
    rewrite span_digits_append; [|apply print_N_all_digits|reflexivity].
    rewrite Ascii.eqb_refl, print_N_no_leading_zero, print_N_value. cbn [andb].
    destruct (Z.abs_N z =? 0)%N eqn:Zero.
    + apply N.eqb_eq in Zero. lia.
    + f_equal. f_equal. rewrite N2Z.inj_abs_N. lia.
  - apply Z.ltb_ge in Neg.
    pose proof (print_N_starts_with_digit (Z.abs_N z)) as D.
    destruct (print_N (Z.abs_N z)) as [|c t] eqn:E; [discriminate|].
    cbn [append]. cbn [starts_with_digit] in D. rewrite (is_digit_not_minus c D).
    change (String c (t ++ String "e" rest)) with (String c t ++ String "e" rest).
    rewrite <- E.
    rewrite span_digits_append; [|apply print_N_all_digits|reflexivity].
    rewrite Ascii.eqb_refl, print_N_no_leading_zero, print_N_value. cbn [andb].
    f_equal. f_equal. rewrite N2Z.inj_abs_N. lia.
Qed.

(** *** Sorting the entries of a dictionary *)

Section Sorting.

Context {A : Type}.

Implicit Types (e : string * A) (l : list (string * A)).

Lemma In_insert_entry e l x : In x (insert_entry e l) <-> x = e \/ In x l.
Proof.
  induction l as [|e' l IH]; simpl.
  - intuition.
  - destruct (String.leb (fst e) (fst e')); simpl; [intuition|].
    rewrite IH. intuition.
Qed.

Lemma In_sort_entries l x : In x (sort_entries l) <-> In x l.
Proof.
  induction l as [|e l IH]; simpl; [tauto|].
  rewrite In_insert_entry, IH. intuition.
Qed.

Lemma length_insert_entry e l :
  List.length (insert_entry e l) = S (List.length l).
Proof.
  induction l as [|e' l IH]; simpl; [reflexivity|].
  destruct (String.leb (fst e) (fst e')); simpl; [reflexivity|now rewrite IH].
Qed.

Lemma length_sort_entries l : List.length (sort_entries l) = List.length l.
Proof.
  induction l as [|e l IH]; simpl; [reflexivity|].
  now rewrite length_insert_entry, IH.
Qed.

Lemma mem_insert_entry k e l :
  mem_string k (map fst (insert_entry e l))
  = String.eqb k (fst e) || mem_string k (map fst l).
Proof.
  induction l as [|e' l IH]; simpl; [reflexivity|].
  destruct (String.leb (fst e) (fst e')); simpl; [reflexivity|].
  rewrite IH.
  destruct (String.eqb k (fst e)), (String.eqb k (fst e')); reflexivity.
Qed.

Lemma distinct_insert_entry e l :
  distinct (map fst (insert_entry e l))
  = negb (mem_string (fst e) (map fst l)) && distinct (map fst l).
Proof.
  induction l as [|e' l IH]; simpl; [reflexivity|].
  destruct (String.leb (fst e) (fst e')); simpl; [reflexivity|].
  rewrite IH, mem_insert_entry, (String.eqb_sym (fst e') (fst e)).
  destruct (String.eqb (fst e) (fst e')), (mem_string (fst e') (map fst l)),
    (mem_string (fst e) (map fst l)); reflexivity.
Qed.

Lemma mem_sort_entries k l :
  mem_string k (map fst (sort_entries l)) = mem_string k (map fst l).
Proof.
  induction l as [|e l IH]; simpl; [reflexivity|].
  now rewrite mem_insert_entry, IH.
Qed.

Lemma distinct_sort_entries l :
  distinct (map fst (sort_entries l)) = distinct (map fst l).
Proof.
  induction l as [|e l IH]; simpl; [reflexivity|].
  now rewrite distinct_insert_entry, mem_sort_entries, IH.
Qed.

Lemma nondecreasing_weaken p (keys : list string) :
  nondecreasing (Some p) keys = true -> nondecreasing None keys = true.
Proof.
  destruct keys as [|k t]; simpl; [trivial|].
  intros H. apply andb_true_iff in H. tauto.
Qed.

Lemma leb_of_not_leb (a b : string) : String.leb a b = false -> String.leb b a = true.
Proof.
  intros H. destruct (String.leb_total a b) as [T|T]; [congruence|exact T].
Qed.

Lemma nondecreasing_insert_entry e l prev :
  nondecreasing prev (map fst l) = true ->
  match prev with None => true | Some p => String.leb p (fst e) end = true ->
  nondecreasing prev (map fst (insert_entry e l)) = true.
Proof.
  revert prev. induction l as [|e' l IH]; intros prev S P; simpl in *.
  - now rewrite P.
  - apply andb_true_iff in S. destruct S as [S1 S2].
    destruct (String.leb (fst e) (fst e')) eqn:L; simpl.
    + now rewrite P, L, S2.
    + rewrite S1. simpl. apply IH; [exact S2|].
      now apply leb_of_not_leb.
Qed.

Lemma nondecreasing_sort_entries l :
  nondecreasing None (map fst (sort_entries l)) = true.
Proof.
  induction l as [|e l IH]; simpl; [reflexivity|].
  now apply nondecreasing_insert_entry.
Qed.

(** Sorting a list that is in order leaves it as it is. *)
Lemma sort_entries_sorted l :
  nondecreasing None (map fst l) = true -> sort_entries l = l.
Proof.
  induction l as [|e l IH]; simpl; [reflexivity|].
  intros S. rewrite IH by (now apply nondecreasing_weaken with (p := fst e)).
  destruct l as [|e' l]; [reflexivity|].
  simpl in *. apply andb_true_iff in S. destruct S as [S _].
  now rewrite S.
Qed.

End Sorting.

Lemma leb_strict (a b : string) :
  String.leb a b = true -> String.eqb a b = false -> String.ltb a b = true.
Proof.
  unfold String.leb, String.ltb. intros L N.
  destruct (String.compare a b) eqn:C; try reflexivity; try discriminate.
  apply String.compare_eq_iff in C. subst. now rewrite String.eqb_refl in N.
Qed.

Lemma ltb_leb (a b : string) : String.ltb a b = true -> String.leb a b = true.
Proof.
  unfold String.leb, String.ltb.
  destruct (String.compare a b); congruence.
Qed.

(** Keys in order and pairwise distinct are in strictly ascending order. *)
Lemma ascending_of_distinct (keys : list string) :
  forall prev,
    nondecreasing prev keys = true ->
    match prev with None => false | Some p => mem_string p keys end = false ->
    distinct keys = true ->
    ascending prev keys = true.
Proof.
  induction keys as [|k t IH]; intros prev S M D; simpl in *; [reflexivity|].
  apply andb_true_iff in S, D. destruct S as [S1 S2], D as [D1 D2].
  apply negb_true_iff in D1.
  rewrite (IH (Some k) S2 D1 D2), andb_true_r.
  destruct prev as [p|]; simpl; [|reflexivity].
  apply orb_false_iff in M. destruct M as [M _].
  now apply leb_strict.
Qed.

Lemma nondecreasing_of_ascending (keys : list string) :
  forall prev, ascending prev keys = true -> nondecreasing prev keys = true.
Proof.
  induction keys as [|k t IH]; intros prev H; simpl in *; [reflexivity|].
  apply andb_true_iff in H. destruct H as [H1 H2].
  rewrite (IH _ H2), andb_true_r.
  destruct prev as [p|]; simpl in *; [now apply ltb_leb|reflexivity].
Qed.

Lemma sort_map_values {A B} (f : A -> B) (l : list (string * A)) :
  sort_entries (map_values f l) = map_values f (sort_entries l).
Proof.
  induction l as [|e l IH]; simpl; [reflexivity|].
  rewrite IH. clear IH. generalize (sort_entries l) as s.
  induction s as [|e' s IH]; simpl; [reflexivity|].
  destruct (String.leb (fst e) (fst e')); simpl; [reflexivity|].
  now rewrite IH.
Qed.

Lemma keys_map_values {A B} (f : A -> B) (l : list (string * A)) :
  map fst (map_values f l) = map fst l.
Proof. unfold map_values. rewrite map_map. reflexivity. Qed.

(** *** The equations of the functions on values *)

Lemma encode_dict (es : list (string * value)) :
  encode (BDict es)
  = String "d" (concat_strings (map encode_entry (sort_entries (map_values encode es)))
                ++ "e").
Proof.
  cbn [encode].
  assert (E : forall l,
             (fix encode_values (l : list (string * value)) :=
                match l with
                | [] => []
                | (k, x) :: t => (k, encode x) :: encode_values t
                end) l = map_values encode l).
  { induction l as [|[k x] l IH]; [reflexivity|].
    cbn [map_values map fst snd]. f_equal. exact IH. }
  now rewrite E.
Qed.

Lemma canonical_dict (es : list (string * value)) :
  canonical (BDict es) = BDict (sort_entries (map_values canonical es)).
Proof.
  cbn [canonical].
  assert (E : forall l,
             (fix canonical_values (l : list (string * value)) :=
                match l with
                | [] => []
                | (k, x) :: t => (k, canonical x) :: canonical_values t
                end) l = map_values canonical l).
  { induction l as [|[k x] l IH]; [reflexivity|].
    cbn [map_values map fst snd]. f_equal. exact IH. }
  now rewrite E.
Qed.

Lemma nesting_dict (es : list (string * value)) :
  nesting (BDict es)
  = S (fold_right (fun e m => Nat.max (nesting (snd e)) m) 0%nat es).
Proof.
  cbn [nesting]. f_equal.
  induction es as [|[k x] es IH]; [reflexivity|].
  cbn [fold_right snd]. f_equal. exact IH.
Qed.

Lemma distinct_keys_dict (es : list (string * value)) :
  distinct_keys (BDict es)
  = distinct (map fst es) && forallb (fun e => distinct_keys (snd e)) es.
Proof.
  cbn [distinct_keys]. f_equal.
  induction es as [|[k x] es IH]; [reflexivity|].
  cbn [forallb snd]. f_equal. exact IH.
Qed.

Lemma ascending_keys_dict (es : list (string * value)) :
  ascending_keys (BDict es)
  = ascending None (map fst es) && forallb (fun e => ascending_keys (snd e)) es.
Proof.
  cbn [ascending_keys]. f_equal.
  induction es as [|[k x] es IH]; [reflexivity|].
  cbn [forallb snd]. f_equal. exact IH.
Qed.

(** *** Induction on values *)

Section ValueInduction.

Variable P : value -> Prop.

Hypothesis P_string : forall s, P (BString s).
Hypothesis P_integer : forall z, P (BInteger z).
Hypothesis P_list : forall items, Forall P items -> P (BList items).
Hypothesis P_dict :
  forall entries, Forall (fun e => P (snd e)) entries -> P (BDict entries).

Fixpoint value_induction (v : value) : P v :=
  match v with
  | BString s => P_string s
  | BInteger z => P_integer z
  | BList items =>
      P_list items
        ((fix all (l : list value) : Forall P l :=
            match l with
            | [] => Forall_nil P
            | x :: t => Forall_cons x (value_induction x) (all t)
            end) items)
  | BDict entries =>
      P_dict entries
        ((fix all (l : list (string * value)) : Forall (fun e => P (snd e)) l :=
            match l with
            | [] => Forall_nil _
            | (k, x) :: t =>
                Forall_cons (P := fun e => P (snd e)) (k, x)
                  (value_induction x) (all t)
            end) entries)
  end.

End ValueInduction.

(** *** What an encoding starts with *)

Lemma is_digit_not_e (c : ascii) : is_digit c = true -> Ascii.eqb c "e" = false.
Proof.
  intros D. destruct (Ascii.eqb_spec c "e") as [->|]; [discriminate|reflexivity].
Qed.

Lemma encode_string_head (s : string) :
  exists c t, encode_string s = String c t /\ is_digit c = true.
Proof.
  unfold encode_string.
  pose proof (print_N_starts_with_digit (N.of_nat (String.length s))) as D.
  destruct (print_N _) as [|c t]; [discriminate|].
  exists c, (t ++ String ":" s). split; [reflexivity|exact D].
Qed.

(** The first character of an encoding is a digit, [i], [l] or [d]; it is
    never the [e] that closes a list or a dictionary. *)
Lemma encode_head (x : value) :
  exists c t, encode x = String c t /\ Ascii.eqb c "e" = false.
Proof.
  destruct x as [s|z|items|es].
  - destruct (encode_string_head s) as (c & t & E & D).
    exists c, t. split; [exact E|now apply is_digit_not_e].
  - eexists _, _. split; [reflexivity|reflexivity].
  - eexists _, _. split; [reflexivity|reflexivity].
  - rewrite encode_dict. eexists _, _. split; reflexivity.
Qed.

Lemma length_concat_encode (items : list value) :
  (List.length items <= String.length (concat_strings (map encode items)))%nat.
Proof.
  induction items as [|x items IH]; simpl; [lia|].
  rewrite length_append.
  destruct (encode_head x) as (c & t & E & _). rewrite E. simpl. lia.
Qed.

Lemma length_concat_entries (es : list (string * value)) :
  (List.length es
   <= String.length (concat_strings (map encode_entry (map_values encode es))))%nat.
Proof.
  induction es as [|e es IH]; simpl; [lia|].
  rewrite length_append. unfold encode_entry at 1. cbn [fst snd].
  rewrite length_append.
  destruct (encode_string_head (fst e)) as (c & t & E & _). rewrite E. simpl. lia.
Qed.

(** *** Decoding an encoding *)

Lemma map_values_cons {A B} (f : A -> B) (e : string * A) (l : list (string * A)) :
  map_values f (e :: l) = (fst e, f (snd e)) :: map_values f l.
Proof. reflexivity. Qed.

Lemma concat_strings_cons (s : string) (l : list string) :
  concat_strings (s :: l) = s ++ concat_strings l.
Proof. reflexivity. Qed.

(** The loop over the items reads back the items it is given, when [dec]
    reads back each of them. *)
Lemma decode_items_encode (dec : string -> option (value * string))
    (items : list value) :
  Forall (fun x => forall rest, dec (encode x ++ rest) = Some (canonical x, rest))
         items ->
  forall fuel rest,
    (List.length items <= fuel)%nat ->
    decode_items dec fuel (concat_strings (map encode items) ++ String "e" rest)
    = Some (map canonical items, rest).
Proof.
  induction 1 as [|x items Hx _ IH]; intros fuel rest L.
  - destruct fuel; reflexivity.
  - simpl in L. destruct fuel as [|fuel]; [lia|].
    cbn [map]. rewrite concat_strings_cons, append_assoc.
    specialize (Hx (concat_strings (map encode items) ++ String "e" rest)).
    destruct (encode_head x) as (c & t & E & NE).
    rewrite E in *. cbn [append] in *. cbn [decode_items].
    rewrite NE, Hx, IH by lia. reflexivity.
Qed.

(** The loop over the entries reads back the entries it is given, when
    their keys ascend and [dec] reads back each value. *)
Lemma decode_entries_encode (dec : string -> option (value * string))
    (es : list (string * value)) :
  Forall (fun e => forall rest,
            dec (encode (snd e) ++ rest) = Some (canonical (snd e), rest)) es ->
  forall fuel prev rest,
    (List.length es <= fuel)%nat ->
    ascending prev (map fst es) = true ->
    decode_entries dec fuel prev
      (concat_strings (map encode_entry (map_values encode es)) ++ String "e" rest)
    = Some (map_values canonical es, rest).
Proof.
  induction 1 as [|e es He _ IH]; intros fuel prev rest L A.
  - destruct fuel; reflexivity.
  - simpl in L. destruct fuel as [|fuel]; [lia|].
    rewrite map_values_cons. cbn [map]. rewrite concat_strings_cons.
    unfold encode_entry at 1. cbn [fst snd]. rewrite !append_assoc.
    cbn [ascending map] in A. apply andb_true_iff in A. destruct A as [A1 A2].
    pose proof (decode_string_encode (fst e)
                  (encode (snd e)
                   ++ concat_strings (map encode_entry (map_values encode es))
                   ++ String "e" rest)) as K.
    destruct (encode_string_head (fst e)) as (c & t & E & D).
    rewrite E in *. cbn [append] in *. cbn [decode_entries].
    rewrite (is_digit_not_e c D), K, A1, He.
    rewrite IH by (lia || assumption).
    reflexivity.
Qed.

Lemma nesting_items (items : list value) (d : nat) :
  (fold_right (fun x m => Nat.max (nesting x) m) 0 items <= d)%nat ->
  forall x, In x items -> (nesting x <= d)%nat.
Proof.
  induction items as [|y items IH]; simpl; [contradiction|].
  intros B x [->|H]; [lia|]. apply IH; [lia|exact H].
Qed.

Lemma nesting_entries (es : list (string * value)) (d : nat) :
  (fold_right (fun e m => Nat.max (nesting (snd e)) m) 0 es <= d)%nat ->
  forall e, In e es -> (nesting (snd e) <= d)%nat.
Proof.
  induction es as [|y es IH]; simpl; [contradiction|].
  intros B x [->|H]; [lia|]. apply IH; [lia|exact H].
Qed.

Lemma digit_is_no_tag (c : ascii) :
  is_digit c = true ->
  Ascii.eqb c "i" = false /\ Ascii.eqb c "l" = false /\ Ascii.eqb c "d" = false.
Proof.
  intros D. repeat split;
    match goal with
    | |- Ascii.eqb c ?x = false =>
        destruct (Ascii.eqb_spec c x) as [->|]; [discriminate|reflexivity]
    end.
Qed.

(** The decoder reads back the canonical form of any value whose
    dictionaries have distinct keys, as long as it is allowed as many
    levels as the value has, and leaves what follows the encoding. *)
Lemma decode_value_encode (x : value) :
  forall depth rest,
    distinct_keys x = true -> (nesting x <= depth)%nat ->
    decode_value depth (encode x ++ rest) = Some (canonical x, rest).
Proof.
  induction x as [s|z|items IH|es IH] using value_induction;
    intros depth rest D N;
    (destruct depth as [|depth]; [simpl in N; lia|]).
  - cbn [encode canonical].
    pose proof (decode_string_encode s rest) as K.
    destruct (encode_string_head s) as (c & t & E & Dg).
    rewrite E in *. cbn [append] in *. cbn [decode_value].
    destruct (digit_is_no_tag c Dg) as (-> & -> & ->). now rewrite K.
  - cbn [encode canonical append decode_value]. rewrite Ascii.eqb_refl.
    rewrite append_assoc. cbn [append]. now rewrite decode_integer_print.
  - cbn [encode canonical append decode_value].
    change (Ascii.eqb "l" "i") with false. rewrite Ascii.eqb_refl. cbv iota.
    rewrite append_assoc. cbn [append].
    rewrite decode_items_encode; [reflexivity| |].
    + cbn [distinct_keys] in D. rewrite forallb_forall in D.
      cbn [nesting] in N. apply le_S_n in N.
      rewrite Forall_forall in *. intros x Hx rest'.
      apply IH; [exact Hx|now apply D|now apply (nesting_items items)].
    + rewrite length_append. pose proof (length_concat_encode items). lia.
  - rewrite encode_dict, canonical_dict, !sort_map_values.
    cbn [append decode_value].
    change (Ascii.eqb "d" "i") with false. change (Ascii.eqb "d" "l") with false.
    rewrite Ascii.eqb_refl. cbv iota.
    rewrite append_assoc. cbn [append].
    rewrite distinct_keys_dict in D. apply andb_true_iff in D.
    destruct D as [D1 D2]. rewrite forallb_forall in D2.
    rewrite nesting_dict in N. apply le_S_n in N.
    rewrite decode_entries_encode; [reflexivity| | |].
    + rewrite Forall_forall in *. intros e He rest'.
      apply (proj1 (In_sort_entries es e)) in He.
      apply IH; [exact He|now apply D2|now apply (nesting_entries es)].
    + rewrite length_append.
      pose proof (length_concat_entries (sort_entries es)). lia.
    + apply ascending_of_distinct;
        [apply nondecreasing_sort_entries|reflexivity|].
      now rewrite distinct_sort_entries.
Qed.

(** *** Canonical form *)

Lemma map_values_ext_in {A B} (f g : A -> B) (l : list (string * A)) :
  (forall e, In e l -> f (snd e) = g (snd e)) -> map_values f l = map_values g l.
Proof.
  intros H. unfold map_values. apply map_ext_in.
  intros e He. now rewrite (H e He).
Qed.

Lemma map_values_id {A} (f : A -> A) (l : list (string * A)) :
  (forall e, In e l -> f (snd e) = snd e) -> map_values f l = l.
Proof.
  intros H. unfold map_values. rewrite <- (map_id l) at 2. apply map_ext_in.
  intros [k x] He. specialize (H _ He). simpl in *. now rewrite H.
Qed.

Lemma map_values_compose {A B C} (f : A -> B) (g : B -> C) (l : list (string * A)) :
  map_values g (map_values f l) = map_values (fun x => g (f x)) l.
Proof. unfold map_values. rewrite map_map. reflexivity. Qed.

Lemma sort_entries_idempotent {A} (l : list (string * A)) :
  sort_entries (sort_entries l) = sort_entries l.
Proof. apply sort_entries_sorted, nondecreasing_sort_entries. Qed.

(** The encoding does not depend on the order in which dictionaries list
    their entries. *)
Lemma encode_canonical (x : value) : encode (canonical x) = encode x.
Proof.
  induction x as [s|z|items IH|es IH] using value_induction;
    try reflexivity.
  - cbn [canonical encode]. rewrite map_map. do 3 f_equal.
    apply map_ext_in. now rewrite Forall_forall in IH.
  - rewrite canonical_dict, !encode_dict, !sort_map_values.
    rewrite sort_entries_idempotent, map_values_compose.
    rewrite (map_values_ext_in (fun x => encode (canonical x)) encode);
      [reflexivity|].
    intros e He. rewrite Forall_forall in IH. apply IH.
    now apply (proj1 (In_sort_entries es e)).
Qed.

Lemma canonical_idempotent (x : value) : canonical (canonical x) = canonical x.
Proof.
  induction x as [s|z|items IH|es IH] using value_induction;
    try reflexivity.
  - cbn [canonical]. rewrite map_map. f_equal.
    apply map_ext_in. now rewrite Forall_forall in IH.
  - rewrite !canonical_dict, !sort_map_values.
    rewrite sort_entries_idempotent, map_values_compose.
    rewrite (map_values_ext_in (fun x => canonical (canonical x)) canonical);
      [reflexivity|].
    intros e He. rewrite Forall_forall in IH. apply IH.
    now apply (proj1 (In_sort_entries es e)).
Qed.

(** A value whose dictionaries are in ascending order is its own canonical
    form. *)
Lemma canonical_of_ascending (x : value) :
  ascending_keys x = true -> canonical x = x.
Proof.
  induction x as [s|z|items IH|es IH] using value_induction;
    try reflexivity; intros H.
  - cbn [canonical ascending_keys] in *. f_equal.
    rewrite forallb_forall in H. rewrite Forall_forall in IH.
    rewrite <- (map_id items) at 2. apply map_ext_in.
    intros y Hy. apply IH; [exact Hy|now apply H].
  - rewrite canonical_dict. rewrite ascending_keys_dict in H.
    apply andb_true_iff in H. destruct H as [H1 H2].
    rewrite forallb_forall in H2. rewrite Forall_forall in IH.
    rewrite map_values_id by (intros e He; apply IH; [exact He|now apply H2]).
    f_equal. apply sort_entries_sorted. now apply nondecreasing_of_ascending.
Qed.

(** The canonical form has its dictionaries in ascending order. *)
Lemma canonical_ascending (x : value) :
  distinct_keys x = true -> ascending_keys (canonical x) = true.
Proof.
  induction x as [s|z|items IH|es IH] using value_induction;
    try reflexivity; intros H.
  - cbn [canonical ascending_keys distinct_keys] in *.
    rewrite forallb_forall in *. rewrite Forall_forall in IH.
    intros y Hy. apply in_map_iff in Hy. destruct Hy as (y0 & <- & Hy).
    apply IH; [exact Hy|now apply H].
  - rewrite canonical_dict, sort_map_values, ascending_keys_dict.
    rewrite distinct_keys_dict in H. apply andb_true_iff in H.
    destruct H as [H1 H2]. rewrite forallb_forall in H2.
    rewrite Forall_forall in IH.
    rewrite keys_map_values. apply andb_true_iff. split.
    + apply ascending_of_distinct;
        [apply nondecreasing_sort_entries|reflexivity|].
      now rewrite distinct_sort_entries.
    + apply forallb_forall. intros e He.
      apply in_map_iff in He. destruct He as (e0 & <- & He). cbn [snd].
      apply (proj1 (In_sort_entries es e0)) in He.
      apply IH; [exact He|now apply H2].
Qed.

(** *** The round trip *)

(** C5.  For every valid value [x] (dictionaries are finite maps, at most
    256 levels), decoding the encoding of [x] gives [x] back: the result is
    the same data, with every dictionary in ascending order of its keys, and
    it is [x] itself when [x] lists its dictionaries in that order.  The
    encoding is canonical: it is that of the key-sorted form, so the same
    data always has the same encoding.  The streaming decoder returns the
    value and the unconsumed remainder, and the top-level decoder rejects
    any input with something after the value. *)
Theorem bencode_roundtrip (x : value) :
  valid x = true ->
  (exists y, decode (encode x) = Some y /\ same_data y x
             /\ ascending_keys y = true)
  /\ (ascending_keys x = true -> decode (encode x) = Some x)
  /\ (encode (canonical x) = encode x
      /\ (forall y, same_data x y -> encode x = encode y)
      /\ (forall es, x = BDict es ->
            encode x
            = String "d"
                (concat_strings
                   (map (fun e => encode_string (fst e) ++ encode (snd e))
                        (sort_entries es))
                 ++ "e")
            /\ ascending None (map fst (sort_entries es)) = true))
  /\ (forall rest, decode_prefix (encode x ++ rest) = Some (canonical x, rest))
  /\ (forall rest, rest <> "" -> decode (encode x ++ rest) = None).
Proof.
  intros V. unfold valid in V. apply andb_true_iff in V. destruct V as [D N].
  apply Nat.leb_le in N.
  assert (P : forall rest,
             decode_prefix (encode x ++ rest) = Some (canonical x, rest))
    by (intros rest; now apply decode_value_encode).
  assert (R : decode (encode x) = Some (canonical x)).
  { unfold decode. rewrite <- (append_nil_r (encode x)). now rewrite P. }
  split; [|split; [|split; [|split]]].
  - exists (canonical x). split; [exact R|]. split.
    + apply canonical_idempotent.
    + now apply canonical_ascending.
  - intros A. now rewrite R, canonical_of_ascending.
  - split; [apply encode_canonical|]. split.
    + intros y S. unfold same_data in S.
      now rewrite <- (encode_canonical x), S, encode_canonical.
    + intros es ->. split.
      * rewrite encode_dict, sort_map_values. unfold map_values.
        now rewrite map_map.
      * rewrite distinct_keys_dict in D. apply andb_true_iff in D.
        apply ascending_of_distinct;
          [apply nondecreasing_sort_entries|reflexivity|].
        rewrite distinct_sort_entries. tauto.
  - exact P.
  - intros rest NE. unfold decode. rewrite P.
    destruct rest; [congruence|reflexivity].
Qed.

Lemma bencode_roundtrip_witness :
  (exists y, decode (encode Samples.sample_dict) = Some y
             /\ same_data y Samples.sample_dict /\ ascending_keys y = true)
  /\ decode_prefix (encode Samples.sample_dict ++ "4:spam")
     = Some (canonical Samples.sample_dict, "4:spam")
  /\ decode (encode Samples.sample_dict ++ "4:spam") = None.
Proof.
  destruct (bencode_roundtrip Samples.sample_dict eq_refl)
    as (Back & _ & _ & Prefix & Garbage).
  split; [exact Back|]. split; [apply Prefix|].
  apply Garbage. discriminate.
Defined.

Example decode_is_strict :
  decode "d1:bi1e1:ai2ee" = None
  /\ decode "d1:ai1e1:ai2ee" = None
  /\ decode "di1ei2ee" = None
  /\ decode "i-0e" = None
  /\ decode "i03e" = None
  /\ decode "i0e" = Some (BInteger 0)
  /\ decode "d1:ai2e1:bi1ee" = Some (BDict [("a", BInteger 2); ("b", BInteger 1)])
  /\ encode (BDict [("b", BInteger 1); ("a", BInteger 2)]) = "d1:ai2e1:bi1ee".
Proof. repeat split; reflexivity. Qed.

End BencodeFacts.

(** ** Node identifiers *)
Module DhtFacts.

Import Dht.

Local Open Scope Z_scope.

Lemma distance_refl (a : Z) : distance a a = 0.
Proof. apply Z.lxor_nilpotent. Qed.

Lemma distance_sym (a b : Z) : distance a b = distance b a.
Proof. apply Z.lxor_comm. Qed.

(** Going through a third identifier: the distances combine by XOR. *)
Lemma distance_through (a b c : Z) :
  distance a c = Z.lxor (distance a b) (distance b c).
Proof.
  unfold distance.
  now rewrite Z.lxor_assoc, <- (Z.lxor_assoc b b c), Z.lxor_nilpotent, Z.lxor_0_l.
Qed.

Lemma log2_node_id (a : Z) : is_node_id a = true -> Z.log2 a < ID_BITS.
Proof.
  unfold is_node_id, ID_BITS. intros H. apply andb_true_iff in H.
  destruct H as [L U]. apply Z.leb_le in L. apply Z.ltb_lt in U.
  destruct (Z.eq_dec a 0) as [->|NZ]; [reflexivity|].
  apply Z.log2_lt_pow2; lia.
Qed.

Lemma distance_is_node_id (a b : Z) :
  is_node_id a = true -> is_node_id b = true -> is_node_id (distance a b) = true.
Proof.
  intros A B.
  pose proof (log2_node_id a A) as LA. pose proof (log2_node_id b B) as LB.
  unfold is_node_id in *. apply andb_true_iff in A, B.
  destruct A as [A _], B as [B _]. apply Z.leb_le in A, B.
  assert (N : 0 <= distance a b) by (apply Z.lxor_nonneg; tauto).
  apply andb_true_iff. split; [now apply Z.leb_le|]. apply Z.ltb_lt.
  destruct (Z.eq_dec (distance a b) 0) as [->|NZ]; [reflexivity|].
  apply Z.log2_lt_pow2; [lia|].
  eapply Z.le_lt_trans; [now apply Z.log2_lxor|]. lia.
Qed.

(** C7.  For 160-bit identifiers [a], [b], [c]: the distance of [a] to
    itself is 0, the distance is symmetric, and the distance from [a] to
    [c] is at most (as a number and bit by bit; in fact equal to) the XOR
    of the distances from [a] to [b] and from [b] to [c]; a distance is
    again a 160-bit unsigned integer. *)
Theorem xor_distance_laws (a b c : Z) :
  is_node_id a = true -> is_node_id b = true -> is_node_id c = true ->
  distance a a = 0
  /\ distance a b = distance b a
  /\ distance a c <= Z.lxor (distance a b) (distance b c)
  /\ bitwise_le (distance a c) (Z.lxor (distance a b) (distance b c))
  /\ is_node_id (distance a b) = true.
Proof.
  intros A B C.
  split; [apply distance_refl|]. split; [apply distance_sym|].
  rewrite <- distance_through.
  split; [lia|]. split; [intros i H; exact H|].
  now apply distance_is_node_id.
Qed.

Lemma xor_distance_laws_witness :
  distance 5 5 = 0
  /\ distance 5 (2 ^ 159 + 3) = distance (2 ^ 159 + 3) 5
  /\ distance 5 12 <= Z.lxor (distance 5 (2 ^ 159 + 3)) (distance (2 ^ 159 + 3) 12)
  /\ bitwise_le (distance 5 12)
       (Z.lxor (distance 5 (2 ^ 159 + 3)) (distance (2 ^ 159 + 3) 12))
  /\ is_node_id (distance 5 (2 ^ 159 + 3)) = true.
Proof.
  apply (xor_distance_laws 5 (2 ^ 159 + 3) 12); reflexivity.
Defined.

Example distance_values :
  distance 5 12 = 9 /\ distance 5 3 = 6 /\ distance 3 12 = 15
  /\ Z.lxor 6 15 = 9.
Proof. repeat split. Qed.

End DhtFacts.

(** ** The automatic discovery loop *)
Module DiscoveryFacts.

Import Discovery.

Local Open Scope Z_scope.

Ltac Zify.zify_post_hook ::= Z.to_euclidean_division_equations.

Lemma endpoint_eqb_eq (a b : Endpoint) : endpoint_eqb a b = true <-> a = b.
Proof.
  unfold endpoint_eqb. rewrite andb_true_iff, String.eqb_eq, Z.eqb_eq.
  destruct a, b; simpl. split; [intros [-> ->]; reflexivity|].
  intros [= -> ->]. now split.
Qed.

Section Loop.

Variable env : Env.
Variable listen_port : Z.
Variable t0 : Z.

(** The state the loop is in when it has run for [i] seconds: the next
    announce and the next search are due at the next multiples of their
    intervals, and the blacklist holds the failures seen so far. *)
Definition on_schedule (i : nat) (st : State) : Prop :=
  next_announce st = t0 + ANNOUNCE_INTERVAL * ((Z.of_nat i + 599) / 600)
  /\ next_search st = t0 + SEARCH_INTERVAL * ((Z.of_nat i + 299) / 300)
  /\ blacklist st = history env t0 i.

(** What the loop does in its second number [i]. *)
Definition on_time (i : nat) (acts : list Action) : Prop :=
  let now := t0 + Z.of_nat i in
  existsb is_announce acts = (Z.of_nat i mod 600 =? 0)
  /\ existsb is_search acts = (Z.of_nat i mod 300 =? 0)
  /\ (forall p, In (AnnouncePeer p) acts -> p = listen_port)
  /\ enqueued acts
     = if Z.of_nat i mod 300 =? 0
       then filter (fun e => negb (is_live env now e)
                             && negb (blacklisted (history env t0 (S i)) now e))
                   (found env now)
       else [].

Lemma start_on_schedule : on_schedule 0 (start t0).
Proof.
  unfold on_schedule, start. cbn [next_announce next_search blacklist history].
  change (Z.of_nat 0) with 0.
  change ((0 + 599) / 600) with 0. change ((0 + 299) / 300) with 0.
  rewrite !Z.mul_0_r, Z.add_0_r. repeat split.
Qed.

Lemma no_announce_in_connects (l : list Endpoint) :
  existsb is_announce (map EnqueueConnect l) = false.
Proof. induction l; simpl; auto. Qed.

Lemma no_search_in_connects (l : list Endpoint) :
  existsb is_search (map EnqueueConnect l) = false.
Proof. induction l; simpl; auto. Qed.

Lemma enqueued_connects (l : list Endpoint) : enqueued (map EnqueueConnect l) = l.
Proof.
  unfold enqueued. induction l as [|e l IH]; simpl; [reflexivity|].
  now f_equal.
Qed.

Lemma announce_in_connects (l : list Endpoint) (p : Z) :
  ~ In (AnnouncePeer p) (map EnqueueConnect l).
Proof.
  intros H. apply in_map_iff in H. destruct H as (e & E & _). discriminate E.
Qed.

(** The actions of one pass, by what was due. *)
Lemma actions_of_pass (announce_due search_due : bool) (c : list Endpoint) :
  let acts := (if announce_due then [AnnouncePeer listen_port] else [])
              ++ (if search_due then GetPeers :: map EnqueueConnect c else []) in
  existsb is_announce acts = announce_due
  /\ existsb is_search acts = search_due
  /\ (forall p, In (AnnouncePeer p) acts -> p = listen_port)
  /\ enqueued acts = if search_due then c else [].
Proof.
  cbn zeta. rewrite !existsb_app. unfold enqueued at 1. rewrite flat_map_app.
  fold (enqueued (if announce_due then [AnnouncePeer listen_port] else [])).
  fold (enqueued (if search_due then GetPeers :: map EnqueueConnect c else [])).
  assert (I : forall p,
             In (AnnouncePeer p)
                ((if announce_due then [AnnouncePeer listen_port] else [])
                 ++ (if search_due then GetPeers :: map EnqueueConnect c else []))
             -> p = listen_port).
  { intros p H. apply in_app_or in H. destruct H as [H|H].
    - destruct announce_due; [|contradiction].
      destruct H as [[= <-]|[]]. reflexivity.
    - destruct search_due; [|contradiction].
      destruct H as [H|H]; [discriminate H|].
      now apply announce_in_connects in H. }
  destruct announce_due, search_due; cbn [existsb is_announce is_search orb];
    rewrite ?no_announce_in_connects, ?no_search_in_connects;
    change (enqueued [AnnouncePeer listen_port]) with (@nil Endpoint);
    change (enqueued []) with (@nil Endpoint);
    change (enqueued (GetPeers :: map EnqueueConnect c))
      with (enqueued (map EnqueueConnect c));
    rewrite ?enqueued_connects; repeat split; exact I.
Qed.

Lemma step_on_schedule (i : nat) (st : State) :
  on_schedule i st ->
  on_schedule (S i) (fst (step env listen_port (t0 + Z.of_nat i) st))
  /\ on_time i (snd (step env listen_port (t0 + Z.of_nat i) st)).
Proof.
  intros (A & S & B). unfold step. cbn [fst snd]. rewrite A, S, B.
  unfold ANNOUNCE_INTERVAL, SEARCH_INTERVAL.
  assert (DA : (t0 + 600 * ((Z.of_nat i + 599) / 600) <=? t0 + Z.of_nat i)
               = (Z.of_nat i mod 600 =? 0)).
  { destruct (Z.eqb_spec (Z.of_nat i mod 600) 0);
      [apply Z.leb_le|apply Z.leb_gt]; lia. }
  assert (DS : (t0 + 300 * ((Z.of_nat i + 299) / 300) <=? t0 + Z.of_nat i)
               = (Z.of_nat i mod 300 =? 0)).
  { destruct (Z.eqb_spec (Z.of_nat i mod 300) 0);
      [apply Z.leb_le|apply Z.leb_gt]; lia. }
  rewrite DA, DS. split.
  - unfold on_schedule. cbn [next_announce next_search blacklist history].
    unfold ANNOUNCE_INTERVAL, SEARCH_INTERVAL.
    split; [|split; [|reflexivity]].
    + destruct (Z.eqb_spec (Z.of_nat i mod 600) 0); lia.
    + destruct (Z.eqb_spec (Z.of_nat i mod 300) 0); lia.
  - unfold on_time. cbn zeta. apply actions_of_pass.
Qed.

(** The loop keeps to its schedule second after second. *)
Lemma run_on_schedule (n : nat) :
  forall (i : nat) (st : State),
    on_schedule i st ->
    forall j, (j < n)%nat ->
      exists acts,
        nth_error (run env listen_port n (t0 + Z.of_nat i) st) j
        = Some (t0 + Z.of_nat (i + j), acts)
        /\ on_time (i + j) acts.
Proof.
  induction n as [|n IH]; intros i st Inv j L; [lia|].
  destruct (step_on_schedule i st Inv) as [Next Now].
  cbn [run]. destruct (step env listen_port (t0 + Z.of_nat i) st) as [st' acts].
  cbn [fst snd] in *. destruct j as [|j].
  - exists acts. rewrite Nat.add_0_r. split; [reflexivity|exact Now].
  - cbn [nth_error].
    replace (t0 + Z.of_nat i + 1) with (t0 + Z.of_nat (S i)) by lia.
    destruct (IH (S i) st' Next j ltac:(lia)) as (acts' & E & T).
    exists acts'. replace (i + S j)%nat with (S i + j)%nat by lia.
    split; assumption.
Qed.

(** An endpoint is on the blacklist when an attempt to reach it failed less
    than ten minutes ago. *)
Lemma blacklisted_history (n : nat) (now : Z) (e : Endpoint) :
  blacklisted (history env t0 n) now e = true
  <-> exists j, (j < n)%nat
                /\ In e (failed env (t0 + Z.of_nat j))
                /\ now < t0 + Z.of_nat j + BLACKLIST_TTL.
Proof.
  unfold blacklisted. induction n as [|n IH]; cbn [history existsb].
  - split; [discriminate|]. intros (j & L & _). lia.
  - rewrite existsb_app, orb_true_iff, IH. split.
    + intros [H|(j & L & H)].
      * apply existsb_exists in H. destruct H as ([e' t] & I & H).
        apply in_map_iff in I. destruct I as (e'' & [= -> <-] & I).
        apply andb_true_iff in H. destruct H as [H1 H2]. cbn [fst snd] in *.
        apply endpoint_eqb_eq in H1. subst e'. apply Z.ltb_lt in H2.
        exists n. repeat split; [lia|exact I|exact H2].
      * exists j. split; [lia|exact H].
    + intros (j & L & I & T).
      destruct (Nat.eq_dec j n) as [->|NE].
      * left. apply existsb_exists.
        exists (e, t0 + Z.of_nat n + BLACKLIST_TTL). split.
        -- apply in_map_iff. exists e. split; [reflexivity|exact I].
        -- cbn [fst snd]. apply andb_true_iff. split.
           ++ now apply endpoint_eqb_eq.
           ++ now apply Z.ltb_lt.
      * right. exists j. repeat split; [lia|exact I|exact T].
Qed.

End Loop.

(** C6.  While the loop runs, started at [t0]: in its second number [i] it
    announces on the discovery hash exactly when [i] is a multiple of 600
    (every 10 minutes), with the listening port, and searches exactly when
    [i] is a multiple of 300 (every 5 minutes); at each search it enqueues a
    connect for exactly the returned endpoints that are not live peers and
    not on the blacklist, where an endpoint is on the blacklist when an
    attempt to reach it failed less than 10 minutes before.  The client's
    [dht_discovery_status] command reports these two periods while the
    automatic discovery is running. *)
Theorem discovery_schedule (env : Env) (listen_port t0 : Z) (n i : nat)
    (w : Cli.World) (k : nat) :
  (i < n)%nat ->
  (exists acts,
     let now := t0 + Z.of_nat i in
     nth_error (run env listen_port n t0 (start t0)) i = Some (now, acts)
     /\ existsb is_announce acts = (Z.of_nat i mod 600 =? 0)
     /\ existsb is_search acts = (Z.of_nat i mod 300 =? 0)
     /\ (forall p, In (AnnouncePeer p) acts -> p = listen_port)
     /\ enqueued acts
        = (if Z.of_nat i mod 300 =? 0
           then filter (fun e => negb (is_live env now e)
                                 && negb (blacklisted (history env t0 (S i)) now e))
                       (found env now)
           else [])
     /\ (forall e, blacklisted (history env t0 (S i)) now e = true
                   <-> exists j, (j <= i)%nat
                                 /\ In e (failed env (t0 + Z.of_nat j))
                                 /\ now < t0 + Z.of_nat j + 600))
  /\ (Cli.ret_bool w k "is_automatic_discovery_running" = true ->
      In (Cli.Log Cli.INFO
            [Cli.Txt "  - Announcing our presence for the rats discovery hash every 10 minutes"])
         (Cli.arm_dht_discovery_status w k)
      /\ In (Cli.Log Cli.INFO
               [Cli.Txt "  - Searching for other rats peers every 5 minutes"])
            (Cli.arm_dht_discovery_status w k)).
Proof.
  intros L. split.
  - destruct (run_on_schedule env listen_port t0 n 0 (start t0)
                (start_on_schedule env t0) i L) as (acts & E & T).
    change (Z.of_nat 0) with 0 in E. rewrite Z.add_0_r in E.
    cbn [Nat.add] in *. destruct T as (T1 & T2 & T3 & T4).
    exists acts. cbn zeta. repeat split; try assumption.
    + intros H. apply blacklisted_history in H.
      destruct H as (j & Lj & H). exists j. split; [lia|exact H].
    + intros (j & Lj & H). apply blacklisted_history.
      exists j. split; [lia|exact H].
  - intros R. unfold Cli.arm_dht_discovery_status. rewrite R.
    split; apply in_or_app; right; apply in_or_app; left; simpl; tauto.
Qed.

Lemma discovery_schedule_witness :
  exists acts,
    nth_error (run (mk_Env (fun _ => [mk_Endpoint "192.0.2.7" 8080;
                                      mk_Endpoint "192.0.2.8" 8080])
                      (fun _ => [mk_Endpoint "192.0.2.8" 8080])
                      (fun _ => []))
                 8080 1 1000 (start 1000)) 0
    = Some (1000, acts)
    /\ existsb is_announce acts = true
    /\ existsb is_search acts = true
    /\ enqueued acts = [mk_Endpoint "192.0.2.7" 8080].
Proof.
  destruct (proj1 (discovery_schedule
                     (mk_Env (fun _ => [mk_Endpoint "192.0.2.7" 8080;
                                        mk_Endpoint "192.0.2.8" 8080])
                        (fun _ => [mk_Endpoint "192.0.2.8" 8080])
                        (fun _ => []))
                     8080 1000 1 0 (Samples.sample_world true 9) 1
                     (Nat.lt_0_succ 0)))
    as (acts & E & A & S & _ & Q & _).
  exists acts. repeat split; assumption.
Defined.

Example discovery_first_quarter_hour :
  map (fun r => (fst r, existsb is_announce (snd r), existsb is_search (snd r)))
      (filter (fun r => negb (Nat.eqb (List.length (snd r)) 0))
         (run (mk_Env (fun _ => []) (fun _ => []) (fun _ => [])) 8080 901 0 (start 0)))
  = [(0, true, true); (300, false, true); (600, true, true); (900, false, true)].
Proof. vm_compute. reflexivity. Qed.

End DiscoveryFacts.

(** ** More on [network_utils.cpp] *)
Module NetworkUtilsMore.

Import Str StrFacts NetworkUtils Observations.

Section Resolution.

Variable os : Platform.

(** *** IPv6 literals *)

(** X1.  An IPv6 literal goes through the IPv6 resolvers unchanged, and any
    literal of either family goes through the dual-stack resolver
    unchanged; the IPv6 resolver maps the empty string to the empty
    string. *)
Theorem ipv6_literal_passthrough :
  (forall s, is_valid_ipv6 os s = true ->
             resolve_hostname_v6 os s = s /\ resolve_all_addresses_v6 os s = [s])
  /\ (forall s, is_valid_ipv4 os s = true \/ is_valid_ipv6 os s = true ->
                resolve_all_addresses_dual os s = [s])
  /\ resolve_hostname_v6 os "" = "".
Proof.
  split; [|split; [|reflexivity]].
  - intros s V. split.
    + unfold resolve_hostname_v6. destruct s; [reflexivity|].
      cbn [empty]. now rewrite V.
    + unfold resolve_all_addresses_v6. now rewrite V.
  - intros s V. unfold resolve_all_addresses_dual.
    destruct (is_valid_ipv4 os s); [reflexivity|].
    destruct V as [V|V]; [discriminate|]. now rewrite V.
Qed.

(** *** Lookups that fail *)

Lemma collect_addresses_map (af : family) (l : list addrinfo) :
  collect_addresses os af l [] = map (fun rp => inet_ntop os af (ai_addr rp)) l.
Proof. unfold collect_addresses. now rewrite push_back_fold. Qed.

(** X2.  The resolvers that return a list return the empty list exactly when the
    name is no literal and the lookup gave nothing: [getaddrinfo] failed, or,
    for the dual-stack resolver, it also may have listed no IPv4 and no
    IPv6 entry. *)
Theorem empty_resolution (hostname : string) :
  (resolve_all_addresses os hostname = [] <->
   is_valid_ipv4 os hostname = false
   /\ exists status, getaddrinfo os (c_str hostname) AF_INET = gai_error status)
  /\ (resolve_all_addresses_v6 os hostname = [] <->
      is_valid_ipv6 os hostname = false
      /\ exists status, getaddrinfo os (c_str hostname) AF_INET6 = gai_error status)
  /\ (resolve_all_addresses_dual os hostname = [] <->
      is_valid_ipv4 os hostname = false /\ is_valid_ipv6 os hostname = false
      /\ forall rp, In rp (gai_list (getaddrinfo os (c_str hostname) AF_UNSPEC)) ->
                    is_inet (ai_family rp) = false).
Proof.
  split; [|split].
  - unfold resolve_all_addresses.
    destruct (is_valid_ipv4 os hostname).
    + split; [discriminate|]. intros [H _]. discriminate.
    + destruct (getaddrinfo os (c_str hostname) AF_INET) as [st|first rest].
      * split; [|reflexivity]. intros _. split; [reflexivity|]. now exists st.
      * rewrite collect_addresses_map. split; [discriminate|].
        intros (_ & st & H). discriminate.
  - unfold resolve_all_addresses_v6.
    destruct (is_valid_ipv6 os hostname).
    + split; [discriminate|]. intros [H _]. discriminate.
    + destruct (getaddrinfo os (c_str hostname) AF_INET6) as [st|first rest].
      * split; [|reflexivity]. intros _. split; [reflexivity|]. now exists st.
      * rewrite collect_addresses_map. split; [discriminate|].
        intros (_ & st & H). discriminate.
  - rewrite NetworkUtilsFacts.resolve_all_addresses_dual_order.
    destruct (is_valid_ipv4 os hostname); simpl orb.
    + split; [discriminate|]. intros [H _]. discriminate.
    + destruct (is_valid_ipv6 os hostname).
      * split; [discriminate|]. intros (_ & H & _). discriminate.
      * generalize (gai_list (getaddrinfo os (c_str hostname) AF_UNSPEC)) as l.
        intros l. split.
        -- intros E. repeat split. intros rp I.
           destruct (is_inet (ai_family rp)) eqn:F; [|reflexivity].
           assert (J : In rp (filter (fun rp => is_inet (ai_family rp)) l))
             by (apply filter_In; now split).
           apply (in_map (address_text os)) in J. rewrite E in J. contradiction.
        -- intros (_ & _ & H).
           assert (E : filter (fun rp => is_inet (ai_family rp)) l = []).
           { induction l as [|rp l IH]; [reflexivity|]. simpl.
             rewrite (H rp) by now left. apply IH.
             intros rp' I. apply H. now right. }
           now rewrite E.
Qed.

(** X3.  For a name that is not empty, the single-address resolvers return the
    first address of the list their all-addresses siblings return, and the
    empty string when that list is empty. *)
Theorem resolve_hostname_is_first_address (hostname : string) :
  hostname <> "" ->
  resolve_hostname os hostname = hd "" (resolve_all_addresses os hostname)
  /\ resolve_hostname_v6 os hostname
     = hd "" (resolve_all_addresses_v6 os hostname).
Proof.
  intros NE. destruct hostname as [|c t]; [congruence|].
  unfold resolve_hostname, resolve_all_addresses, resolve_hostname_v6,
    resolve_all_addresses_v6. cbn [empty]. split.
  - destruct (is_valid_ipv4 os (String c t)); [reflexivity|].
    destruct (getaddrinfo os (c_str (String c t)) AF_INET) as [st|first rest];
      [reflexivity|].
    now rewrite collect_addresses_map.
  - destruct (is_valid_ipv6 os (String c t)); [reflexivity|].
    destruct (getaddrinfo os (c_str (String c t)) AF_INET6) as [st|first rest];
      [reflexivity|].
    now rewrite collect_addresses_map.
Qed.

End Resolution.

Lemma resolve_hostname_is_first_address_witness :
  resolve_hostname Samples.sample_os "dual.example"
  = hd "" (resolve_all_addresses Samples.sample_os "dual.example")
  /\ resolve_hostname_v6 Samples.sample_os "dual.example"
     = hd "" (resolve_all_addresses_v6 Samples.sample_os "dual.example").
Proof.
  apply (resolve_hostname_is_first_address Samples.sample_os "dual.example").
  discriminate.
Defined.

Lemma ipv6_literal_passthrough_witness :
  resolve_hostname_v6 Samples.sample_os "2001:db8::1" = "2001:db8::1"
  /\ resolve_all_addresses_v6 Samples.sample_os "2001:db8::1" = ["2001:db8::1"].
Proof.
  apply (proj1 (ipv6_literal_passthrough Samples.sample_os)). reflexivity.
Defined.

Lemma empty_resolution_witness :
  resolve_all_addresses Samples.sample_os "no.such.host" = []
  /\ resolve_all_addresses_dual Samples.sample_os "no.such.host" = [].
Proof.
  split.
  - apply (proj1 (empty_resolution Samples.sample_os "no.such.host")).
    split; [reflexivity|]. now exists (-2)%Z.
  - apply (proj2 (proj2 (empty_resolution Samples.sample_os "no.such.host"))).
    repeat split. intros rp [].
Defined.

(** *** [is_hostname], completely *)

Lemma prefix_split (p s : string) :
  prefix p s = true -> exists b, s = (p ++ b)%string.
Proof.
  revert s. induction p as [|c p IH]; intros s H.
  - exists s. reflexivity.
  - destruct s as [|d s]; [discriminate|]. simpl in H.
    destruct (ascii_dec c d) as [->|]; [|discriminate].
    destruct (IH s H) as (b & ->). now exists b.
Qed.

Lemma find_split (pat s : string) (n : nat) :
  find pat s = Some n -> exists a b, s = (a ++ pat ++ b)%string.
Proof.
  revert n. induction s as [|c s IH]; intros n; rewrite find_unfold.
  - destruct (prefix pat "") eqn:P; [|discriminate].
    intros _. destruct (prefix_split _ _ P) as (b & E). now exists "", b.
  - destruct (prefix pat (String c s)) eqn:P.
    + intros _. destruct (prefix_split _ _ P) as (b & E). now exists "", b.
    + destruct (find pat s) as [m|]; [|discriminate].
      intros _. destruct (IH m eq_refl) as (a & b & ->).
      now exists (String c a), b.
Qed.

Lemma hostname_chars_ok_iff (s : string) :
  hostname_chars_ok s = true
  <-> forall c, In c (list_ascii_of_string s) -> invalid_hostname_char c = false.
Proof.
  induction s as [|c s IH]; cbn [hostname_chars_ok list_ascii_of_string].
  - split; [contradiction|reflexivity].
  - destruct (invalid_hostname_char c) eqn:I.
    + split; [discriminate|]. intros H.
      rewrite (H c) in I by now left. discriminate.
    + rewrite IH. split.
      * intros H d [<-|D]; [exact I|now apply H].
      * intros H d D. apply H. now right.
Qed.

(** X4.  [is_hostname] answers true exactly for the strings that are no IPv4 and
    no IPv6 literal, are not empty, have at most 253 characters, neither
    begin nor end with a dot or a hyphen, contain no two dots in a row and
    none of the thirty characters the last loop rejects.  The comparison
    with ["."] decides nothing: a string equal to ["."] begins with a
    dot. *)
Theorem is_hostname_iff (os : Platform) (s : string) :
  is_hostname os s = true
  <-> is_valid_ipv4 os s = false /\ is_valid_ipv6 os s = false
      /\ s <> "" /\ (String.length s <= 253)%nat
      /\ front s <> "."%char /\ back s <> "."%char
      /\ front s <> "-"%char /\ back s <> "-"%char
      /\ (forall a b : string, s <> (a ++ ".." ++ b)%string)
      /\ (forall c, In c (list_ascii_of_string s) -> invalid_hostname_char c = false).
Proof.
  split.
  - intros T.
    destruct (NetworkUtilsFacts.is_hostname_true os s T)
      as (V4 & V6 & E & L & F1 & B1 & F2 & B2 & F & C).
    repeat split; try assumption.
    + intros ->. discriminate.
    + intros a b ->. now apply (find_occurrence ".." a b).
    + now apply hostname_chars_ok_iff.
  - intros (V4 & V6 & NE & L & F1 & B1 & F2 & B2 & F & C).
    unfold is_hostname. rewrite V4, V6. cbn [orb].
    destruct s as [|c0 s0] eqn:Es; [congruence|]. rewrite <- Es in *.
    assert (Emp : empty s = false) by (rewrite Es; reflexivity).
    rewrite Emp. cbn [orb].
    apply Nat.ltb_ge in L. rewrite L.
    apply Ascii.eqb_neq in F1, B1, F2, B2. rewrite F1, B1, F2, B2. cbn [orb].
    destruct (find ".." s) as [n|] eqn:Fd.
    { destruct (find_split _ _ _ Fd) as (a & b & E). now elim (F a b). }
    destruct (String.eqb_spec s ".") as [D|D].
    { rewrite D in F1. discriminate F1. }
    now apply hostname_chars_ok_iff.
Qed.

Lemma is_hostname_iff_witness :
  is_hostname Samples.sample_os "my-host.example" = true.
Proof.
  apply (proj2 (is_hostname_iff Samples.sample_os "my-host.example")).
  repeat split; try reflexivity; try discriminate.
  - simpl. lia.
  - intros a b E.
    assert (F : find ".." "my-host.example" <> None)
      by (rewrite E; apply find_occurrence).
    now apply F.
  - intros c H. simpl in H.
    repeat (destruct H as [<-|H]; [reflexivity|]). contradiction.
Defined.

(** *** Local interface addresses *)

Section Interfaces.

Variable os : Platform.

Lemma ifaddr_step_fold (af : family) (l : list ifaddrs) (acc : list string) :
  fold_left (ifaddr_step os af) l acc
  = acc ++ map (inet_ntop os af) (interface_addresses af l).
Proof.
  revert acc. induction l as [|ifa l IH]; intros acc.
  - simpl. now rewrite app_nil_r.
  - cbn [fold_left]. rewrite IH. unfold ifaddr_step, interface_addresses.
    cbn [flat_map]. destruct (ifa_addr ifa) as [[fam addr]|]; [|reflexivity].
    destruct (family_eqb fam af); [|reflexivity].
    unfold push_back. rewrite <- app_assoc. reflexivity.
Qed.

Lemma family_eqb_eq (a b : family) : family_eqb a b = true -> a = b.
Proof.
  destruct a, b; try discriminate; try reflexivity.
  simpl. intros Q. apply Nat.eqb_eq in Q. now subst.
Qed.

Lemma in_local_addresses_iff (l : list string) (ip : string) :
  in_local_addresses l ip = true <-> In ip l.
Proof.
  induction l as [|a l IH]; simpl; [split; [discriminate|contradiction]|].
  destruct (String.eqb_spec a ip) as [->|N].
  - split; [now left|reflexivity].
  - rewrite IH. split; [now right|]. intros [E|I]; [congruence|exact I].
Qed.

Lemma local_addresses_of_entries :
  get_local_interface_addresses os
  = match getifaddrs os with
    | None => []
    | Some l =>
        map (inet_ntop os AF_INET) (interface_addresses AF_INET l)
        ++ map (inet_ntop os AF_INET6) (interface_addresses AF_INET6 l)
    end.
Proof.
  unfold get_local_interface_addresses, get_local_interface_addresses_v4,
    get_local_interface_addresses_v6.
  destruct (getifaddrs os) as [l|]; [|reflexivity].
  now rewrite !ifaddr_step_fold.
Qed.

(** X5.  The list of local addresses holds the text of the IPv4 address of every
    interface entry that has one, in the order of [getifaddrs], followed by
    the text of the IPv6 addresses; entries without an address or of
    another family are skipped, and the list is empty when [getifaddrs]
    fails. *)
Theorem local_interface_addresses_listed :
  get_local_interface_addresses os
  = match getifaddrs os with
    | None => []
    | Some l =>
        map (inet_ntop os AF_INET) (interface_addresses AF_INET l)
        ++ map (inet_ntop os AF_INET6) (interface_addresses AF_INET6 l)
    end
  /\ get_local_interface_addresses os
     = get_local_interface_addresses_v4 os ++ get_local_interface_addresses_v6 os.
Proof.
  split; [exact local_addresses_of_entries|reflexivity].
Qed.

(** X6.  An address is local exactly when it is one of the three names of the
    local host or the text, as [inet_ntop] writes it, of the IPv4 or IPv6
    address of an interface entry; when [getifaddrs] fails only the three
    names are local. *)
Theorem is_local_interface_address_iff (ip_address : string) :
  is_local_interface_address os ip_address = true
  <-> (ip_address = "127.0.0.1" \/ ip_address = "::1" \/ ip_address = "localhost")
      \/ exists l ifa af addr,
           getifaddrs os = Some l /\ In ifa l
           /\ ifa_addr ifa = Some (af, addr)
           /\ (af = AF_INET \/ af = AF_INET6)
           /\ inet_ntop os af addr = ip_address.
Proof.
  rewrite NetworkUtilsFacts.is_local_interface_address_spec.
  rewrite !orb_true_iff, !String.eqb_eq, in_local_addresses_iff.
  rewrite local_addresses_of_entries.
  assert (M : forall af l,
             In ip_address (map (inet_ntop os af) (interface_addresses af l))
             <-> exists ifa addr, In ifa l /\ ifa_addr ifa = Some (af, addr)
                                  /\ inet_ntop os af addr = ip_address).
  { intros af l. rewrite in_map_iff. unfold interface_addresses. split.
    - intros (addr & E & I). apply in_flat_map in I.
      destruct I as (ifa & I & A).
      destruct (ifa_addr ifa) as [[fam a]|] eqn:F; [|contradiction].
      destruct (family_eqb fam af) eqn:Q; [|contradiction].
      destruct A as [<-|[]]. apply family_eqb_eq in Q. subst fam.
      exists ifa, a. repeat split; assumption.
    - intros (ifa & addr & I & F & E). exists addr. split; [exact E|].
      apply in_flat_map. exists ifa. split; [exact I|]. rewrite F.
      assert (Q : family_eqb af af = true)
        by (destruct af; try reflexivity; apply Nat.eqb_refl).
      rewrite Q. now left. }
  split.
  - intros [I|[[H|H]|H]]; try (left; tauto).
    destruct (getifaddrs os) as [l|]; [|contradiction].
    apply in_app_or in I. right.
    destruct I as [I|I]; apply M in I; destruct I as (ifa & addr & I & F & E).
    + exists l, ifa, AF_INET, addr. tauto.
    + exists l, ifa, AF_INET6, addr. tauto.
  - intros [H|(l & ifa & af & addr & G & I & F & A & E)]; [right; tauto|].
    left. rewrite G. apply in_or_app.
    destruct A as [-> | ->]; [left|right]; apply M; now exists ifa, addr.
Qed.

End Interfaces.

Lemma is_local_interface_address_iff_witness :
  is_local_interface_address Samples.sample_os "10.0.0.5" = true.
Proof.
  apply (proj2 (is_local_interface_address_iff Samples.sample_os "10.0.0.5")).
  right.
  exists [mk_ifaddrs "lo" None;
          mk_ifaddrs "eth0" (Some (AF_INET, [10; 0; 0; 5]%N));
          mk_ifaddrs "eth0" (Some (AF_INET6, Samples.addr_2001_db8__1))],
    (mk_ifaddrs "eth0" (Some (AF_INET, [10; 0; 0; 5]%N))), AF_INET, [10; 0; 0; 5]%N.
  repeat split; try reflexivity.
  - right; left; reflexivity.
  - now left.
Defined.

(** *** Strings with an embedded NUL *)

Lemma c_str_append_nul (s t : string) :
  c_str s = s -> c_str (s ++ String zero t) = s.
Proof.
  induction s as [|c s IH]; cbn [append c_str]; [reflexivity|].
  destruct (Ascii.eqb c zero); [discriminate|].
  intros [= E]. now rewrite (IH E).
Qed.

(** X7.  The C functions see a [std::string] up to its first NUL.  For a string
    [s] without NUL, appending a NUL and any bytes changes neither the
    validity tests nor the lookup of a name that is no literal; but when [s]
    is an IPv4 literal the resolvers return the longer string, bytes after
    the NUL included, as the address. *)
Theorem bytes_after_nul (os : Platform) (s t : string) :
  c_str s = s ->
  let longer := (s ++ String zero t)%string in
  is_valid_ipv4 os longer = is_valid_ipv4 os s
  /\ is_valid_ipv6 os longer = is_valid_ipv6 os s
  /\ (is_valid_ipv4 os s = false ->
      resolve_all_addresses os longer = resolve_all_addresses os s)
  /\ (is_valid_ipv4 os s = true ->
      resolve_hostname os longer = longer
      /\ resolve_all_addresses os longer = [longer]
      /\ is_hostname os longer = false).
Proof.
  intros N longer.
  assert (C : c_str longer = c_str s)
    by (unfold longer; now rewrite c_str_append_nul, N).
  assert (V4 : is_valid_ipv4 os longer = is_valid_ipv4 os s)
    by (unfold is_valid_ipv4; now rewrite C).
  assert (V6 : is_valid_ipv6 os longer = is_valid_ipv6 os s)
    by (unfold is_valid_ipv6; now rewrite C).
  split; [exact V4|]. split; [exact V6|]. split.
  - intros F. unfold resolve_all_addresses. now rewrite V4, F, C.
  - intros T. rewrite <- V4 in T. repeat split.
    + now apply NetworkUtilsFacts.resolve_hostname_literal.
    + now apply NetworkUtilsFacts.resolve_all_addresses_literal.
    + apply NetworkUtilsFacts.is_hostname_not_ip. now left.
Qed.

Lemma bytes_after_nul_witness :
  resolve_hostname Samples.sample_os ("192.0.2.7" ++ String zero ".evil.example")
  = ("192.0.2.7" ++ String zero ".evil.example")%string.
Proof.
  apply (bytes_after_nul Samples.sample_os "192.0.2.7" ".evil.example" eq_refl).
  reflexivity.
Defined.

End NetworkUtilsMore.

(** ** More on [main.cpp] *)
Module CliMore.

Import Str IOStream Cli CliFacts Observations.

(** *** Streams that have reached their end *)

Lemma good_failed (b : string) (e : bool) : good (mk_istream b e true) = false.
Proof. unfold good. cbn [eofbit failbit negb]. apply andb_false_r. Qed.

Lemma getline_not_good (cin : istream) (input : string) :
  good cin = false ->
  getline cin input = (mk_istream (buf cin) (eofbit cin) true, input).
Proof. intros G. unfold getline. now rewrite G. Qed.

Lemma extract_string_not_good (iss : istream) (str : string) :
  good iss = false ->
  extract_string iss str = (mk_istream (buf iss) (eofbit iss) true, str).
Proof. intros G. unfold extract_string, sentry. now rewrite G. Qed.

Lemma extract_int_not_good (iss : istream) (val : Z) :
  good iss = false ->
  extract_int iss val = (mk_istream (buf iss) (eofbit iss) true, val).
Proof. intros G. unfold extract_int, sentry. now rewrite G. Qed.

(** A line without newline is read whole, and what follows its newline is
    left in the stream. *)
Lemma read_line_append (l rest : string) :
  read_line l = (l, None) ->
  read_line (l ++ String "010" rest) = (l, Some rest).
Proof.
  induction l as [|c l IH]; cbn [append read_line]; [reflexivity|].
  destruct (Ascii.eqb c "010"); [discriminate|].
  destruct (read_line l) as [l' r] eqn:E. intros [= E1 E2]. subst l' r.
  now rewrite IH.
Qed.

Lemma getline_line (l rest input : string) :
  read_line l = (l, None) ->
  getline (istringstream (l ++ String "010" rest)) input
  = (istringstream rest, l).
Proof.
  intros H. unfold getline, istringstream. cbn [good eofbit failbit negb andb buf].
  now rewrite (read_line_append l rest H).
Qed.

Lemma getline_last (last input : string) :
  read_line last = (last, None) ->
  getline (istringstream last) input = (mk_istream "" true (empty last), last).
Proof.
  intros H. unfold getline, istringstream. cbn [good eofbit failbit negb andb buf].
  now rewrite H.
Qed.

(** *** The end of the input *)

(** Once [std::cin] is no longer good, every read fails and leaves [input]
    as it was: while the client keeps running, the loop goes on for ever
    with the last line read, executing it again in every iteration, unless
    that line is [quit] or [exit]. *)
Lemma command_loop_at_end (w : World) (listen_port : Z) (input : string) :
  (forall k, ret_bool w k "is_running" = true) ->
  is_quit_line input = false ->
  forall fuel k cin,
    good cin = false ->
    fst (command_loop fuel w listen_port k cin input) = StillLooping.
Proof.
  intros R Q. induction fuel as [|fuel IH]; intros k cin G; [reflexivity|].
  rewrite command_loop_S. cbn zeta. rewrite R. cbn [negb].
  rewrite (getline_not_good cin input G). cbn [fst snd].
  unfold is_quit_line in Q.
  destruct (empty input); cbn [negb andb] in Q.
  - cbn [fst]. apply IH. apply good_failed.
  - rewrite Q. cbn [fst]. apply IH. apply good_failed.
Qed.

Lemma command_loop_never_quits (w : World) (listen_port : Z) (last : string) :
  (forall k, ret_bool w k "is_running" = true) ->
  read_line last = (last, None) -> is_quit_line last = false ->
  forall ls,
    Forall (fun l => read_line l = (l, None) /\ is_quit_line l = false) ls ->
    forall fuel k input,
      fst (command_loop fuel w listen_port k
             (istringstream (join_lines ls last)) input) = StillLooping.
Proof.
  intros R NL NQ ls H.
  induction H as [|l ls [Hl Ql] _ IH]; intros fuel k input;
    (destruct fuel as [|fuel]; [reflexivity|]);
    rewrite command_loop_S; cbn zeta; rewrite R; cbn [negb join_lines].
  - rewrite (getline_last last input NL). cbn [fst snd]. pose proof NQ as NQ'.
    unfold is_quit_line in NQ'.
    destruct (empty last) eqn:E; cbn [negb andb] in NQ'.
    + cbn [fst]. apply command_loop_at_end; [exact R|exact NQ|reflexivity].
    + rewrite NQ'. cbn [fst].
      apply command_loop_at_end; [exact R|exact NQ|reflexivity].
  - rewrite (getline_line l _ input Hl). cbn [fst snd].
    unfold is_quit_line in Ql.
    destruct (empty l); cbn [negb andb] in Ql.
    + cbn [fst]. apply IH.
    + rewrite Ql. cbn [fst]. apply IH.
Qed.

(** X8.  When the standard input ends and no line of it was [quit] or
    [exit], [main] never returns as long as [is_running()] answers true:
    whatever the number of iterations allowed, the loop is still running. *)
Theorem main_never_returns_without_quit (w : World) (argv : list string)
    (ls : list string) (last : string) (listen_port : Z) (peer : string * Z) :
  listen_port_of argv = Some listen_port ->
  peer_of argv = Some peer ->
  ret_bool w 0 "start" = true ->
  (forall k, ret_bool w k "is_running" = true) ->
  Forall (fun l => read_line l = (l, None) /\ is_quit_line l = false)
         (ls ++ [last]) ->
  forall fuel, outcome (main fuel w argv (join_lines ls last)) = Unfinished.
Proof.
  intros L P S R H fuel. destruct peer as [peer_host peer_port].
  rewrite (main_started fuel w argv _ _ _ _ L P S). cbn zeta.
  apply Forall_app in H. destruct H as [Hls Hlast].
  inversion Hlast as [|? ? [NL NQ] _]; subst.
  now rewrite (command_loop_never_quits w listen_port last R NL NQ ls Hls).
Qed.

Lemma main_never_returns_without_quit_witness :
  outcome (main 1000 Samples.busy_world ["rats"]
             (join_lines ["peers"; ""] "list")) = Unfinished.
Proof.
  apply (main_never_returns_without_quit Samples.busy_world ["rats"]
           ["peers"; ""] "list" 8080%Z ("", 0%Z) eq_refl eq_refl eq_refl
           (fun _ => eq_refl)).
  repeat constructor.
Defined.

(** *** What the exit code depends on *)

Lemma command_loop_end_depends (fuel : nat) :
  forall (w w' : World) (listen_port listen_port' : Z) (k : nat)
         (cin : istream) (input : string),
    (forall j, ret_bool w j "is_running" = ret_bool w' j "is_running") ->
    fst (command_loop fuel w listen_port k cin input)
    = fst (command_loop fuel w' listen_port' k cin input).
Proof.
  induction fuel as [|fuel IH]; intros w w' lp lp' k cin input R; [reflexivity|].
  rewrite !command_loop_S. cbn zeta. rewrite (R k).
  destruct (negb (ret_bool w' k "is_running")); [reflexivity|].
  destruct (empty (snd (getline cin input))); cbn [fst]; [now apply IH|].
  destruct (is_quit _); cbn [fst]; [reflexivity|now apply IH].
Qed.

(** X9.  The way [main] ends depends on the arguments, on the standard input,
    on the answer of [start()] and on the answers of [is_running()] only:
    no other answer of the library (a failed DHT start, a failed connect, a
    failed send) changes whether it returns, throws or goes on, nor the
    code it returns. *)
Theorem exit_code_depends_on_start_and_running (fuel : nat) (w w' : World)
    (argv : list string) (stdin : string) :
  ret_bool w 0 "start" = ret_bool w' 0 "start" ->
  (forall k, ret_bool w k "is_running" = ret_bool w' k "is_running") ->
  outcome (main fuel w argv stdin) = outcome (main fuel w' argv stdin).
Proof.
  intros S R. unfold main.
  destruct (listen_port_of argv) as [listen_port|]; [|reflexivity].
  destruct (peer_of argv) as [[peer_host peer_port]|]; [|reflexivity].
  rewrite S. destruct (negb (ret_bool w' 0 "start")); [reflexivity|].
  pose proof (command_loop_end_depends fuel w w' listen_port listen_port 1
                (istringstream stdin) "" R) as E.
  destruct (command_loop fuel w listen_port 1 (istringstream stdin) "") as [e tr].
  destruct (command_loop fuel w' listen_port 1 (istringstream stdin) "") as [e' tr'].
  cbn [fst] in E. subst e'. destruct e; reflexivity.
Qed.

Lemma exit_code_depends_on_start_and_running_witness :
  outcome (main 4 Samples.busy_world ["rats"; "8081"; "peer.example"; "8080"]
             "quit")
  = outcome (main 4 (mk_World (fun _ api => String.eqb api "start"
                                            || String.eqb api "is_running")
                       (fun _ _ => (-1)%Z) (fun _ _ => "") (fun _ => [])
                       (fun _ => []) (fun _ => None) Samples.bare_os
                       (fun _ => false) (-1)%Z 0%Z)
               ["rats"; "8081"; "peer.example"; "8080"] "quit").
Proof.
  apply exit_code_depends_on_start_and_running.
  - reflexivity.
  - intros k. reflexivity.
Defined.

(** *** Arguments that are not numbers *)

(** X10.  [main] is left by an exception exactly when [std::stoi] throws on the
    port ([argv[1]], read when there is one) or on the peer port ([argv[3]],
    read when there are at least three arguments); it then has done nothing
    but print the header and set the log level: no client was created and no
    callback registered. *)
Theorem main_throws_iff (fuel : nat) (w : World) (argv : list string)
    (stdin : string) :
  (outcome (main fuel w argv stdin) = Uncaught
   <-> ((2 <= List.length argv)%nat /\ stoi (nth 1 argv "") = None)
       \/ ((4 <= List.length argv)%nat /\ stoi (nth 3 argv "") = None))
  /\ (outcome (main fuel w argv stdin) = Uncaught ->
      calls (trace (main fuel w argv stdin)) = ["print_header"; "set_log_level"]
      /\ file_callbacks (main fuel w argv stdin) = None).
Proof.
  assert (Not : forall lp peer,
             listen_port_of argv = Some lp -> peer_of argv = Some peer ->
             outcome (main fuel w argv stdin) <> Uncaught).
  { intros lp [ph pp] L P. destruct (ret_bool w 0 "start") eqn:S.
    - rewrite (main_started fuel w argv stdin _ _ _ L P S). cbn zeta.
      destruct (fst (command_loop fuel w lp 1 (istringstream stdin) ""));
        discriminate.
    - rewrite (main_startup_failure fuel w argv stdin _ _ L P S). discriminate. }
  split.
  - split.
    + intros U. unfold listen_port_of, peer_of in Not.
      destruct (2 <=? List.length argv)%nat eqn:A2.
      * apply Nat.leb_le in A2.
        destruct (stoi (nth 1 argv "")) as [lp|] eqn:S1; [|left; now split].
        destruct (4 <=? List.length argv)%nat eqn:A4.
        -- apply Nat.leb_le in A4.
           destruct (stoi (nth 3 argv "")) as [pp|] eqn:S3; [|right; now split].
           now elim (Not lp (nth 2 argv "", pp)).
        -- now elim (Not lp ("", 0%Z)).
      * destruct (4 <=? List.length argv)%nat eqn:A4.
        -- apply Nat.leb_le in A4. apply Nat.leb_gt in A2. lia.
        -- now elim (Not 8080%Z ("", 0%Z)).
    + intros H. apply main_bad_arguments. unfold listen_port_of, peer_of.
      destruct H as [[A S]|[A S]]; apply Nat.leb_le in A; rewrite A, S.
      * now left.
      * now right.
  - intros U. unfold main in *.
    destruct (listen_port_of argv) as [lp|] eqn:L; [|split; reflexivity].
    destruct (peer_of argv) as [peer|] eqn:P.
    + now elim (Not lp peer).
    + cbn [trace file_callbacks]. split; [|reflexivity].
      destruct (2 <=? List.length argv)%nat; reflexivity.
Qed.

Lemma main_throws_iff_witness :
  outcome (main 9 Samples.busy_world ["rats"; "8080"; "peer.example"; "http"] "quit")
  = Uncaught.
Proof.
  apply (proj1 (main_throws_iff 9 Samples.busy_world
                  ["rats"; "8080"; "peer.example"; "http"] "quit")).
  right. split; [simpl; lia|reflexivity].
Defined.

(** *** Words of a line *)

Local Open Scope string_scope.

Lemma skipws_append (pad s : string) :
  skipws pad = "" -> skipws (pad ++ s) = skipws s.
Proof.
  induction pad as [|c pad IH]; cbn [append skipws]; [reflexivity|].
  destruct (isspace c); [exact IH|discriminate].
Qed.

(** A string that [span_word] returns whole is a word: it holds no white
    space. *)
Lemma span_word_append (word rest : string) :
  span_word word = (word, "") -> span_word rest = ("", rest) ->
  span_word (word ++ rest) = (word, rest).
Proof.
  intros W R. induction word as [|c word IH]; cbn [append]; [exact R|].
  cbn [span_word] in *. destruct (isspace c); [discriminate|].
  destruct (span_word word) as [w r] eqn:E. injection W as W1 W2. subst w r.
  now rewrite IH.
Qed.

Lemma skipws_word (word rest : string) :
  span_word word = (word, "") -> word <> "" ->
  skipws (word ++ rest) = word ++ rest.
Proof.
  intros W NE. destruct word as [|c word]; [congruence|].
  cbn [append skipws span_word] in *. destruct (isspace c); [discriminate|].
  reflexivity.
Qed.

Lemma blanks_span (blanks : string) :
  skipws blanks = "" -> span_word blanks = ("", blanks).
Proof.
  destruct blanks as [|c t]; [reflexivity|]. cbn [skipws span_word].
  destruct (isspace c); [reflexivity|discriminate].
Qed.

(** [is >> str] on a good stream: blanks, then a word, then the rest. *)
Lemma extract_word (pad word rest str : string) :
  skipws pad = "" -> span_word word = (word, "") -> word <> "" ->
  span_word rest = ("", rest) ->
  extract_string (mk_istream (pad ++ word ++ rest) false false) str
  = (mk_istream rest (empty rest) false, word).
Proof.
  intros P W NE R. unfold extract_string, sentry.
  cbn [good eofbit failbit negb andb buf].
  rewrite (skipws_append pad _ P), (skipws_word word rest W NE).
  destruct (word ++ rest) as [|c t] eqn:E.
  { destruct word; [congruence|discriminate]. }
  rewrite <- E. cbn [buf]. now rewrite (span_word_append word rest W R).
Qed.

(** X11.  The loop looks at the first word of a line only: blanks before it and
    whatever follows it after a blank do not change the command, so a line
    whose first word is [quit] or [exit] leaves the loop whatever else it
    holds. *)
Theorem first_word_decides (pad word rest : string) :
  skipws pad = "" -> span_word word = (word, "") -> word <> "" ->
  span_word rest = ("", rest) ->
  command_of (pad ++ word ++ rest) = word
  /\ (word = "quit" \/ word = "exit" -> is_quit_line (pad ++ word ++ rest) = true).
Proof.
  intros P W NE R.
  assert (C : command_of (pad ++ word ++ rest) = word).
  { unfold command_of, istringstream. now rewrite (extract_word pad word rest "" P W NE R). }
  split; [exact C|]. intros Q. unfold is_quit_line. rewrite C.
  apply dispatch_quit in Q. rewrite Q.
  destruct (pad ++ word ++ rest) eqn:E; [|reflexivity].
  destruct pad; [destruct word; [congruence|discriminate]|discriminate].
Qed.

Lemma first_word_decides_witness :
  command_of "   quit  and never come back" = "quit"
  /\ is_quit_line "   quit  and never come back" = true.
Proof.
  destruct (first_word_decides "   " "quit" "  and never come back"
              eq_refl eq_refl ltac:(discriminate) eq_refl) as [C Q].
  split; [exact C|]. apply Q. now left.
Defined.

(** *** A command without its arguments *)

(** X12.  When the command word is the last thing on the line, every command that
    needs a word after it prints its usage line and nothing else: it calls
    no function of the library. *)
Theorem missing_argument_prints_usage (w : World) (k : nat) (listen_port : Z)
    (word u : string) :
  span_word word = (word, "") -> word <> "" ->
  usage_of (dispatch word) = Some u ->
  command_of word = word
  /\ run_arm w k listen_port (dispatch word) word
       (fst (extract_string (istringstream word) "")) = [line u].
Proof.
  intros W NE U.
  pose proof (extract_word "" word "" "" eq_refl W NE eq_refl) as E.
  cbn [append] in E. rewrite DecimalFacts.append_nil_r in E.
  split; [unfold command_of, istringstream; now rewrite E|].
  unfold istringstream. rewrite E. cbn [fst empty].
  assert (G : good (mk_istream "" true false) = false) by reflexivity.
  destruct (dispatch word); try discriminate U; injection U as <-;
    cbn [run_arm];
    unfold arm_broadcast, arm_send, arm_connect, arm_connect6, arm_connect_dual,
      arm_dht_find, arm_dht_announce, arm_test_ipv6, arm_dht_test, arm_file_send,
      arm_dir_send, arm_file_request, arm_dir_request, arm_transfer_status,
      arm_transfer_control, read_host_port;
    rewrite ?(getline_not_good _ _ G), ?(extract_string_not_good _ _ G);
    cbn [buf eofbit];
    rewrite ?extract_string_not_good, ?extract_int_not_good, ?getline_not_good
      by apply good_failed;
    reflexivity.
Qed.

Lemma missing_argument_prints_usage_witness :
  run_arm Samples.busy_world 1 8080 (dispatch "file_send") "file_send"
    (fst (extract_string (istringstream "file_send") ""))
  = [line "Usage: file_send <peer_hash> <file_path> [remote_name]"].
Proof.
  apply (missing_argument_prints_usage Samples.busy_world 1 8080 "file_send" _
           eq_refl ltac:(discriminate) eq_refl).
Defined.

(** *** The host and the port of the connecting commands *)

Lemma span_blank_prefix (pad s : string) :
  skipws pad = "" -> pad <> "" -> span_word (pad ++ s) = ("", pad ++ s).
Proof.
  intros P NE. destruct pad as [|c pad]; [congruence|].
  cbn [append skipws span_word] in *.
  destruct (isspace c); [reflexivity|discriminate].
Qed.

(** The stream the arm receives once the command word is read. *)
Lemma after_command (cmd rest : string) :
  span_word cmd = (cmd, "") -> cmd <> "" -> span_word rest = ("", rest) ->
  extract_string (istringstream (cmd ++ rest)) ""
  = (mk_istream rest (empty rest) false, cmd).
Proof.
  intros W NE R. exact (extract_word "" cmd rest "" eq_refl W NE R).
Qed.

Lemma run_line_arm (w : World) (k : nat) (listen_port : Z) (cmd rest : string) :
  span_word cmd = (cmd, "") -> cmd <> "" -> span_word rest = ("", rest) ->
  run_line w k listen_port (cmd ++ rest)
  = run_arm w k listen_port (dispatch cmd) cmd (mk_istream rest (empty rest) false).
Proof.
  intros W NE R. unfold run_line. now rewrite (after_command cmd rest W NE R).
Qed.

Lemma nonempty_append (a b : string) : a <> "" -> empty (a ++ b) = false.
Proof. destruct a; [congruence|reflexivity]. Qed.

(** [iss >> val] at the end of the line, or before blanks only, leaves
    [val] as it was. *)
Lemma extract_int_blanks (blanks : string) (val : Z) :
  skipws blanks = "" ->
  snd (extract_int (mk_istream blanks (empty blanks) false) val) = val.
Proof.
  intros B. unfold extract_int, sentry. cbn [good eofbit failbit buf].
  destruct blanks as [|c t]; [reflexivity|].
  cbn [empty negb andb]. now rewrite B.
Qed.

(** X13.  The arms that read [iss >> host >> port] into an [int port] without an
    initial value ([connect], [connect6], [connect_dual], [test_ipv6] and
    [dht_test]) read a port that nothing has written when the line ends after
    the host.  [connect] then prints its usage line exactly when that value
    happens not to be positive, and otherwise calls [connect_to_peer] with
    it. *)
Theorem port_never_written (w : World) (k : nat) (listen_port : Z)
    (cmd pad host blanks : string) :
  span_word cmd = (cmd, "") -> cmd <> "" ->
  skipws pad = "" -> pad <> "" ->
  span_word host = (host, "") -> host <> "" ->
  skipws blanks = "" ->
  read_host_port w (fst (extract_string (istringstream (cmd ++ pad ++ host ++ blanks)) ""))
  = (host, indeterminate_int w)
  /\ ((indeterminate_int w <= 0)%Z ->
      run_line w k listen_port ("connect" ++ pad ++ host ++ blanks)
      = [line "Usage: connect <host> <port>"])
  /\ ((0 < indeterminate_int w)%Z ->
      In (Call "connect_to_peer" [AStr host; AInt (indeterminate_int w)]
            (ABool (ret_bool w k "connect_to_peer")))
         (run_line w k listen_port ("connect" ++ pad ++ host ++ blanks))).
Proof.
  intros W NE P PNE H HNE B.
  assert (RH : forall strm,
             strm = mk_istream (pad ++ host ++ blanks) false false ->
             read_host_port w strm = (host, indeterminate_int w)).
  { intros strm ->. unfold read_host_port.
    rewrite (extract_word pad host blanks "" P H HNE (blanks_span _ B)).
    pose proof (extract_int_blanks blanks (indeterminate_int w) B) as E.
    destruct (extract_int _ _) as [s v]. cbn [snd] in E. now subst v. }
  assert (R : span_word (pad ++ host ++ blanks) = ("", pad ++ host ++ blanks))
    by now apply span_blank_prefix.
  assert (EM : empty (pad ++ host ++ blanks) = false) by now apply nonempty_append.
  split; [|split].
  - rewrite (after_command cmd _ W NE R). cbn [fst]. rewrite EM. now apply RH.
  - intros L. rewrite (run_line_arm w k listen_port "connect" _ eq_refl
                         ltac:(discriminate) R), EM.
    cbn [dispatch run_arm]. change (dispatch "connect") with BConnect.
    cbn [run_arm]. unfold arm_connect. rewrite (RH _ eq_refl).
    rewrite (empty_false host HNE). cbn [negb andb].
    destruct (Z.ltb_spec 0 (indeterminate_int w)); [lia|reflexivity].
  - intros L. rewrite (run_line_arm w k listen_port "connect" _ eq_refl
                         ltac:(discriminate) R), EM.
    change (dispatch "connect") with BConnect.
    cbn [run_arm]. unfold arm_connect. rewrite (RH _ eq_refl).
    rewrite (empty_false host HNE). cbn [negb andb].
    destruct (Z.ltb_spec 0 (indeterminate_int w)); [|lia].
    right. left. reflexivity.
Qed.

Lemma port_never_written_witness :
  In (Call "connect_to_peer" [AStr "peer.example"; AInt 4242] (ABool true))
     (run_line Samples.stale_world 1 8080 "connect peer.example")
  /\ run_line Samples.busy_world 1 8080 "connect peer.example"
     = [line "Usage: connect <host> <port>"].
Proof.
  split.
  - exact (proj2 (proj2 (port_never_written Samples.stale_world 1 8080
             "connect" " " "peer.example" "" eq_refl ltac:(discriminate)
             eq_refl ltac:(discriminate) eq_refl ltac:(discriminate) eq_refl))
           ltac:(reflexivity)).
  - exact (proj1 (proj2 (port_never_written Samples.busy_world 1 8080
             "connect" " " "peer.example" "" eq_refl ltac:(discriminate)
             eq_refl ltac:(discriminate) eq_refl ltac:(discriminate) eq_refl))
           ltac:(discriminate)).
Defined.

(** *** The port as typed *)

Lemma isdigit_is_digit (c : ascii) : isdigit c = Decimal.is_digit c.
Proof.
  destruct c as [[] [] [] [] [] [] [] []]; reflexivity.
Qed.

Lemma digit_value_val (c : ascii) :
  Decimal.is_digit c = true -> digit_value c = Z.of_N (Decimal.digit_val c).
Proof.
  destruct c as [[] [] [] [] [] [] [] []]; intros D; try discriminate D; reflexivity.
Qed.

(** A digit is no sign. *)
Lemma sign_of_digit (c : ascii) (t : string) :
  Decimal.is_digit c = true ->
  match String c t with
  | String "-" t' => (true, t')
  | String "+" t' => (false, t')
  | s => (false, s)
  end = (false, String c t).
Proof.
  destruct c as [[] [] [] [] [] [] [] []]; intros D; try discriminate D; reflexivity.
Qed.

Lemma scan_digits_value (ds : string) :
  forall (acc : option Z) (a : N),
    match acc with Some z => z | None => 0%Z end = Z.of_N a ->
    Decimal.all_digits ds = true -> ds <> "" ->
    scan_digits ds acc = (Some (Z.of_N (Decimal.digits_value ds a)), "").
Proof.
  induction ds as [|c t IH]; intros acc a A D NE; [congruence|].
  cbn [scan_digits Decimal.all_digits Decimal.digits_value] in *.
  apply andb_true_iff in D. destruct D as [C D].
  rewrite isdigit_is_digit, C, A, (digit_value_val c C).
  destruct t as [|c' t'].
  - cbn [scan_digits Decimal.digits_value]. do 2 f_equal. lia.
  - apply IH; [lia|exact D|discriminate].
Qed.

(** [iss >> val] before blanks and the decimal numeral of [p]: the value
    read is [p], or [INT_MAX] when [p] does not fit an [int]. *)
Lemma extract_int_numeral (pad : string) (p : N) (val : Z) :
  skipws pad = "" ->
  snd (extract_int (mk_istream (pad ++ Decimal.print_N p) false false) val)
  = Z.min (Z.of_N p) INT_MAX.
Proof.
  intros P. unfold extract_int, sentry. cbn [good eofbit failbit negb andb buf].
  rewrite (skipws_append pad _ P).
  pose proof (DecimalFacts.print_N_all_digits p) as A.
  pose proof (DecimalFacts.print_N_starts_with_digit p) as S.
  pose proof (DecimalFacts.print_N_value p) as V.
  destruct (Decimal.print_N p) as [|c t] eqn:E; [discriminate S|].
  cbn [Decimal.starts_with_digit] in S.
  cbn [skipws].
  assert (NS : isspace c = false).
  { revert S. clear. destruct c as [[] [] [] [] [] [] [] []]; intros D;
      try discriminate D; reflexivity. }
  rewrite NS. cbn [buf]. rewrite (sign_of_digit c t S).
  rewrite (scan_digits_value (String c t) None 0 eq_refl A ltac:(discriminate)), V.
  unfold INT_MAX, INT_MIN.
  destruct (Z.ltb_spec 2147483647 (Z.of_N p)); cbn [snd]; [lia|].
  destruct (Z.ltb_spec (Z.of_N p) (-2147483648)); cbn [snd]; lia.
Qed.

(** [iss >> host >> port] before a host and the decimal numeral of [p]. *)
Lemma read_host_port_numeral (w : World) (pad host pad' : string) (p : N) :
  skipws pad = "" -> span_word host = (host, "") -> host <> "" ->
  skipws pad' = "" -> pad' <> "" ->
  read_host_port w
    (mk_istream (pad ++ host ++ pad' ++ Decimal.print_N p) false false)
  = (host, Z.min (Z.of_N p) INT_MAX).
Proof.
  intros P H HNE P' PNE'. unfold read_host_port.
  rewrite (extract_word pad host (pad' ++ Decimal.print_N p) "" P H HNE
             (span_blank_prefix pad' _ P' PNE')),
    (nonempty_append pad' _ PNE').
  pose proof (extract_int_numeral pad' p (indeterminate_int w) P') as E.
  destruct (extract_int _ _) as [s v]. cbn [snd] in E. now subst v.
Qed.

(** X14.  The port of [connect] is taken as typed: any positive decimal number is
    passed on to [connect_to_peer], also one above 65535, and a number that
    does not fit an [int] is passed on as [INT_MAX].  The same value reaches
    the other arms that read a host and a port. *)
Theorem port_not_range_checked (w : World) (k : nat) (listen_port : Z)
    (cmd pad host pad' : string) (p : N) :
  span_word cmd = (cmd, "") -> cmd <> "" ->
  skipws pad = "" -> pad <> "" ->
  span_word host = (host, "") -> host <> "" ->
  skipws pad' = "" -> pad' <> "" ->
  (0 < p)%N ->
  read_host_port w
    (fst (extract_string
            (istringstream (cmd ++ pad ++ host ++ pad' ++ Decimal.print_N p)) ""))
  = (host, Z.min (Z.of_N p) INT_MAX)
  /\ In (Call "connect_to_peer" [AStr host; AInt (Z.min (Z.of_N p) INT_MAX)]
           (ABool (ret_bool w k "connect_to_peer")))
        (run_line w k listen_port
           ("connect" ++ pad ++ host ++ pad' ++ Decimal.print_N p)).
Proof.
  intros W NE P PNE H HNE P' PNE' Pos.
  set (rest := pad' ++ Decimal.print_N p).
  assert (RR : span_word rest = ("", rest)) by now apply span_blank_prefix.
  assert (RE : empty rest = false) by now apply nonempty_append.
  assert (RH : forall strm,
             strm = mk_istream (pad ++ host ++ rest) false false ->
             read_host_port w strm = (host, Z.min (Z.of_N p) INT_MAX)).
  { intros strm ->. now apply read_host_port_numeral. }
  assert (R : span_word (pad ++ host ++ rest) = ("", pad ++ host ++ rest))
    by now apply span_blank_prefix.
  assert (EM : empty (pad ++ host ++ rest) = false) by now apply nonempty_append.
  split.
  - rewrite (after_command cmd _ W NE R). cbn [fst]. rewrite EM. now apply RH.
  - rewrite (run_line_arm w k listen_port "connect" _ eq_refl
               ltac:(discriminate) R), EM.
    change (dispatch "connect") with BConnect.
    cbn [run_arm]. unfold arm_connect. rewrite (RH _ eq_refl).
    rewrite (empty_false host HNE). cbn [negb andb].
    destruct (Z.ltb_spec 0 (Z.min (Z.of_N p) INT_MAX)) as [_|L];
      [right; left; reflexivity|].
    unfold INT_MAX in L. lia.
Qed.

Lemma port_not_range_checked_witness :
  In (Call "connect_to_peer" [AStr "peer.example"; AInt 70000] (ABool true))
     (run_line Samples.busy_world 1 8080 "connect peer.example 70000").
Proof.
  exact (proj2 (port_not_range_checked Samples.busy_world 1 8080
           "connect" " " "peer.example" " " 70000 eq_refl ltac:(discriminate)
           eq_refl ltac:(discriminate) eq_refl ltac:(discriminate)
           eq_refl ltac:(discriminate) eq_refl)).
Defined.

(** X23.  [dht_test] accepts any positive port but hands the bootstrap node
    its port converted to 16 bits: the test DHT is bootstrapped with the
    port modulo 65536, so that [65536] reaches it as port [0], while the
    line logged before shows the number as typed. *)
Theorem dht_test_port_truncated (w : World) (k : nat) (listen_port : Z)
    (pad host pad' : string) (p : N) :
  skipws pad = "" -> pad <> "" ->
  span_word host = (host, "") -> host <> "" ->
  skipws pad' = "" -> pad' <> "" ->
  (0 < p)%N ->
  ret_bool w k "DhtClient::start" = true ->
  let port := Z.min (Z.of_N p) INT_MAX in
  let events :=
    run_line w k listen_port
      ("dht_test" ++ pad ++ host ++ pad' ++ Decimal.print_N p) in
  In (Log INFO [Txt "Testing DHT protocol with "; Txt host; Txt ":"; Num port])
     events
  /\ In (Call "DhtClient::bootstrap" [AStr host; AInt (port mod 65536)] AUnit)
        events
  /\ In (Call "DhtClient::stop" [] AUnit) events.
Proof.
  intros P PNE H HNE P' PNE' Pos Started port events. subst events.
  set (rest := pad' ++ Decimal.print_N p).
  assert (R : span_word (pad ++ host ++ rest) = ("", pad ++ host ++ rest))
    by now apply span_blank_prefix.
  rewrite (run_line_arm w k listen_port "dht_test" _ eq_refl
             ltac:(discriminate) R), (nonempty_append pad _ PNE).
  change (dispatch "dht_test") with BDhtTest.
  cbn [run_arm]. unfold arm_dht_test, rest.
  rewrite (read_host_port_numeral w pad host pad' p P H HNE P' PNE').
  fold port. rewrite (empty_false host HNE), Started. cbn [negb andb].
  assert (L : (0 <? port)%Z = true)
    by (apply Z.ltb_lt; unfold port, INT_MAX; lia).
  rewrite L. cbn [app In]. repeat split; tauto.
Qed.

Lemma dht_test_port_truncated_witness :
  In (Call "DhtClient::bootstrap" [AStr "192.0.2.7"; AInt 0] AUnit)
     (run_line Samples.busy_world 1 8080 "dht_test 192.0.2.7 65536").
Proof.
  exact (proj1 (proj2 (dht_test_port_truncated Samples.busy_world 1 8080
           " " "192.0.2.7" " " 65536 eq_refl ltac:(discriminate)
           eq_refl ltac:(discriminate) eq_refl ltac:(discriminate)
           eq_refl eq_refl))).
Defined.

(** *** Messages *)

(** X15.  [broadcast] and [send] transmit the rest of the line as it is, less
    exactly one character: the blank that ends the command word (for
    [broadcast]) or the recipient (for [send]).  Further blanks belong to the
    message, and a line that ends in that one blank transmits the empty
    message. *)
Theorem messages_sent_verbatim (w : World) (k : nat) (listen_port : Z)
    (pad hash : string) (c : ascii) (msg : string) :
  isspace c = true -> read_line (String c msg) = (String c msg, None) ->
  skipws pad = "" -> pad <> "" ->
  span_word hash = (hash, "") -> hash <> "" ->
  run_line w k listen_port ("broadcast" ++ String c msg)
  = [Call "broadcast_string_to_peers" [AStr msg]
       (AInt (ret_int w k "broadcast_string_to_peers"));
     Log INFO [Txt "Broadcasted message to ";
               Num (ret_int w k "broadcast_string_to_peers"); Txt " peers"]]
  /\ In (Call "send_string_to_peer_by_hash" [AStr hash; AStr msg]
           (ABool (ret_bool w k "send_string_to_peer_by_hash")))
        (run_line w k listen_port ("send" ++ pad ++ hash ++ String c msg)).
Proof.
  intros C NL P PNE H HNE.
  assert (R : span_word (String c msg) = ("", String c msg)).
  { cbn [span_word]. now rewrite C. }
  assert (G : forall str,
             getline (mk_istream (String c msg) false false) str
             = (mk_istream "" true false, String c msg)).
  { intros str. exact (getline_last (String c msg) str NL). }
  split.
  - rewrite (run_line_arm w k listen_port "broadcast" _ eq_refl
               ltac:(discriminate) R).
    change (dispatch "broadcast") with BBroadcast.
    cbn [run_arm empty]. unfold arm_broadcast. rewrite G. reflexivity.
  - assert (R' : span_word (pad ++ hash ++ String c msg)
                 = ("", pad ++ hash ++ String c msg))
      by now apply span_blank_prefix.
    rewrite (run_line_arm w k listen_port "send" _ eq_refl
               ltac:(discriminate) R'), (nonempty_append pad _ PNE).
    change (dispatch "send") with BSend.
    cbn [run_arm]. unfold arm_send.
    rewrite (extract_word pad hash (String c msg) "" P H HNE R).
    cbn [empty]. rewrite G, (empty_false hash HNE). cbn [empty negb andb substr1].
    left. reflexivity.
Qed.

Lemma messages_sent_verbatim_witness :
  run_line Samples.busy_world 1 8080 "broadcast   two  words "
  = [Call "broadcast_string_to_peers" [AStr "  two  words "] (AInt 3);
     Log INFO [Txt "Broadcasted message to "; Num 3; Txt " peers"]].
Proof.
  exact (proj1 (messages_sent_verbatim Samples.busy_world 1 8080 " " "peer"
                  " " "  two  words " eq_refl eq_refl eq_refl
                  ltac:(discriminate) eq_refl ltac:(discriminate))).
Defined.

(** *** The port of an announcement *)

(** X16.  [dht_announce <hash>] without a port announces with port [0], the
    initial value of its [int port], while the line it logs shows the
    listening port of the client. *)
Theorem dht_announce_default_port (w : World) (k : nat) (listen_port : Z)
    (pad hash blanks : string) :
  skipws pad = "" -> pad <> "" ->
  span_word hash = (hash, "") -> hash <> "" ->
  skipws blanks = "" ->
  ret_bool w k "is_dht_running" = true ->
  run_line w k listen_port ("dht_announce" ++ pad ++ hash ++ blanks)
  = [Call "is_dht_running" [] (ABool true);
     Log INFO [Txt "Announcing as peer for content hash: "; Txt hash;
               Txt " (port: "; Num listen_port; Txt ")"];
     Call "announce_for_hash" [AStr hash; AInt 0]
       (ABool (ret_bool w k "announce_for_hash"));
     if ret_bool w k "announce_for_hash"
     then Log INFO [Txt "DHT peer announcement initiated"]
     else Log ERROR [Txt "Failed to initiate DHT peer announcement"]].
Proof.
  intros P PNE H HNE B Run.
  assert (R : span_word (pad ++ hash ++ blanks) = ("", pad ++ hash ++ blanks))
    by now apply span_blank_prefix.
  rewrite (run_line_arm w k listen_port "dht_announce" _ eq_refl
             ltac:(discriminate) R), (nonempty_append pad _ PNE).
  change (dispatch "dht_announce") with BDhtAnnounce.
  cbn [run_arm]. unfold arm_dht_announce.
  rewrite (extract_word pad hash blanks "" P H HNE (blanks_span _ B)).
  pose proof (extract_int_blanks blanks 0%Z B) as E.
  destruct (extract_int _ _) as [s v]. cbn [snd] in E. subst v.
  rewrite (empty_false hash HNE), Run. reflexivity.
Qed.

Lemma dht_announce_default_port_witness :
  run_line Samples.busy_world 1 8080 "dht_announce c0ffee"
  = [Call "is_dht_running" [] (ABool true);
     Log INFO [Txt "Announcing as peer for content hash: "; Txt "c0ffee";
               Txt " (port: "; Num 8080; Txt ")"];
     Call "announce_for_hash" [AStr "c0ffee"; AInt 0] (ABool true);
     Log INFO [Txt "DHT peer announcement initiated"]].
Proof.
  exact (dht_announce_default_port Samples.busy_world 1 8080 " " "c0ffee" ""
           eq_refl ltac:(discriminate) eq_refl ltac:(discriminate)
           eq_refl eq_refl).
Defined.

(** *** The list of connected peers *)

Local Open Scope list_scope.

(** X17.  The disconnect callback removes every entry of the socket from the list
    [list] prints and keeps the others in their order; called after the
    connection callback for the same socket it undoes it, and it does not
    disturb the connection of another socket. *)
Theorem disconnect_forgets_socket (peers : list (Z * string)) (socket : Z)
    (hash : string) :
  (forall peer, In peer (disconnect_callback peers socket)
                <-> In peer peers /\ fst peer <> socket)
  /\ disconnect_callback (connection_callback peers socket hash) socket
     = disconnect_callback peers socket
  /\ ((forall peer, In peer peers -> fst peer <> socket) ->
      disconnect_callback (connection_callback peers socket hash) socket = peers)
  /\ (forall socket' hash', socket' <> socket ->
      disconnect_callback (connection_callback peers socket' hash') socket
      = connection_callback (disconnect_callback peers socket) socket' hash').
Proof.
  unfold disconnect_callback, connection_callback, push_back.
  repeat split.
  - apply filter_In in H. apply H.
  - apply filter_In in H. destruct H as [_ H].
    apply negb_true_iff, Z.eqb_neq in H. exact H.
  - intros [I N]. apply filter_In. split; [exact I|].
    now apply negb_true_iff, Z.eqb_neq.
  - rewrite filter_app. cbn [filter fst]. rewrite Z.eqb_refl. cbn [negb].
    apply app_nil_r.
  - intros Fresh. rewrite filter_app. cbn [filter fst]. rewrite Z.eqb_refl.
    cbn [negb]. rewrite app_nil_r.
    induction peers as [|p ps IH]; [reflexivity|]. cbn [filter].
    assert (N : fst p <> socket) by (apply Fresh; now left).
    apply Z.eqb_neq in N. rewrite N. cbn [negb]. f_equal.
    apply IH. intros q I. apply Fresh. now right.
  - intros socket' hash' N. rewrite filter_app. cbn [filter fst].
    apply Z.eqb_neq in N. now rewrite N.
Qed.

Lemma disconnect_forgets_socket_witness :
  disconnect_callback (connection_callback [(4, "aa"); (5, "bb")]%Z 6 "cc") 6
  = [(4, "aa"); (5, "bb")]%Z.
Proof.
  apply (proj1 (proj2 (proj2 (disconnect_forgets_socket
           [(4, "aa"); (5, "bb")]%Z 6 "cc")))).
  intros peer [<-|[<-|[]]]; discriminate.
Defined.

(** *** The probe connections *)

Lemma closed_sockets_app (a b : list Event) :
  closed_sockets (a ++ b) = closed_sockets a ++ closed_sockets b.
Proof. apply flat_map_app. Qed.

Lemma calls_app (a b : list Event) : calls (a ++ b) = calls a ++ calls b.
Proof. apply flat_map_app. Qed.

Lemma closed_sockets_probe (w : World) (k : nat) (valid : Z -> bool)
    (api : string) (args : list Arg) (testing ok failed : string) :
  String.eqb api "close_socket" = false ->
  closed_sockets (probe_socket w k valid api args testing ok failed)
  = filter valid [ret_int w k api].
Proof.
  intros NA. unfold probe_socket. rewrite closed_sockets_app.
  cbn [closed_sockets flat_map filter app].
  destruct args as [|[] []]; rewrite ?NA; destruct (valid _); reflexivity.
Qed.

(** X18.  The sockets [connect6], [connect_dual] and [test_ipv6] open to probe a
    host are closed before the command ends, each one once, and nothing is
    closed for a probe that failed; [test_ipv6] only probes: it never
    connects the client. *)
Theorem probe_sockets_closed (w : World) (k : nat) (iss : istream)
    (host : string) (port : Z) :
  read_host_port w iss = (host, port) -> host <> "" -> (0 < port)%Z ->
  let connected := fun socket => negb (Z.eqb socket (INVALID_SOCKET_VALUE w)) in
  closed_sockets (arm_connect6 w k iss)
  = filter connected [ret_int w k "create_tcp_client_v6"]
  /\ closed_sockets (arm_connect_dual w k iss)
     = filter connected [ret_int w k "create_tcp_client"]
  /\ closed_sockets (arm_test_ipv6 w k iss)
     = filter connected [ret_int w k "create_tcp_client_v6";
                         ret_int w k "create_tcp_client"]
       ++ filter (is_valid_socket w) [ret_int w k "create_udp_socket_v6";
                                      ret_int w k "create_udp_socket"]
  /\ ~ In "connect_to_peer" (calls (arm_test_ipv6 w k iss)).
Proof.
  intros R HNE Pos connected. subst connected.
  apply (empty_false host) in HNE. apply Z.ltb_lt in Pos.
  unfold arm_connect6, arm_connect_dual, arm_test_ipv6, probe_then_connect.
  rewrite R, HNE, Pos. cbn [negb andb].
  repeat split.
  - cbn [filter].
    destruct (Z.eqb _ (INVALID_SOCKET_VALUE w)),
      (ret_bool w k "connect_to_peer"); reflexivity.
  - cbn [filter].
    destruct (Z.eqb _ (INVALID_SOCKET_VALUE w)),
      (ret_bool w k "connect_to_peer"); reflexivity.
  - rewrite !closed_sockets_app, !closed_sockets_probe by reflexivity.
    cbn [filter app].
    destruct (Z.eqb (ret_int w k "create_tcp_client_v6") _),
      (Z.eqb (ret_int w k "create_tcp_client") _),
      (is_valid_socket w (ret_int w k "create_udp_socket_v6")),
      (is_valid_socket w (ret_int w k "create_udp_socket")); reflexivity.
  - unfold probe_socket. rewrite !calls_app. cbn [calls flat_map app].
    destruct (Z.eqb (ret_int w k "create_tcp_client_v6") _),
      (Z.eqb (ret_int w k "create_tcp_client") _),
      (is_valid_socket w (ret_int w k "create_udp_socket_v6")),
      (is_valid_socket w (ret_int w k "create_udp_socket"));
      cbn [negb calls flat_map app In];
      intros I; repeat (destruct I as [I|I]; [discriminate I|]); exact I.
Qed.

Lemma probe_sockets_closed_witness :
  closed_sockets
    (arm_test_ipv6 Samples.busy_world 1 (mk_istream " ::1 8080" false false))
  = [3; 3; 3; 3]%Z.
Proof.
  exact (proj1 (proj2 (proj2 (probe_sockets_closed Samples.busy_world 1
           (mk_istream " ::1 8080" false false) "::1" 8080 eq_refl
           ltac:(discriminate) eq_refl)))).
Defined.

(** *** The help text *)

Local Open Scope string_scope.

(** X19.  The help text and the chain of comparisons agree: every command the help
    text lists has an arm of its own, and every word that has one is listed,
    except [exit], which leaves the loop like [quit] without being
    documented. *)
Theorem help_lists_the_commands :
  (forall command, In command help_commands -> dispatch command <> BUnknown)
  /\ (forall command, dispatch command <> BUnknown ->
                      command = "exit" \/ In command help_commands)
  /\ ~ In "exit" help_commands.
Proof.
  assert (E : help_commands
              = ["help"; "version"; "peers"; "list"; "broadcast"; "send";
                 "connect"; "connect6"; "connect_dual"; "dht_start"; "dht_stop";
                 "dht_status"; "dht_find"; "dht_announce"; "dht_discovery_status";
                 "netutils"; "netutils6"; "dht_test"; "test_ipv6"; "file_send";
                 "dir_send"; "file_request"; "dir_request"; "transfer_list";
                 "transfer_status"; "transfer_pause"; "transfer_resume";
                 "transfer_cancel"; "transfer_stats"; "quit"])
    by reflexivity.
  rewrite E. repeat split.
  - intros command I. cbn [In] in I.
    repeat (destruct I as [<-|I]; [discriminate|]). contradiction.
  - intros command D.
    destruct (in_dec string_dec command command_words) as [I|N].
    + unfold command_words in I. cbn [In] in *.
      repeat (destruct I as [<-|I]; [tauto|]). contradiction.
    + now apply dispatch_unknown in N.
  - cbn [In]. intros I.
    repeat (destruct I as [I|I]; [discriminate I|]). exact I.
Qed.

Lemma help_lists_the_commands_witness :
  dispatch "dht_find" <> BUnknown
  /\ ("transfer_stats" = "exit" \/ In "transfer_stats" help_commands).
Proof.
  split.
  - apply (proj1 help_lists_the_commands). vm_compute. tauto.
  - apply (proj1 (proj2 help_lists_the_commands)). discriminate.
Defined.

(** *** Commands that need a service *)

Ltac split_reads :=
  repeat match goal with
         | |- context [let (_, _) := ?e in _] => destruct e
         end.

(** X20.  Without a file transfer manager a command on transfers either prints
    its usage line (when a word it needs is missing) or asks
    [is_file_transfer_available()] and logs that transfers are not
    available: it calls no other function of the library. *)
Theorem transfers_need_manager (w : World) (k : nat) (listen_port : Z)
    (b : Branch) (command : string) (iss : istream) :
  is_transfer_arm b = true ->
  ret_bool w k "is_file_transfer_available" = false ->
  run_arm w k listen_port b command iss
  = [Call "is_file_transfer_available" [] (ABool false);
     Log ERROR [Txt "File transfer not available"]]
  \/ exists usage, usage_of b = Some usage
                   /\ run_arm w k listen_port b command iss = [line usage].
Proof.
  intros T U.
  destruct b; try discriminate T; cbn [run_arm usage_of];
    unfold arm_file_send, arm_dir_send, arm_file_request, arm_dir_request,
      arm_transfer_list, arm_transfer_status, arm_transfer_control,
      arm_transfer_stats, start_transfer;
    split_reads; rewrite U; cbn [negb];
    repeat match goal with
           | |- context [if ?c then _ else _] => destruct c
           end;
    eauto.
Qed.

Lemma transfers_need_manager_witness :
  run_arm Samples.idle_world 1 8080 BTransferCancel "transfer_cancel"
    (mk_istream " transfer-1" false false)
  = [Call "is_file_transfer_available" [] (ABool false);
     Log ERROR [Txt "File transfer not available"]]
  \/ exists usage,
       usage_of BTransferCancel = Some usage
       /\ run_arm Samples.idle_world 1 8080 BTransferCancel "transfer_cancel"
            (mk_istream " transfer-1" false false) = [line usage].
Proof.
  exact (transfers_need_manager Samples.idle_world 1 8080 BTransferCancel
           "transfer_cancel" (mk_istream " transfer-1" false false)
           eq_refl eq_refl).
Defined.

Lemma calls_log_indexed (v : list string) : forall i, calls (log_indexed i v) = [].
Proof.
  induction v as [|a v IH]; intros i; [reflexivity|].
  cbn [log_indexed calls flat_map app]. apply IH.
Qed.

Lemma calls_print_transfers (l : list FileTransferProgress) :
  calls (flat_map print_transfer l) = [].
Proof.
  induction l as [|t l IH]; [reflexivity|].
  cbn [flat_map]. rewrite calls_app, IH. reflexivity.
Qed.

Lemma calls_print_progress (id : string) (progress : FileTransferProgress) :
  calls (print_progress id progress) = [].
Proof.
  unfold print_progress. rewrite !calls_app.
  destruct (0 <? _)%Z, (negb _); reflexivity.
Qed.

Lemma calls_arm_list (w : World) (k : nat) : calls (arm_list w k) = [].
Proof.
  unfold arm_list. destruct (connected_peers w k) as [|p l]; [reflexivity|].
  generalize (p :: l). clear. intros l. cbn [calls flat_map line app].
  induction l as [|q l IH]; [reflexivity|exact IH].
Qed.

Lemma calls_arm_netutils6 (w : World) (iss : istream) :
  calls (arm_netutils6 w iss) = [].
Proof.
  unfold arm_netutils6. destruct (extract_string iss "") as [s hostname].
  rewrite !calls_app, !calls_log_indexed.
  destruct (negb _); reflexivity.
Qed.

Ltac among_calls :=
  let I := fresh "I" in
  intros I; cbn [calls flat_map app In] in I;
  repeat (destruct I as [<-|I]; [auto|]); contradiction.

Lemma calls_arm_transfer_list (w : World) (k : nat) (api : string) :
  In api (calls (arm_transfer_list w k)) ->
  api = "is_file_transfer_available" \/ api = "get_active_file_transfers".
Proof.
  unfold arm_transfer_list.
  destruct (negb _); [among_calls|].
  destruct (active_file_transfers w k) as [|t l]; [among_calls|].
  intros I.
  change (In api ("is_file_transfer_available" :: "get_active_file_transfers"
                  :: calls (flat_map print_transfer (t :: l)))) in I.
  rewrite calls_print_transfers in I. revert I. among_calls.
Qed.

Lemma calls_arm_transfer_status (w : World) (k : nat) (iss : istream)
    (api : string) :
  In api (calls (arm_transfer_status w k iss)) ->
  api = "is_file_transfer_available" \/ api = "get_file_transfer_progress".
Proof.
  unfold arm_transfer_status. destruct (extract_string iss "") as [s id].
  destruct (negb (empty id)); [|among_calls].
  destruct (negb _); [among_calls|].
  destruct (file_transfer_progress w k) as [progress|]; [|among_calls].
  intros I.
  change (In api ("is_file_transfer_available" :: "get_file_transfer_progress"
                  :: calls (print_progress id progress))) in I.
  rewrite calls_print_progress in I. revert I. among_calls.
Qed.

Ltac not_called :=
  let J := fresh "J" in
  intros J; cbn [calls flat_map app map line In] in J;
  repeat (destruct J as [J|J]; [discriminate J|]); exact J.

(** Settles [~ In name (calls (run_arm w k p b command iss))] for a literal
    [name], arm by arm, given the answer [Answer] of the guard. *)
Ltac guarded Answer :=
  match goal with
  | |- ~ In _ (calls (run_arm _ _ _ ?b _ _)) => destruct b
  end;
  cbn [run_arm];
  first
    [ rewrite calls_arm_list; intros []
    | rewrite calls_arm_netutils6; intros []
    | let J := fresh "J" in
      intros J; apply calls_arm_transfer_list in J; destruct J as [J|J];
      discriminate J
    | let J := fresh "J" in
      intros J; apply calls_arm_transfer_status in J; destruct J as [J|J];
      discriminate J
    | unfold print_help, arm_peers, arm_broadcast, arm_send, arm_connect,
        arm_connect6, arm_connect_dual, arm_dht_start, arm_dht_stop,
        arm_dht_find, arm_dht_announce, arm_dht_discovery_status, arm_netutils,
        arm_test_ipv6, arm_dht_test, arm_file_send, arm_dir_send,
        arm_file_request, arm_dir_request, arm_transfer_control,
        arm_transfer_stats, arm_unknown, start_transfer, probe_then_connect,
        probe_socket, read_host_port, dht_status_lines;
      split_reads; rewrite ?Answer; cbn [negb];
      repeat match goal with
             | |- context [if ?c then _ else _] => destruct c
             end;
      not_called ].

(** X21.  No command asks the DHT to search, to announce or to stop unless
    [is_dht_running()] answered yes in the same iteration, and none starts
    the discovery when it answered yes. *)
Theorem dht_calls_guarded (w : World) (k : nat) (listen_port : Z) (b : Branch)
    (command : string) (iss : istream) :
  (ret_bool w k "is_dht_running" = false ->
   forall api,
     In api ["find_peers_by_hash"; "announce_for_hash"; "stop_dht_discovery"] ->
     ~ In api (calls (run_arm w k listen_port b command iss)))
  /\ (ret_bool w k "is_dht_running" = true ->
      ~ In "start_dht_discovery" (calls (run_arm w k listen_port b command iss))).
Proof.
  split.
  - intros Run api I. cbn [In] in I.
    destruct I as [<-|[<-|[<-|[]]]]; guarded Run.
  - intros Run. guarded Run.
Qed.

Lemma dht_calls_guarded_witness :
  ~ In "announce_for_hash"
      (calls (run_arm Samples.idle_world 1 8080 BDhtAnnounce "dht_announce"
                (mk_istream " c0ffee 6881" false false))).
Proof.
  apply (proj1 (dht_calls_guarded Samples.idle_world 1 8080 BDhtAnnounce
                  "dht_announce" (mk_istream " c0ffee 6881" false false))
           eq_refl).
  right. left. reflexivity.
Defined.

(** *** A script of commands *)

Local Open Scope list_scope.




End CliMore.
